(** * AI Translation Benchmark: metric evaluation and score fusion

    A shallow embedding of the evaluation core of the benchmark
    ([backend/app/evaluation]) and of the routes that store and read
    back its results ([backend/app/api/routes/translation.py]),
    together with the properties its specification states about it and
    further properties of the code.

    Conventions of the embedding.
    - A Python [float] is an exact rational ([Q]); rounding of IEEE
      doubles is not modelled.  Equality of scores is [Qeq] ([==]).
      Where the rounding decides a property, the arithmetic is carried
      out on binary64 numbers ([binary64], on primitive floats).
    - A Python [str] is a [string] whose characters are the code points
      below 256, one [ascii] per character, so that [len] is
      [String.length].
    - A Python exception is a value of [exn]; code that can raise
      returns a [result].
    - A [dict] whose order matters (metric results, counters) is an
      association list in insertion order. *)

From Stdlib Require Import List String Ascii Bool Arith ZArith.
From Stdlib Require Import QArith Qround Qminmax Qabs Lia Lqa DecimalString.
From Stdlib Require Import Permutation Sorted Floats.
Import ListNotations.

Close Scope Q_scope.
Open Scope string_scope.
Open Scope nat_scope.

(* ================================================================= *)
(** ** Fragments of the Python runtime used by the code               *)
(* ================================================================= *)

Module Py.

(** Exceptions that the modelled code can raise. *)
Inductive exn : Type :=
| ZeroDivisionError
| ValueError (msg : string)
| LangDetectException (msg : string)
| RuntimeError (msg : string).

Inductive result (A : Type) : Type :=
| Ok (a : A)
| Raise (e : exn).
Arguments Ok {A} a.
Arguments Raise {A} e.

Definition bind {A B : Type} (m : result A) (k : A -> result B) : result B :=
  match m with
  | Ok a => k a
  | Raise e => Raise e
  end.

(** [str(e)] for an exception value. *)
Definition str_of_exn (e : exn) : string :=
  match e with
  | ZeroDivisionError => "float division by zero"
  | ValueError msg => msg
  | LangDetectException msg => msg
  | RuntimeError msg => msg
  end.

(** *** Floats *)

Definition Qlt_bool (a b : Q) : bool := negb (Qle_bool b a).

(** [a / b]: raises [ZeroDivisionError] on a zero divisor. *)
Definition truediv (a b : Q) : result Q :=
  if Qeq_bool b 0%Q then Raise ZeroDivisionError else Ok (a / b)%Q.

(** [max(a, b)] keeps its first argument unless the second is greater;
    [min(a, b)] keeps it unless the second is smaller. *)
Definition max (a b : Q) : Q := if Qlt_bool a b then b else a.
Definition min (a b : Q) : Q := if Qlt_bool b a then b else a.

(** [sum(xs)]: a left fold that starts from 0. *)
Definition sum (xs : list Q) : Q := fold_left Qplus xs 0%Q.

Definition float_of_nat (n : nat) : Q := inject_Z (Z.of_nat n).

(** *** Characters (code points below 256) *)

Definition ord (c : ascii) : nat := nat_of_ascii c.

Definition between (lo hi n : nat) : bool := (lo <=? n) && (n <=? hi).

(** [c.isspace()] *)
Definition isspace (c : ascii) : bool :=
  let n := ord c in
  between 9 13 n || between 28 32 n || (n =? 133) || (n =? 160).

(** [c.isupper()] for a single character. *)
Definition isupper (c : ascii) : bool :=
  let n := ord c in
  between 65 90 n || between 192 214 n || between 216 222 n.

(** A cased lower-case letter. *)
Definition islower (c : ascii) : bool :=
  let n := ord c in
  between 97 122 n || (n =? 170) || (n =? 181) || (n =? 186)
  || between 223 246 n || between 248 255 n.

(** [\d] of the [re] module. *)
Definition isdecimal (c : ascii) : bool := between 48 57 (ord c).

(** [\w] of the [re] module: alphanumeric or underscore. *)
Definition isword (c : ascii) : bool :=
  let n := ord c in
  between 48 57 n || between 65 90 n || between 97 122 n || (n =? 95)
  || (n =? 170) || (n =? 178) || (n =? 179) || (n =? 181)
  || (n =? 185) || (n =? 186) || between 188 190 n
  || between 192 214 n || between 216 246 n || between 248 255 n.

(** [c.lower()] *)
Definition lower_char (c : ascii) : ascii :=
  if isupper c then ascii_of_nat (ord c + 32) else c.

(** [c.upper()] where the result stays below 256; the three letters
    whose capital lies beyond (181, 223, 255) are kept. *)
Definition upper_char (c : ascii) : ascii :=
  let n := ord c in
  if between 97 122 n || between 224 246 n || between 248 254 n
  then ascii_of_nat (n - 32) else c.

(** [string.punctuation] *)
Definition punctuation : string :=
  String "!" (String (ascii_of_nat 34) "#$%&'()*+,-./:;<=>?@[\]^_`{|}~").

(** *** Strings *)

Definition len (s : string) : nat := String.length s.

(** Truth value of a string: non-empty. *)
Definition truthy (s : string) : bool :=
  match s with EmptyString => false | String _ _ => true end.

Definition chars (s : string) : list ascii := list_ascii_of_string s.
Definition str (l : list ascii) : string := string_of_list_ascii l.

Fixpoint dropwhile {A : Type} (p : A -> bool) (l : list A) : list A :=
  match l with
  | [] => []
  | x :: t => if p x then dropwhile p t else l
  end.

(** [s.strip()]: white space removed at both ends. *)
Definition strip (s : string) : string :=
  str (rev (dropwhile isspace (rev (dropwhile isspace (chars s))))).

(** [s.lower()] *)
Definition lower (s : string) : string := str (map lower_char (chars s)).

(** [s.split()]: maximal runs of characters that are not white space.
    [cur] holds the current run, reversed. *)
Fixpoint split_aux (cur : list ascii) (l : list ascii) : list string :=
  match l with
  | [] => match cur with [] => [] | _ => [str (rev cur)] end
  | c :: t =>
      if isspace c
      then match cur with
           | [] => split_aux [] t
           | _ => str (rev cur) :: split_aux [] t
           end
      else split_aux (c :: cur) t
  end.

Definition split (s : string) : list string := split_aux [] (chars s).

(** [sep.join(parts)] *)
Fixpoint join (sep : string) (parts : list string) : string :=
  match parts with
  | [] => EmptyString
  | [p] => p
  | p :: rest => p ++ sep ++ join sep rest
  end.

(** [s.replace(a, b)] for single characters. *)
Definition replace_char (a b : ascii) (s : string) : string :=
  str (map (fun c => if Ascii.eqb c a then b else c) (chars s)).

(** [s.title()]: a cased character is capitalised when the character
    before it is not cased, and lower-cased otherwise. *)
Fixpoint title_aux (prev_cased : bool) (l : list ascii) : list ascii :=
  match l with
  | [] => []
  | c :: t =>
      let cased := isupper c || islower c in
      (if cased then (if prev_cased then lower_char c else upper_char c) else c)
        :: title_aux cased t
  end.

Definition title (s : string) : string := str (title_aux false (chars s)).

(** [c in s] for a character. *)
Definition char_in (c : ascii) (s : string) : bool :=
  existsb (Ascii.eqb c) (chars s).

(** *** Formatting *)

(** [str(n)] for a natural number. *)
Definition str_of_nat (n : nat) : string := NilZero.string_of_uint (Nat.to_uint n).

Fixpoint zeros (k : nat) (s : string) : string :=
  match k with
  | O => s
  | S k' => String "0" (zeros k' s)
  end.

(** [s.zfill(width)] for a string of digits. *)
Definition zfill (width : nat) (s : string) : string := zeros (width - len s) s.

(** Round a non-negative rational to the nearest integer, ties to even. *)
Definition round_half_even (q : Q) : Z :=
  let f := Qfloor q in
  match ((q - inject_Z f) ?= (1 # 2))%Q with
  | Lt => f
  | Gt => (f + 1)%Z
  | Eq => if Z.even f then f else (f + 1)%Z
  end.

(** [f"{q:.<d>f}"]: fixed-point notation with [d] decimals. *)
Definition format_fixed (d : nat) (q : Q) : string :=
  let p := (10 ^ Z.of_nat d)%Z in
  let n := round_half_even (Qabs q * inject_Z p)%Q in
  let digits := str_of_nat (Z.to_nat (n / p)) in
  let frac := zfill d (str_of_nat (Z.to_nat (n mod p))) in
  (if Qlt_bool q 0%Q then "-" else EmptyString)
    ++ digits ++ (match d with O => EmptyString | _ => "." ++ frac end).

(** *** Sequences *)

(** [sorted(xs, key=key, reverse=True)]: stable, greatest key first. *)
Fixpoint insert_reverse {A : Type} (key : A -> Q) (x : A) (l : list A) : list A :=
  match l with
  | [] => [x]
  | y :: rest =>
      if Qlt_bool (key x) (key y)
      then y :: insert_reverse key x rest
      else x :: l
  end.

Definition sorted_reverse {A : Type} (key : A -> Q) (xs : list A) : list A :=
  fold_right (insert_reverse key) [] xs.

(** [enumerate(xs, start)] *)
Definition enumerate {A : Type} (xs : list A) (start : nat) : list (nat * A) :=
  combine (seq start (List.length xs)) xs.

(** [not s] is false for a non-empty string only. *)
Definition truthy_opt (s : option string) : bool :=
  match s with
  | Some s => truthy s
  | None => false
  end.

End Py.

Notation "x <- m ;; k" := (Py.bind m (fun x => k))
  (at level 61, m at next level, right associativity).

(* ================================================================= *)
(** ** [app/core/constants.py]                                        *)
(* ================================================================= *)

Module constants.

Definition METRIC_LANGUAGE_DETECTION := "language_detection".
Definition METRIC_LENGTH_RATIO := "length_ratio".
Definition METRIC_REPETITION := "repetition".
Definition METRIC_PRESERVATION := "preservation".
Definition METRIC_SEMANTIC_SIMILARITY := "semantic_similarity".
Definition METRIC_OVERALL := "overall_score".

Definition CATEGORY_HEURISTICS := "heuristics".
Definition CATEGORY_SEMANTIC := "semantic".

Definition LENGTH_RATIO_MIN : Q := 0.5%Q.
Definition LENGTH_RATIO_MAX : Q := 2.0%Q.

Definition MAX_NGRAM_SIZE : nat := 4.
Definition REPETITION_THRESHOLD : Q := 0.3%Q.

Definition EMBEDDING_MODEL_MULTILINGUAL :=
  "sentence-transformers/paraphrase-multilingual-MiniLM-L12-v2".

Definition WARN_LOW_CONFIDENCE := "Low confidence in language detection".
Definition WARN_LENGTH_ANOMALY := "Unusual length ratio detected".
Definition WARN_HIGH_REPETITION := "High repetition detected in translation".
Definition WARN_CONTENT_LOSS := "Potential content loss detected".
Definition WARN_FORMAT_DRIFT := "Format preservation issues detected".

End constants.

(* ================================================================= *)
(** ** [app/schemas/evaluation.py] and the metric result dictionaries *)
(* ================================================================= *)

(** Values stored under the metric-specific keys of a result dictionary. *)
Inductive detail : Type :=
| DNone
| DBool (b : bool)
| DInt (n : nat)
| DFloat (q : Q)
| DStr (s : string)
| DScores (d : list (string * Q))
| DProbs (l : list (string * Q)).

(** The dictionary a metric returns.  The two keys the fusion step reads
    are typed fields: [score] is [None] when the key is absent, [warning]
    is [None] when the key is absent or holds [None].  The remaining keys
    are kept, in order, in [details]. *)
Record MetricOutcome : Type := {
  score : option Q;
  warning : option string;
  details : list (string * detail)
}.

Record MetricResult : Type := {
  name : string;
  value : Q;
  weight : Q;
  mr_details : MetricOutcome
}.

Record ScoreBreakdown : Type := {
  overall_score : Q;
  metrics : list MetricResult;
  warnings : list string;
  explanation : string
}.

Record EvaluationResult : Type := {
  translation_id : Z;
  provider_name : string;
  model_id : string;
  score_breakdown : ScoreBreakdown
}.

(** [d.get(key)] on an association list. *)
Fixpoint dict_get {V : Type} (key : string) (d : list (string * V)) : option V :=
  match d with
  | [] => None
  | (k, v) :: rest => if String.eqb key k then Some v else dict_get key rest
  end.

(* ================================================================= *)
(** ** [app/core/config.py]                                           *)
(* ================================================================= *)

Module config.

(** The loaded YAML document, seen through [ConfigManager.get]: every
    dotted key that leads to a leaf, with the leaf's value, by type. *)
Record ConfigManager : Type := {
  floats : list (string * Q);
  bools : list (string * bool);
  strs : list (string * string)
}.

(** [self.get(key, default)] *)
Definition get_float (self : ConfigManager) (key : string) (default : Q) : Q :=
  match dict_get key (floats self) with Some v => v | None => default end.

Definition get_bool (self : ConfigManager) (key : string) (default : bool) : bool :=
  match dict_get key (bools self) with Some v => v | None => default end.

Definition get_str (self : ConfigManager) (key : string) (default : string) : string :=
  match dict_get key (strs self) with Some v => v | None => default end.

Definition get_metric_weight (self : ConfigManager) (category metric : string) : Q :=
  get_float self ("metrics." ++ category ++ "." ++ metric ++ ".weight") 0.0%Q.

Definition is_metric_enabled (self : ConfigManager) (category metric : string) : bool :=
  get_bool self ("metrics." ++ category ++ "." ++ metric ++ ".enabled") false.

End config.

(* ================================================================= *)
(** ** [app/evaluation/heuristics/length_ratio.py]                    *)
(* ================================================================= *)

Module LengthRatioMetric.
Import Py constants.

Record t : Type := {
  min_ratio : Q;
  max_ratio : Q
}.

(** [LengthRatioMetric()] with the default arguments. *)
Definition default : t :=
  {| min_ratio := LENGTH_RATIO_MIN; max_ratio := LENGTH_RATIO_MAX |}.

Definition outcome (score ratio : Q) (source_len target_len : nat)
           (warning : option string) : MetricOutcome :=
  {| score := Some score;
     warning := warning;
     details := [("ratio", DFloat ratio);
                 ("source_length", DInt source_len);
                 ("target_length", DInt target_len)] |}.

(** The score of a ratio (lines 73-93 of the source). *)
Definition ratio_score (self : t) (ratio : Q) : result Q :=
  if Qle_bool (min_ratio self) ratio && Qle_bool ratio (max_ratio self)
  then
    score <- (if Qlt_bool ratio 1.0%Q
              then q <- truediv (ratio - min_ratio self)%Q (1.0 - min_ratio self)%Q ;;
                   Ok (q * 100.0)%Q
              else q <- truediv (max_ratio self - ratio)%Q (max_ratio self - 1.0)%Q ;;
                   Ok (q * 100.0)%Q) ;;
    Ok (max 50.0%Q score)
  else
    score <- (if Qlt_bool ratio (min_ratio self)
              then q <- truediv ratio (min_ratio self) ;;
                   Ok (q * 50.0)%Q
              else q <- truediv (max_ratio self) ratio ;;
                   Ok (q * 50.0)%Q) ;;
    Ok (max 0.0%Q (min 50.0%Q score)).

Definition ratio_warning (self : t) (ratio : Q) : option string :=
  if Qlt_bool ratio (min_ratio self)
  then Some (WARN_LENGTH_ANOMALY ++ ": translation too short (ratio: "
               ++ format_fixed 2 ratio ++ ")")
  else if Qlt_bool (max_ratio self) ratio
  then Some (WARN_LENGTH_ANOMALY ++ ": translation too long (ratio: "
               ++ format_fixed 2 ratio ++ ")")
  else None.

Definition evaluate (self : t) (source_text target_text : string)
  : result MetricOutcome :=
  let source_len := len source_text in
  let target_len := len target_text in
  if source_len =? 0
  then Ok (outcome 0.0%Q 0.0%Q 0 target_len (Some "Empty source text"))
  else if target_len =? 0
  then Ok (outcome 0.0%Q 0.0%Q source_len 0 (Some "Empty translation"))
  else
    ratio <- truediv (float_of_nat target_len) (float_of_nat source_len) ;;
    score <- ratio_score self ratio ;;
    let warning := ratio_warning self ratio in
    Ok (outcome score ratio source_len target_len warning).

End LengthRatioMetric.

(* ================================================================= *)
(** ** [app/evaluation/heuristics/repetition.py]                      *)
(* ================================================================= *)

Module RepetitionMetric.
Import Py constants.

Record t : Type := {
  max_ngram_size : nat;
  threshold : Q
}.

Definition default : t :=
  {| max_ngram_size := MAX_NGRAM_SIZE; threshold := REPETITION_THRESHOLD |}.

(** An n-gram is a tuple of words. *)
Definition ngram : Type := list string.

Definition ngram_eq_dec : forall x y : ngram, {x = y} + {x <> y} :=
  list_eq_dec string_dec.

Definition _get_ngrams (text : string) (n : nat) : list ngram :=
  let words := split (lower text) in
  if List.length words <? n
  then []
  else map (fun i => firstn n (skipn i words)) (seq 0 (List.length words - n + 1)).

(** [Counter(ngrams)]: the distinct n-grams in order of first occurrence,
    each with its number of occurrences. *)
Fixpoint counter_add (x : ngram) (c : list (ngram * nat)) : list (ngram * nat) :=
  match c with
  | [] => [(x, 1)]
  | (y, k) :: rest =>
      if ngram_eq_dec x y then (y, S k) :: rest else (y, k) :: counter_add x rest
  end.

Definition Counter (ngrams : list ngram) : list (ngram * nat) :=
  fold_left (fun c x => counter_add x c) ngrams [].

(** [max(values)] of a sequence of integers; raises on an empty one. *)
Definition max_values (values : list nat) : result nat :=
  match values with
  | [] => Raise (ValueError "max() arg is an empty sequence")
  | v :: rest => Ok (fold_left Nat.max rest v)
  end.

Definition _calculate_repetition_score (ngrams : list ngram) : result Q :=
  match ngrams with
  | [] => Ok 0.0%Q
  | _ =>
      let ngram_counts := Counter ngrams in
      let total_ngrams := List.length ngrams in
      let unique_ngrams := List.length ngram_counts in
      if total_ngrams =? 0
      then Ok 0.0%Q
      else
        q <- truediv (float_of_nat unique_ngrams) (float_of_nat total_ngrams) ;;
        let repetition := (1.0 - q)%Q in
        max_count <- max_values (map snd ngram_counts) ;;
        if 1 <? max_count
        then
          f <- truediv (float_of_nat max_count) (float_of_nat total_ngrams) ;;
          let frequency_factor := min f 1.0%Q in
          Ok (max repetition frequency_factor)
        else Ok repetition
  end.

(** [not target_text or not target_text.strip()] *)
Definition blank (text : string) : bool :=
  negb (truthy text) || negb (truthy (strip text)).

(** One turn of the loop over n-gram sizes; the state is
    [(repetition_scores, max_repetition)]. *)
Definition size_step (target_text : string) (st : list (string * Q) * Q) (n : nat)
  : result (list (string * Q) * Q) :=
  let '(repetition_scores, max_repetition) := st in
  match _get_ngrams target_text n with
  | [] => Ok st
  | ngrams =>
      rep_score <- _calculate_repetition_score ngrams ;;
      let key := str_of_nat n ++ "-gram" in
      Ok (app repetition_scores [(key, rep_score)], max max_repetition rep_score)
  end.

Fixpoint size_loop (target_text : string) (st : list (string * Q) * Q) (sizes : list nat)
  : result (list (string * Q) * Q) :=
  match sizes with
  | [] => Ok st
  | n :: rest => st' <- size_step target_text st n ;; size_loop target_text st' rest
  end.

(** [range(2, max_ngram_size + 1)] *)
Definition sizes (self : t) : list nat := seq 2 (max_ngram_size self + 1 - 2).

Definition evaluate (self : t) (source_text target_text : string)
  : result MetricOutcome :=
  if blank target_text
  then Ok {| score := Some 0.0%Q;
             warning := Some "Empty translation";
             details := [("repetition_score", DFloat 0.0%Q)] |}
  else
    st <- size_loop target_text ([], 0.0%Q) (sizes self) ;;
    let '(repetition_scores, max_repetition) := st in
    let score := ((1.0 - max_repetition) * 100.0)%Q in
    let warning :=
      if Qlt_bool (threshold self) max_repetition
      then Some (WARN_HIGH_REPETITION ++ " (score: "
                   ++ format_fixed 2 max_repetition ++ ")")
      else None in
    Ok {| score := Some score;
          warning := warning;
          details := [("repetition_score", DFloat max_repetition);
                      ("ngram_scores", DScores repetition_scores)] |}.

End RepetitionMetric.

(* ================================================================= *)
(** ** The fragment of [re] used by the preservation metric           *)
(* ================================================================= *)

Module re.
Import Py.

(** Patterns: a character class, the word boundary [\b], sequence,
    greedy option and greedy repetition (one or more) of a class. *)
Inductive regex : Type :=
| Cls (p : ascii -> bool)
| Boundary
| Seq (r1 r2 : regex)
| Opt (r : regex)
| Plus (p : ascii -> bool).

(** A continuation receives the character before the current position
    and the text that remains, and answers with the text that remains
    after the whole match. *)
Definition cont : Type := option ascii -> list ascii -> option (list ascii).

Definition word_at (c : option ascii) : bool :=
  match c with Some c => isword c | None => false end.

(** Zero or more characters of the class, longest first. *)
Fixpoint star (p : ascii -> bool) (prev : option ascii) (s : list ascii) (k : cont)
  : option (list ascii) :=
  match s with
  | c :: s' =>
      if p c
      then match star p (Some c) s' k with
           | Some r => Some r
           | None => k prev s
           end
      else k prev s
  | [] => k prev s
  end.

(** Backtracking matcher. *)
Fixpoint run (r : regex) (prev : option ascii) (s : list ascii) (k : cont)
  : option (list ascii) :=
  match r with
  | Cls p =>
      match s with
      | c :: s' => if p c then k (Some c) s' else None
      | [] => None
      end
  | Boundary =>
      if xorb (word_at prev) (word_at (hd_error s)) then k prev s else None
  | Seq r1 r2 => run r1 prev s (fun prev' s' => run r2 prev' s' k)
  | Opt r1 =>
      match run r1 prev s k with
      | Some r => Some r
      | None => k prev s
      end
  | Plus p =>
      match s with
      | c :: s' => if p c then star p (Some c) s' k else None
      | [] => None
      end
  end.

(** The text matched at the current position, if any. *)
Definition match_here (r : regex) (prev : option ascii) (s : list ascii)
  : option (list ascii) :=
  match run r prev s (fun _ rest => Some rest) with
  | Some rest => Some (firstn (List.length s - List.length rest) s)
  | None => None
  end.

(** [re.findall]: leftmost matches that do not overlap.  [skip] counts
    the characters still covered by the last match. *)
Fixpoint findall_from (r : regex) (prev : option ascii) (s : list ascii) (skip : nat)
  : list string :=
  match s with
  | [] =>
      match skip, match_here r prev [] with
      | O, Some m => [str m]
      | _, _ => []
      end
  | c :: s' =>
      match skip with
      | S k => findall_from r (Some c) s' k
      | O =>
          match match_here r prev s with
          | Some m => str m :: findall_from r (Some c) s' (List.length m - 1)
          | None => findall_from r (Some c) s' 0
          end
      end
  end.

Definition findall (r : regex) (text : string) : list string :=
  findall_from r None (chars text) 0.

End re.

(* ================================================================= *)
(** ** [app/evaluation/heuristics/preservation.py]                    *)
(* ================================================================= *)

Module PreservationMetric.
Import Py constants.

Record t : Type := {
  check_numbers : bool;
  check_punctuation : bool;
  check_entities : bool
}.

Definition default : t :=
  {| check_numbers := true; check_punctuation := true; check_entities := true |}.

Definition one_of (s : string) (c : ascii) : bool := char_in c s.

(** The pattern [\b\d+(?:[.,]\d+)?%?\b]. *)
Definition pattern : re.regex :=
  re.Seq re.Boundary
    (re.Seq (re.Plus isdecimal)
       (re.Seq (re.Opt (re.Seq (re.Cls (one_of ".,")) (re.Plus isdecimal)))
          (re.Seq (re.Opt (re.Cls (one_of "%"))) re.Boundary))).

Definition _extract_numbers (text : string) : list string :=
  re.findall pattern text.

Definition _extract_punctuation_pattern (text : string) : string :=
  str (filter (fun c => char_in c punctuation) (chars text)).

Definition _extract_capitalized_words (text : string) : list string :=
  filter (fun w => match w with
                   | EmptyString => false
                   | String c _ => isupper c
                   end) (split text).

(** [set(items)], and [a & b] on such sets. *)
Definition set (items : list string) : list string := nodup string_dec items.

Definition inter (a b : list string) : list string :=
  filter (fun x => if in_dec string_dec x b then true else false) a.

Definition _calculate_preservation_score (source_items target_items : list string)
  : result Q :=
  match source_items with
  | [] => Ok 100.0%Q
  | _ =>
      let source_set := set source_items in
      let target_set := set target_items in
      let preserved := List.length (inter source_set target_set) in
      let total := List.length source_set in
      if 0 <? total
      then q <- truediv (float_of_nat preserved) (float_of_nat total) ;;
           Ok (q * 100.0)%Q
      else Ok 100.0%Q
  end.

(** The state of [evaluate]: the [scores] dictionary and the [warnings]
    list. *)
Definition state : Type := (list (string * Q) * list string)%type.

Definition numbers_warning (missing : nat) : string :=
  WARN_CONTENT_LOSS ++ ": " ++ str_of_nat missing ++ " number(s) not preserved".

Definition punctuation_warning : string :=
  WARN_FORMAT_DRIFT ++ ": punctuation pattern differs".

Definition entities_warning : string :=
  WARN_CONTENT_LOSS ++ ": some capitalized words not preserved".

Definition numbers_check (source_text target_text : string) (st : state)
  : result state :=
  let '(scores, warnings) := st in
  let source_numbers := _extract_numbers source_text in
  let target_numbers := _extract_numbers target_text in
  number_score <- _calculate_preservation_score source_numbers target_numbers ;;
  let scores := app scores [("numbers", number_score)] in
  if Qlt_bool number_score 100.0%Q
  then
    let missing := List.length source_numbers
                   - List.length (inter (set source_numbers) (set target_numbers)) in
    Ok (scores, app warnings [numbers_warning missing])
  else Ok (scores, warnings).

Definition punctuation_check (source_text target_text : string) (st : state)
  : result state :=
  let '(scores, warnings) := st in
  let source_punct := _extract_punctuation_pattern source_text in
  let target_punct := _extract_punctuation_pattern target_text in
  punct_score <-
    (if truthy source_punct
     then
       let matches := List.length (filter (fun c => char_in c target_punct)
                                          (chars source_punct)) in
       q <- truediv (float_of_nat matches) (float_of_nat (len source_punct)) ;;
       Ok (q * 100.0)%Q
     else Ok 100.0%Q) ;;
  let scores := app scores [("punctuation", punct_score)] in
  if Qlt_bool punct_score 80.0%Q
  then Ok (scores, app warnings [punctuation_warning])
  else Ok (scores, warnings).

Definition entities_check (source_text target_text : string) (st : state)
  : result state :=
  let '(scores, warnings) := st in
  let source_entities := _extract_capitalized_words source_text in
  let target_entities := _extract_capitalized_words target_text in
  entity_score <- _calculate_preservation_score source_entities target_entities ;;
  let scores := app scores [("entities", entity_score)] in
  if Qlt_bool entity_score 80.0%Q
  then Ok (scores, app warnings [entities_warning])
  else Ok (scores, warnings).

(** The three gated checks, in order. *)
Definition checks (self : t) (source_text target_text : string) : result state :=
  st <- (if check_numbers self
         then numbers_check source_text target_text ([], [])
         else Ok ([], [])) ;;
  st <- (if check_punctuation self
         then punctuation_check source_text target_text st
         else Ok st) ;;
  (if check_entities self
   then entities_check source_text target_text st
   else Ok st).

Definition blank (text : string) : bool :=
  negb (truthy text) || negb (truthy (strip text)).

Definition evaluate (self : t) (source_text target_text : string)
  : result MetricOutcome :=
  if blank target_text
  then Ok {| score := Some 0.0%Q;
             warning := Some "Empty translation";
             details := [] |}
  else
    st <- checks self source_text target_text ;;
    let '(scores, warnings) := st in
    overall_score <-
      (match scores with
       | [] => Ok 100.0%Q
       | _ => truediv (sum (map snd scores)) (float_of_nat (List.length scores))
       end) ;;
    Ok {| score := Some overall_score;
          warning := match warnings with
                     | [] => None
                     | _ => Some (join "; " warnings)
                     end;
          details := [("component_scores", DScores scores)] |}.

End PreservationMetric.

(* ================================================================= *)
(** ** [app/evaluation/heuristics/language_detection.py]              *)
(* ================================================================= *)

Module LanguageDetectionMetric.
Import Py constants.

Record t : Type := {
  confidence_threshold : Q
}.

Definition default : t := {| confidence_threshold := 0.8%Q |}.

(** The ranked answer of the detector: [(lang, prob)] pairs. *)
Definition lang_probs : Type := list (string * Q).

Definition blank (text : string) : bool :=
  negb (truthy text) || negb (truthy (strip text)).

Section Detector.

(** [langdetect.detect_langs]: an external detector. *)
Variable detect_langs : string -> result lang_probs.

Definition evaluate (self : t) (source_text target_text target_lang : string)
  : result MetricOutcome :=
  if blank target_text
  then Ok {| score := Some 0.0%Q;
             warning := Some "Empty translation";
             details := [("detected_lang", DNone);
                         ("confidence", DFloat 0.0%Q);
                         ("matches_target", DBool false)] |}
  else
    match detect_langs target_text with
    | Ok [] =>
        Ok {| score := Some 0.0%Q;
              warning := Some "Could not detect language";
              details := [("detected_lang", DNone);
                          ("confidence", DFloat 0.0%Q);
                          ("matches_target", DBool false)] |}
    | Ok (((detected_lang, confidence) :: _) as probs) =>
        let matches_target := String.eqb detected_lang target_lang in
        let score :=
          if matches_target
          then if Qle_bool (confidence_threshold self) confidence
               then 100.0%Q
               else (confidence * 100.0)%Q
          else 0.0%Q in
        let warning :=
          if negb matches_target
          then Some ("Language mismatch: expected '" ++ target_lang
                       ++ "', detected '" ++ detected_lang ++ "'")
          else if Qlt_bool confidence (confidence_threshold self)
          then Some WARN_LOW_CONFIDENCE
          else None in
        Ok {| score := Some score;
              warning := warning;
              details := [("detected_lang", DStr detected_lang);
                          ("confidence", DFloat confidence);
                          ("matches_target", DBool matches_target);
                          ("all_probabilities", DProbs probs)] |}
    | Raise (LangDetectException msg) =>
        Ok {| score := Some 50.0%Q;
              warning := Some ("Language detection error: " ++ msg);
              details := [("detected_lang", DNone);
                          ("confidence", DFloat 0.0%Q);
                          ("matches_target", DNone)] |}
    | Raise e => Raise e
    end.

End Detector.

End LanguageDetectionMetric.

(* ================================================================= *)
(** ** [app/evaluation/semantic/embedding_similarity.py]              *)
(* ================================================================= *)

Module SemanticSimilarityMetric.
Import Py constants.

Record t : Type := {
  model_name : string
}.

Definition default : t := {| model_name := EMBEDDING_MODEL_MULTILINGUAL |}.

Definition vector : Type := list Q.

(** [np.dot] on two vectors; the shapes have to agree. *)
Fixpoint dot (vec1 vec2 : vector) : result Q :=
  match vec1, vec2 with
  | [], [] => Ok 0%Q
  | a :: v1, b :: v2 => d <- dot v1 v2 ;; Ok (a * b + d)%Q
  | _, _ => Raise (ValueError "shapes not aligned")
  end.

Section Model.

(** [self.model.encode([source_text, target_text])] for the model
    named [model_name]: the two embeddings, or the failure of the
    embedding backend. *)
Variable encode : string -> string -> string -> result (vector * vector).

(** [np.linalg.norm]: the Euclidean norm has no rational model, so it
    is a parameter of the embedding. *)
Variable norm : vector -> Q.

Definition _cosine_similarity (vec1 vec2 : vector) : result Q :=
  dot_product <- dot vec1 vec2 ;;
  let norm1 := norm vec1 in
  let norm2 := norm vec2 in
  if Qeq_bool norm1 0%Q || Qeq_bool norm2 0%Q
  then Ok 0.0%Q
  else truediv dot_product (norm1 * norm2)%Q.

(** The body of the [try] block. *)
Definition similarity_of (self : t) (source_text target_text : string) : result Q :=
  embeddings <- encode (model_name self) source_text target_text ;;
  let '(source_embedding, target_embedding) := embeddings in
  _cosine_similarity source_embedding target_embedding.

Definition evaluate (self : t) (source_text target_text : string) : MetricOutcome :=
  if negb (truthy source_text) || negb (truthy target_text)
  then {| score := Some 0.0%Q;
          warning := Some "Empty text";
          details := [("similarity", DFloat 0.0%Q)] |}
  else
    match similarity_of self source_text target_text with
    | Ok similarity =>
        let score := (max 0.0%Q similarity * 100.0)%Q in
        {| score := Some score;
           warning := None;
           details := [("similarity", DFloat similarity);
                       ("model", DStr (model_name self))] |}
    | Raise e =>
        {| score := Some 0.0%Q;
           warning := Some ("Similarity calculation error: " ++ str_of_exn e);
           details := [("similarity", DFloat 0.0%Q)] |}
    end.

End Model.

End SemanticSimilarityMetric.

(* ================================================================= *)
(** ** [app/evaluation/scorer.py]                                     *)
(* ================================================================= *)

Module ScoreFusion.
Import Py constants.

Record t : Type := {
  config : config.ConfigManager
}.

Definition metric_config_map : list (string * (string * string)) :=
  [("language_detection", (CATEGORY_HEURISTICS, "language_detection"));
   ("length_ratio", (CATEGORY_HEURISTICS, "length_ratio"));
   ("repetition", (CATEGORY_HEURISTICS, "repetition"));
   ("preservation", (CATEGORY_HEURISTICS, "preservation"));
   ("semantic_similarity", (CATEGORY_SEMANTIC, EmptyString))].

Definition _get_metric_weight (self : t) (metric_name : string) : Q :=
  match dict_get metric_name metric_config_map with
  | Some (category, metric) =>
      if truthy metric
      then config.get_metric_weight (config self) category metric
      else config.get_float (config self) ("metrics." ++ category ++ ".weight") 0.0%Q
  | None => 0.0%Q
  end.

(** [sorted(metrics, key=..., reverse=True)]: stable, greatest key first. *)
Fixpoint insert_desc (key : MetricResult -> Q) (m : MetricResult) (l : list MetricResult)
  : list MetricResult :=
  match l with
  | [] => [m]
  | x :: rest =>
      if Qlt_bool (key m) (key x)
      then x :: insert_desc key m rest
      else m :: l
  end.

Definition sorted_desc (key : MetricResult -> Q) (l : list MetricResult)
  : list MetricResult :=
  fold_right (insert_desc key) [] l.

Definition _generate_explanation (metrics : list MetricResult) (overall_score : Q)
  : string :=
  let quality :=
    if Qle_bool 90%Q overall_score then "Excellent"
    else if Qle_bool 75%Q overall_score then "Good"
    else if Qle_bool 60%Q overall_score then "Fair"
    else "Poor" in
  let sorted_metrics := sorted_desc (fun m => (value m * weight m)%Q) metrics in
  let top_metrics := firstn 3 sorted_metrics in
  let top_names := map (fun m => title (replace_char "_" " " (name m))) top_metrics in
  quality ++ " translation quality (score: " ++ format_fixed 1 overall_score ++ "/100). "
    ++ "Top factors: " ++ join ", " top_names ++ ".".

(** The three lists the loop of [fuse_scores] appends to. *)
Record acc : Type := {
  weighted_scores : list Q;
  metric_list : list MetricResult;
  acc_warnings : list string
}.

Definition fuse_step (self : t) (a : acc) (item : string * MetricOutcome) : acc :=
  let '(metric_name, result) := item in
  if String.eqb metric_name METRIC_OVERALL
  then a
  else
    let score := match score result with Some s => s | None => 0.0%Q end in
    let warning := warning result in
    let weight := _get_metric_weight self metric_name in
    if Qlt_bool 0%Q weight
    then
      {| weighted_scores := app (weighted_scores a) [(score * weight)%Q];
         metric_list := app (metric_list a)
                          [{| name := metric_name; value := score;
                              weight := weight; mr_details := result |}];
         acc_warnings :=
           match warning with
           | Some w => if truthy w
                       then app (acc_warnings a) [metric_name ++ ": " ++ w]
                       else acc_warnings a
           | None => acc_warnings a
           end |}
    else a.

Definition fuse_scores (self : t) (metric_results : list (string * MetricOutcome))
  : ScoreBreakdown :=
  let a := fold_left (fuse_step self) metric_results
             {| weighted_scores := []; metric_list := []; acc_warnings := [] |} in
  let overall_score :=
    match weighted_scores a with
    | [] => 0.0%Q
    | _ =>
        let total_weight := sum (map weight (metric_list a)) in
        if Qlt_bool 0%Q total_weight
        then (sum (weighted_scores a) / total_weight)%Q
        else 0.0%Q
    end in
  let explanation := _generate_explanation (metric_list a) overall_score in
  {| overall_score := overall_score;
     metrics := metric_list a;
     warnings := acc_warnings a;
     explanation := explanation |}.

End ScoreFusion.

(* ================================================================= *)
(** ** The arithmetic of [fuse_scores] on binary64 numbers            *)
(* ================================================================= *)

Module binary64.
Import Py constants.

(** [float(z)] for an integer below [2^63] in absolute value. *)
Definition of_Z (z : Z) : float :=
  if (z <? 0)%Z
  then PrimFloat.opp (PrimFloat.of_uint63 (Uint63.of_Z (- z)))
  else PrimFloat.of_uint63 (Uint63.of_Z z).

(** The double a decimal literal [n/d] denotes: the correctly rounded
    quotient of two integers that are doubles themselves (below [2^53]). *)
Definition of_Q (q : Q) : float :=
  PrimFloat.div (of_Z (Qnum q)) (of_Z (Zpos (Qden q))).

(** [sum(xs)]: the additions from left to right, starting from 0. *)
Definition sum (xs : list float) : float := fold_left PrimFloat.add xs 0%float.

(** The lists of the loop of [fuse_scores] that enter the overall score. *)
Record acc : Type := {
  weighted_scores : list float;
  weights : list float
}.

Definition fuse_step (self : ScoreFusion.t) (a : acc) (item : string * float) : acc :=
  let '(metric_name, score) := item in
  if String.eqb metric_name METRIC_OVERALL
  then a
  else
    let weight := of_Q (ScoreFusion._get_metric_weight self metric_name) in
    if PrimFloat.ltb 0%float weight
    then {| weighted_scores := app (weighted_scores a) [PrimFloat.mul score weight];
            weights := app (weights a) [weight] |}
    else a.

(** The overall score of [fuse_scores] for a mapping from metric names
    to scores. *)
Definition overall_score (self : ScoreFusion.t) (metric_results : list (string * float))
  : float :=
  let a := fold_left (fuse_step self) metric_results
             {| weighted_scores := []; weights := [] |} in
  match weighted_scores a with
  | [] => 0%float
  | _ =>
      let total_weight := sum (weights a) in
      if PrimFloat.ltb 0%float total_weight
      then PrimFloat.div (sum (weighted_scores a)) total_weight
      else 0%float
  end.

End binary64.

(* ================================================================= *)
(** ** [app/evaluation/evaluator.py]                                  *)
(* ================================================================= *)

(** [d[key] = v] on an association list: the value is replaced in place
    when the key is present and appended otherwise. *)
Fixpoint dict_set {V : Type} (key : string) (v : V) (d : list (string * V))
  : list (string * V) :=
  match d with
  | [] => [(key, v)]
  | (k, x) :: rest =>
      if String.eqb key k then (k, v) :: rest else (k, x) :: dict_set key v rest
  end.

Module Evaluator.
Import Py constants.

Record t : Type := {
  config : config.ConfigManager;
  language_detection : LanguageDetectionMetric.t;
  length_ratio : LengthRatioMetric.t;
  repetition : RepetitionMetric.t;
  preservation : PreservationMetric.t;
  semantic_similarity : option SemanticSimilarityMetric.t;
  scorer : ScoreFusion.t
}.

(** [Evaluator()] for a loaded configuration. *)
Definition init (cfg : config.ConfigManager) : t :=
  {| config := cfg;
     language_detection := LanguageDetectionMetric.default;
     length_ratio :=
       {| LengthRatioMetric.min_ratio :=
            config.get_float cfg "metrics.heuristics.length_ratio.min_ratio" 0.5%Q;
          LengthRatioMetric.max_ratio :=
            config.get_float cfg "metrics.heuristics.length_ratio.max_ratio" 2.0%Q |};
     repetition := RepetitionMetric.default;
     preservation :=
       {| PreservationMetric.check_numbers :=
            config.get_bool cfg "metrics.heuristics.preservation.check_numbers" true;
          PreservationMetric.check_punctuation :=
            config.get_bool cfg "metrics.heuristics.preservation.check_punctuation" true;
          PreservationMetric.check_entities :=
            config.get_bool cfg "metrics.heuristics.preservation.check_entities" true |};
     semantic_similarity :=
       if config.is_metric_enabled cfg "semantic" EmptyString
       then Some {| SemanticSimilarityMetric.model_name :=
                      config.get_str cfg "metrics.semantic.model"
                        "sentence-transformers/paraphrase-multilingual-MiniLM-L12-v2" |}
       else None;
     scorer := {| ScoreFusion.config := cfg |} |}.

Section Backends.

Variable detect_langs : string -> result LanguageDetectionMetric.lang_probs.
Variable encode : string -> string -> string
                  -> result (SemanticSimilarityMetric.vector * SemanticSimilarityMetric.vector).
Variable norm : SemanticSimilarityMetric.vector -> Q.

(** The mapping from metric name to outcome that the orchestrator
    collects; an exception raised by a metric is not caught here. *)
Definition run_metrics (self : t) (source_text target_text target_lang : string)
  : result (list (string * MetricOutcome)) :=
  let metric_results := [] in
  metric_results <-
    (if config.is_metric_enabled (config self) "heuristics" "language_detection"
     then r <- LanguageDetectionMetric.evaluate detect_langs (language_detection self)
                 source_text target_text target_lang ;;
          Ok (dict_set "language_detection" r metric_results)
     else Ok metric_results) ;;
  metric_results <-
    (if config.is_metric_enabled (config self) "heuristics" "length_ratio"
     then r <- LengthRatioMetric.evaluate (length_ratio self) source_text target_text ;;
          Ok (dict_set "length_ratio" r metric_results)
     else Ok metric_results) ;;
  metric_results <-
    (if config.is_metric_enabled (config self) "heuristics" "repetition"
     then r <- RepetitionMetric.evaluate (repetition self) source_text target_text ;;
          Ok (dict_set "repetition" r metric_results)
     else Ok metric_results) ;;
  metric_results <-
    (if config.is_metric_enabled (config self) "heuristics" "preservation"
     then r <- PreservationMetric.evaluate (preservation self) source_text target_text ;;
          Ok (dict_set "preservation" r metric_results)
     else Ok metric_results) ;;
  match semantic_similarity self with
  | Some metric =>
      Ok (dict_set "semantic_similarity"
            (SemanticSimilarityMetric.evaluate encode norm metric source_text target_text)
            metric_results)
  | None => Ok metric_results
  end.

Definition evaluate_translation (self : t) (translation_id : Z)
           (provider_name model_id source_text target_text target_lang : string)
           (source_lang reference_translation : option string)
  : result EvaluationResult :=
  metric_results <- run_metrics self source_text target_text target_lang ;;
  let score_breakdown := ScoreFusion.fuse_scores (scorer self) metric_results in
  Ok {| translation_id := translation_id;
        provider_name := provider_name;
        model_id := model_id;
        score_breakdown := score_breakdown |}.

End Backends.

End Evaluator.

(* ================================================================= *)
(** ** [app/db/models.py]                                             *)
(* ================================================================= *)

Module models.

(** The dictionaries that the routes store in the JSON column [details]
    of an evaluation row: the dictionary a metric returned, or the
    explanation and the warnings of a breakdown. *)
Inductive details_dict : Type :=
| metric_details (result : MetricOutcome)
| overall_details (explanation : string) (warnings : list string).

(** [details.get("explanation")] and [details.get("warnings", [])]; the
    dictionary of a metric has neither key. *)
Definition get_explanation (d : details_dict) : option string :=
  match d with
  | overall_details explanation _ => Some explanation
  | metric_details _ => None
  end.

Definition get_warnings (d : details_dict) : list string :=
  match d with
  | overall_details _ warnings => warnings
  | metric_details _ => []
  end.

Record Evaluation : Type := {
  metric_name : string;
  metric_value : Q;
  details : option details_dict
}.

(** A row of [translations] with the rows of [evaluations] that refer to
    it, in the order of their creation. *)
Record Translation : Type := {
  id : Z;
  provider : string;
  model : string;
  latency_ms : Q;
  output_text : string;
  usage_tokens : option Z;
  error : option string;
  evaluations : list Evaluation
}.

(** A row of [runs] with its translations. *)
Record Run : Type := {
  run_id : Z;
  source_lang : option string;
  target_lang : string;
  source_text : string;
  translations : list Translation
}.

End models.

(* ================================================================= *)
(** ** [app/schemas/provider.py] and [app/schemas/api.py]             *)
(* ================================================================= *)

Module provider.

(** [TranslationResult]; the raw response of the provider, which the
    routes only pass on, is left out. *)
Record TranslationResult : Type := {
  provider_name : string;
  model_id : string;
  output_text : string;
  latency_ms : Q;
  usage_tokens : option Z;
  error : option string
}.

End provider.

(** The models of [app/schemas/evaluation.py] as a response carries
    them: the details of a metric and the explanation are optional. *)
Module response.

Record MetricResult : Type := {
  name : string;
  value : Q;
  weight : Q;
  details : option models.details_dict
}.

Record ScoreBreakdown : Type := {
  overall_score : Q;
  metrics : list MetricResult;
  warnings : list string;
  explanation : option string
}.

Record EvaluationResult : Type := {
  translation_id : Z;
  provider_name : string;
  model_id : string;
  score_breakdown : ScoreBreakdown
}.

End response.

(** An [EvaluationResult] of the evaluator, in a response. *)
Definition response_of_metric (metric : MetricResult) : response.MetricResult :=
  {| response.name := name metric;
     response.value := value metric;
     response.weight := weight metric;
     response.details := Some (models.metric_details (mr_details metric)) |}.

Definition response_of_breakdown (b : ScoreBreakdown) : response.ScoreBreakdown :=
  {| response.overall_score := overall_score b;
     response.metrics := map response_of_metric (metrics b);
     response.warnings := warnings b;
     response.explanation := Some (explanation b) |}.

Definition response_of (r : EvaluationResult) : response.EvaluationResult :=
  {| response.translation_id := translation_id r;
     response.provider_name := provider_name r;
     response.model_id := model_id r;
     response.score_breakdown := response_of_breakdown (score_breakdown r) |}.

Module api.

(** [TranslationRequest], without the selection of the providers. *)
Record TranslationRequest : Type := {
  text : string;
  target_lang : string;
  source_lang : option string;
  reference_translation : option string
}.

Record TranslationWithEvaluation : Type := {
  translation : provider.TranslationResult;
  evaluation : response.EvaluationResult
}.

(** An entry of [RunSummary.rankings]. *)
Record ranking : Type := {
  rank : nat;
  provider : string;
  model : string;
  score : Q;
  latency_ms : Q
}.

Record RunSummary : Type := {
  total_providers : nat;
  rankings : list ranking;
  best_provider : option string;
  best_score : option Q
}.

(** [TranslationResponse], without the time of creation. *)
Record TranslationResponse : Type := {
  run_id : Z;
  source_text : string;
  response_target_lang : string;
  response_source_lang : option string;
  results : list TranslationWithEvaluation;
  summary : RunSummary
}.

End api.

(* ================================================================= *)
(** ** [app/api/routes/translation.py]                                *)
(* ================================================================= *)

Module translation.
Import Py.

(** The rows [run_translation] creates for an evaluated translation: one
    for each metric of the breakdown, then one for the overall score. *)
Definition evaluation_rows (score_breakdown : ScoreBreakdown) : list models.Evaluation :=
  app (map (fun metric =>
              {| models.metric_name := name metric;
                 models.metric_value := value metric;
                 models.details := Some (models.metric_details (mr_details metric)) |})
           (metrics score_breakdown))
      [{| models.metric_name := "overall_score";
          models.metric_value := overall_score score_breakdown;
          models.details :=
            Some (models.overall_details (explanation score_breakdown)
                                         (warnings score_breakdown)) |}].

(** The evaluation a failed translation is answered with. *)
Definition dummy_eval (translation_id : Z) (translation_result : provider.TranslationResult)
  : response.EvaluationResult :=
  {| response.translation_id := translation_id;
     response.provider_name := provider.provider_name translation_result;
     response.model_id := provider.model_id translation_result;
     response.score_breakdown :=
       {| response.overall_score := 0.0%Q;
          response.metrics := [];
          response.warnings :=
            [match provider.error translation_result with
             | Some e => if truthy e then e else "Translation failed"
             | None => "Translation failed"
             end];
          response.explanation := Some "Translation failed" |} |}.

(** [_generate_summary] *)
Definition _generate_summary (results : list api.TranslationWithEvaluation) : api.RunSummary :=
  let sorted_results :=
    sorted_reverse
      (fun r => response.overall_score (response.score_breakdown (api.evaluation r)))
      results in
  let rankings :=
    map (fun '(idx, result) =>
           {| api.rank := idx;
              api.provider := provider.provider_name (api.translation result);
              api.model := provider.model_id (api.translation result);
              api.score :=
                response.overall_score (response.score_breakdown (api.evaluation result));
              api.latency_ms := provider.latency_ms (api.translation result) |})
        (enumerate sorted_results 1) in
  {| api.total_providers := List.length results;
     api.rankings := rankings;
     api.best_provider :=
       match rankings with
       | first :: _ => Some (api.provider first)
       | [] => None
       end;
     api.best_score :=
       match rankings with
       | first :: _ => Some (api.score first)
       | [] => None
       end |}.

Section Backends.

Variable detect_langs : string -> result LanguageDetectionMetric.lang_probs.
Variable encode : string -> string -> string
                  -> result (SemanticSimilarityMetric.vector * SemanticSimilarityMetric.vector).
Variable norm : SemanticSimilarityMetric.vector -> Q.

(** The global evaluator of the module. *)
Variable evaluator : Evaluator.t.

(** The body of the loop of [run_translation] over the translation
    results: the row of the translation, whose key the database has set
    to [id], with its evaluation rows, and the entry of the response. *)
Definition store_translation (request : api.TranslationRequest) (id : Z)
           (translation_result : provider.TranslationResult)
  : result (models.Translation * api.TranslationWithEvaluation) :=
  let translation (evaluations : list models.Evaluation) :=
    {| models.id := id;
       models.provider := provider.provider_name translation_result;
       models.model := provider.model_id translation_result;
       models.latency_ms := provider.latency_ms translation_result;
       models.output_text := provider.output_text translation_result;
       models.usage_tokens := provider.usage_tokens translation_result;
       models.error := provider.error translation_result;
       models.evaluations := evaluations |} in
  if negb (truthy_opt (provider.error translation_result))
  then
    evaluation_result <-
      Evaluator.evaluate_translation detect_langs encode norm evaluator
        id
        (provider.provider_name translation_result)
        (provider.model_id translation_result)
        (api.text request)
        (provider.output_text translation_result)
        (api.target_lang request)
        (api.source_lang request)
        (api.reference_translation request) ;;
    Ok (translation (evaluation_rows (score_breakdown evaluation_result)),
        {| api.translation := translation_result;
           api.evaluation := response_of evaluation_result |})
  else
    Ok (translation [],
        {| api.translation := translation_result;
           api.evaluation := dummy_eval id translation_result |}).

(** The loop itself; the database numbers the translations from
    [next_id] on. *)
Fixpoint store_translations (request : api.TranslationRequest) (next_id : Z)
         (translation_results : list provider.TranslationResult)
  : result (list models.Translation * list api.TranslationWithEvaluation) :=
  match translation_results with
  | [] => Ok ([], [])
  | translation_result :: rest =>
      stored <- store_translation request next_id translation_result ;;
      others <- store_translations request (next_id + 1)%Z rest ;;
      Ok (fst stored :: fst others, snd stored :: snd others)
  end.

(** [run_translation], from the results of the providers on: the run as
    it is stored and the response. *)
Definition run_translation (request : api.TranslationRequest) (run_id next_id : Z)
           (translation_results : list provider.TranslationResult)
  : result (models.Run * api.TranslationResponse) :=
  stored <- store_translations request next_id translation_results ;;
  let '(translations, results_with_eval) := stored in
  Ok ({| models.run_id := run_id;
         models.source_lang := api.source_lang request;
         models.target_lang := api.target_lang request;
         models.source_text := api.text request;
         models.translations := translations |},
      {| api.run_id := run_id;
         api.source_text := api.text request;
         api.response_target_lang := api.target_lang request;
         api.response_source_lang := api.source_lang request;
         api.results := results_with_eval;
         api.summary := _generate_summary results_with_eval |}).

End Backends.

(** The four variables the loop of [get_run] over the evaluation rows of
    a translation updates. *)
Record state : Type := {
  metrics : list response.MetricResult;
  overall_score : Q;
  explanation : option string;
  warnings : list string
}.

Definition reconstruct_step (st : state) (evaluation : models.Evaluation) : state :=
  if String.eqb (models.metric_name evaluation) "overall_score"
  then
    match models.details evaluation with
    | Some details =>
        {| metrics := metrics st;
           overall_score := models.metric_value evaluation;
           explanation := models.get_explanation details;
           warnings := models.get_warnings details |}
    | None =>
        {| metrics := metrics st;
           overall_score := models.metric_value evaluation;
           explanation := explanation st;
           warnings := warnings st |}
    end
  else
    {| metrics :=
         app (metrics st)
             [{| response.name := models.metric_name evaluation;
                 response.value := models.metric_value evaluation;
                 response.weight := 0.0%Q;
                 response.details := models.details evaluation |}];
       overall_score := overall_score st;
       explanation := explanation st;
       warnings := warnings st |}.

(** The entry of the response [get_run] rebuilds from a stored
    translation. *)
Definition reconstruct (translation : models.Translation) : api.TranslationWithEvaluation :=
  let st :=
    fold_left reconstruct_step (models.evaluations translation)
      {| metrics := []; overall_score := 0.0%Q; explanation := None; warnings := [] |} in
  {| api.translation :=
       {| provider.provider_name := models.provider translation;
          provider.model_id := models.model translation;
          provider.output_text := models.output_text translation;
          provider.latency_ms := models.latency_ms translation;
          provider.usage_tokens := models.usage_tokens translation;
          provider.error := models.error translation |};
     api.evaluation :=
       {| response.translation_id := models.id translation;
          response.provider_name := models.provider translation;
          response.model_id := models.model translation;
          response.score_breakdown :=
            {| response.overall_score := overall_score st;
               response.metrics := metrics st;
               response.warnings := warnings st;
               response.explanation := explanation st |} |} |}.

(** [get_run] on a run that is found. *)
Definition get_run (run : models.Run) : api.TranslationResponse :=
  let results_with_eval := map reconstruct (models.translations run) in
  {| api.run_id := models.run_id run;
     api.source_text := models.source_text run;
     api.response_target_lang := models.target_lang run;
     api.response_source_lang := models.source_lang run;
     api.results := results_with_eval;
     api.summary := _generate_summary results_with_eval |}.

End translation.

(* ================================================================= *)
(** ** Notions used to state the properties                           *)
(* ================================================================= *)

(** A metric call that returns a dictionary whose score is [v]. *)
Definition scores_to (r : Py.result MetricOutcome) (v : Q) : Prop :=
  exists o s, r = Py.Ok o /\ score o = Some s /\ (s == v)%Q.

(** [len(target) / len(source)] *)
Definition length_ratio (source_text target_text : string) : Q :=
  (Py.float_of_nat (Py.len target_text) / Py.float_of_nat (Py.len source_text))%Q.

(** The sum of a list of numbers. *)
Definition Qsum (l : list Q) : Q := fold_right Qplus 0%Q l.

(** What the fusion step reads in a metric outcome: [result.get("score", 0.0)]. *)
Definition get_score (o : MetricOutcome) : Q :=
  match score o with Some s => s | None => 0%Q end.

(** The entries of a mapping whose resolved weight is positive, in order. *)
Definition kept (self : ScoreFusion.t) (m : list (string * MetricOutcome))
  : list (string * MetricOutcome) :=
  filter (fun item => Py.Qlt_bool 0%Q (ScoreFusion._get_metric_weight self (fst item))) m.

(** The [MetricResult] of an entry. *)
Definition as_metric_result (self : ScoreFusion.t) (item : string * MetricOutcome)
  : MetricResult :=
  {| name := fst item;
     value := match score (snd item) with Some s => s | None => 0.0%Q end;
     weight := ScoreFusion._get_metric_weight self (fst item);
     mr_details := snd item |}.

(** The warning an entry contributes: its non-empty warning, prefixed
    with the metric name. *)
Definition as_warning (item : string * MetricOutcome) : list string :=
  match warning (snd item) with
  | Some w => if Py.truthy w then [fst item ++ ": " ++ w] else []
  | None => []
  end.

(** The weighted mean of the scores of some entries. *)
Definition weighted_mean (self : ScoreFusion.t) (l : list (string * MetricOutcome)) : Q :=
  (Qsum (map (fun item => get_score (snd item)
                          * ScoreFusion._get_metric_weight self (fst item)) l)
   / Qsum (map (fun item => ScoreFusion._get_metric_weight self (fst item)) l))%Q.

(** What a metric of the breakdown adds to the weighted sum, and its
    name as the explanation prints it. *)
Definition contribution (r : MetricResult) : Q := (value r * weight r)%Q.

Definition factor_name (r : MetricResult) : string :=
  Py.title (Py.replace_char "_" " " (name r)).

(** The names of the five metrics as the explanation prints them. *)
Definition display_names : list (string * string) :=
  [("language_detection", "Language Detection");
   ("length_ratio", "Length Ratio");
   ("repetition", "Repetition");
   ("preservation", "Preservation");
   ("semantic_similarity", "Semantic Similarity")].

Definition display_name (r : MetricResult) : string :=
  match dict_get (name r) display_names with
  | Some printed => printed
  | None => name r
  end.

(** A configuration that gives weight 2 to [length_ratio], weight 1 to
    [repetition] and weight 0 to [preservation]. *)
Definition two_one_config : config.ConfigManager :=
  {| config.floats := [("metrics.heuristics.length_ratio.weight", 2%Q);
                       ("metrics.heuristics.repetition.weight", 1%Q);
                       ("metrics.heuristics.preservation.weight", 0%Q)];
     config.bools := [];
     config.strs := [] |}.

Definition two_one : ScoreFusion.t := {| ScoreFusion.config := two_one_config |}.

(** A bare metric outcome. *)
Definition outcome_of (s : Q) (w : option string) : MetricOutcome :=
  {| score := Some s; warning := w; details := [] |}.

(** A metric call that returns a dictionary whose score is [v] and whose
    warning is [w]. *)
Definition yields (r : Py.result MetricOutcome) (v : Q) (w : option string) : Prop :=
  exists o s, r = Py.Ok o /\ score o = Some s /\ (s == v)%Q /\ warning o = w.

(** A detector that answers every text with the same ranked list. *)
Definition constant_detector (probs : LanguageDetectionMetric.lang_probs)
  : string -> Py.result LanguageDetectionMetric.lang_probs :=
  fun _ => Py.Ok probs.

(** The number of distinct n-grams, and the greatest number of
    occurrences of one n-gram. *)
Definition distinct (l : list RepetitionMetric.ngram) : nat :=
  List.length (nodup RepetitionMetric.ngram_eq_dec l).

Definition max_frequency (l : list RepetitionMetric.ngram) : nat :=
  list_max (map (count_occ RepetitionMetric.ngram_eq_dec l) l).

(** The n-grams a counter holds, and the count it holds for an n-gram
    (0 when it is absent). *)
Definition keys (c : list (RepetitionMetric.ngram * nat)) : list RepetitionMetric.ngram :=
  map fst c.

Fixpoint cget (x : RepetitionMetric.ngram) (c : list (RepetitionMetric.ngram * nat)) : nat :=
  match c with
  | [] => 0
  | (y, k) :: rest => if RepetitionMetric.ngram_eq_dec x y then k else cget x rest
  end.

(** What the loop over the sizes keeps: the maximum of what it records. *)
Definition loop_invariant (st : list (string * Q) * Q) : Prop :=
  (0 <= snd st)%Q /\ (snd st <= 1)%Q
  /\ Forall (fun kv => (0 <= snd kv)%Q /\ (snd kv <= snd st)%Q) (fst st)
  /\ (fst st = [] -> (snd st == 0)%Q)
  /\ (fst st <> [] -> exists kv, In kv (fst st) /\ (snd kv == snd st)%Q).

(** [1 - unique / total] *)
Definition uniqueness_repetition (l : list RepetitionMetric.ngram) : Q :=
  (1 - Py.float_of_nat (distinct l) / Py.float_of_nat (List.length l))%Q.

(** [min(max_frequency / total, 1)] *)
Definition frequency_factor (l : list RepetitionMetric.ngram) : Q :=
  Qmin (Py.float_of_nat (max_frequency l) / Py.float_of_nat (List.length l)) 1%Q.

(** The texts a pattern describes, word boundaries aside. *)
Fixpoint lang (r : re.regex) (l : list ascii) : Prop :=
  match r with
  | re.Cls p => exists c, l = [c] /\ p c = true
  | re.Boundary => l = []
  | re.Seq r1 r2 => exists l1 l2, l = app l1 l2 /\ lang r1 l1 /\ lang r2 l2
  | re.Opt r1 => l = [] \/ lang r1 l
  | re.Plus p => l <> [] /\ Forall (fun c => p c = true) l
  end.

(** A non-empty run of decimal digits. *)
Definition digits (l : list ascii) : Prop :=
  l <> [] /\ Forall (fun c => Py.isdecimal c = true) l.

(** An integer or a decimal (with a point or a comma), with an optional
    percent sign at its end. *)
Definition number_token (tok : string) : Prop :=
  exists ds frac pct,
    Py.chars tok = app ds (app frac pct)
    /\ digits ds
    /\ (frac = [] \/ exists sep fs, frac = sep :: fs
                                   /\ (sep = "."%char \/ sep = ","%char) /\ digits fs)
    /\ (pct = [] \/ pct = ["%"%char]).

(** The number of distinct items of a list, and the number of distinct
    items of [src] that occur in [tgt]. *)
Definition card (items : list string) : nat :=
  List.length (nodup string_dec items).

Definition shared (src tgt : list string) : nat :=
  List.length (filter (fun x => existsb (String.eqb x) tgt) (nodup string_dec src)).

(** The distinct items of [src] that do not occur in [tgt]. *)
Definition missing (src tgt : list string) : list string :=
  filter (fun x => negb (existsb (String.eqb x) tgt)) (nodup string_dec src).

(** [|source_set & target_set| / |source_set| * 100], and 100 when the
    source has no item. *)
Definition preservation_ratio (src tgt : list string) : Q :=
  match src with
  | [] => 100%Q
  | _ => (Py.float_of_nat (shared src tgt) / Py.float_of_nat (card src) * 100)%Q
  end.

(** The punctuation characters of a text, counted, and those of them that
    occur in another text. *)
Definition punct_total (text : string) : nat :=
  List.length (filter (fun c => Py.char_in c Py.punctuation) (Py.chars text)).

Definition punct_kept (source_text target_text : string) : nat :=
  List.length (filter (fun c => Py.char_in c Py.punctuation && Py.char_in c target_text)
                      (Py.chars source_text)).

(** The fraction of the source's punctuation characters that occur in the
    target, as a percentage; 100 when the source has none. *)
Definition punctuation_ratio (source_text target_text : string) : Q :=
  match punct_total source_text with
  | O => 100%Q
  | _ => (Py.float_of_nat (punct_kept source_text target_text)
          / Py.float_of_nat (punct_total source_text) * 100)%Q
  end.

(** The entry of an enabled check, and the unweighted mean of the entries
    (100 when there is none). *)
Definition component (enabled : bool) (key : string) (v : Q) : list (string * Q) :=
  if enabled then [(key, v)] else [].

Definition warning_if (issued : bool) (w : string) : list string :=
  if issued then [w] else [].

Definition components_mean (l : list (string * Q)) : Q :=
  match l with
  | [] => 100%Q
  | _ => (Qsum (map snd l) / Py.float_of_nat (List.length l))%Q
  end.

(** The warning of an outcome built from a list of warnings: absent when
    the list is empty, the warnings joined with "; " otherwise. *)
Definition joined (ws : list string) : option string :=
  match ws with
  | [] => None
  | _ => Some (Py.join "; " ws)
  end.

(** A metric outcome whose score lies between 0 and 100. *)
Definition score_in_range (o : MetricOutcome) : Prop :=
  exists v, score o = Some v /\ (0 <= v)%Q /\ (v <= 100)%Q.

(** The squared Euclidean norm of a vector. *)
Definition sq_norm (v : SemanticSimilarityMetric.vector) : Q :=
  Qsum (map (fun x => x * x)%Q v).

(** A value for the norm of [v] that is not negative and not below the
    Euclidean norm. *)
Definition norm_covers (norm : SemanticSimilarityMetric.vector -> Q)
           (v : SemanticSimilarityMetric.vector) : Prop :=
  (0 <= norm v)%Q /\ (sq_norm v <= norm v * norm v)%Q.

(** A norm that is never below the Euclidean norm. *)
Definition upper_norm (v : SemanticSimilarityMetric.vector) : Q := (sq_norm v + 1)%Q.

(** The sum of the absolute values of the coordinates: the Euclidean
    norm of a vector with at most one coordinate different from 0. *)
Definition axis_norm (v : SemanticSimilarityMetric.vector) : Q :=
  Qsum (map Qabs v).

(** An embedding backend that answers every pair of texts with the same
    two vectors. *)
Definition constant_encode (v1 v2 : SemanticSimilarityMetric.vector)
  : string -> string -> string
    -> Py.result (SemanticSimilarityMetric.vector * SemanticSimilarityMetric.vector) :=
  fun _ _ _ => Py.Ok (v1, v2).

(** A configuration that enables the length-ratio metric only, with the
    upper end of its band at 1. *)
Definition unit_max_config : config.ConfigManager :=
  {| config.floats := [("metrics.heuristics.length_ratio.weight", 1%Q);
                       ("metrics.heuristics.length_ratio.min_ratio", 0.5%Q);
                       ("metrics.heuristics.length_ratio.max_ratio", 1.0%Q)];
     config.bools := [("metrics.heuristics.length_ratio.enabled", true)];
     config.strs := [] |}.

(** A configuration that enables the repetition metric only, with the
    weight 0.69. *)
Definition repetition_only_config : config.ConfigManager :=
  {| config.floats := [("metrics.heuristics.repetition.weight", 0.69%Q)];
     config.bools := [("metrics.heuristics.repetition.enabled", true)];
     config.strs := [] |}.

(** A configuration that enables the four heuristics with weight 1 and
    leaves every parameter at its default. *)
Definition heuristics_config : config.ConfigManager :=
  {| config.floats := [("metrics.heuristics.language_detection.weight", 1%Q);
                       ("metrics.heuristics.length_ratio.weight", 1%Q);
                       ("metrics.heuristics.repetition.weight", 1%Q);
                       ("metrics.heuristics.preservation.weight", 1%Q)];
     config.bools := [("metrics.heuristics.language_detection.enabled", true);
                      ("metrics.heuristics.length_ratio.enabled", true);
                      ("metrics.heuristics.repetition.enabled", true);
                      ("metrics.heuristics.preservation.enabled", true)];
     config.strs := [] |}.

(** The names of the metrics an evaluator runs, in the order in which it
    runs them. *)
Definition enabled_metrics (self : Evaluator.t) : list string :=
  app (filter (fun metric =>
                 config.is_metric_enabled (Evaluator.config self) "heuristics" metric)
              ["language_detection"; "length_ratio"; "repetition"; "preservation"])
      (match Evaluator.semantic_similarity self with
       | Some _ => ["semantic_similarity"]
       | None => []
       end).

(** The breakdown of a mapping without a weighted metric. *)
Definition empty_breakdown : ScoreBreakdown :=
  {| overall_score := 0.0%Q;
     metrics := [];
     warnings := [];
     explanation := "Poor translation quality (score: 0.0/100). Top factors: ." |}.

(** What the database keeps of an entry of a response: the weights of
    the metrics are not stored, and of the evaluation of a failed
    translation nothing is. *)
Definition stored_metric (metric : response.MetricResult) : response.MetricResult :=
  {| response.name := response.name metric;
     response.value := response.value metric;
     response.weight := 0.0%Q;
     response.details := response.details metric |}.

Definition as_stored (r : api.TranslationWithEvaluation) : api.TranslationWithEvaluation :=
  let e := api.evaluation r in
  let b := response.score_breakdown e in
  {| api.translation := api.translation r;
     api.evaluation :=
       {| response.translation_id := response.translation_id e;
          response.provider_name := response.provider_name e;
          response.model_id := response.model_id e;
          response.score_breakdown :=
            if Py.truthy_opt (provider.error (api.translation r))
            then {| response.overall_score := 0.0%Q;
                    response.metrics := [];
                    response.warnings := [];
                    response.explanation := None |}
            else {| response.overall_score := response.overall_score b;
                    response.metrics := map stored_metric (response.metrics b);
                    response.warnings := response.warnings b;
                    response.explanation := response.explanation b |} |} |}.

(** The overall score of an entry of a response, and what a ranking
    says of an entry: provider, model, score and latency. *)
Definition overall_of (r : api.TranslationWithEvaluation) : Q :=
  response.overall_score (response.score_breakdown (api.evaluation r)).

Definition ranked (r : api.TranslationWithEvaluation) : string * string * Q * Q :=
  (provider.provider_name (api.translation r), provider.model_id (api.translation r),
   overall_of r, provider.latency_ms (api.translation r)).

Definition ranking_entry (k : api.ranking) : string * string * Q * Q :=
  (api.provider k, api.model k, api.score k, api.latency_ms k).

(* ================================================================= *)
(** ** Arithmetic of the runtime fragment                             *)
(* ================================================================= *)

Section RuntimeFacts.
Import Py.
Local Open Scope Q_scope.

Lemma Qlt_bool_true (a b : Q) : Qlt_bool a b = true <-> a < b.
Proof.
  unfold Qlt_bool. rewrite negb_true_iff. split; intro H.
  - apply Qnot_le_lt. intro Hle. apply Qle_bool_iff in Hle. congruence.
  - destruct (Qle_bool b a) eqn:E; [| reflexivity].
    apply Qle_bool_iff in E. exfalso. exact (Qlt_not_le _ _ H E).
Qed.

Lemma Qlt_bool_false (a b : Q) : Qlt_bool a b = false <-> b <= a.
Proof.
  unfold Qlt_bool. rewrite negb_false_iff. apply Qle_bool_iff.
Qed.

Lemma Qle_bool_false (a b : Q) : Qle_bool a b = false <-> b < a.
Proof.
  rewrite <- Qlt_bool_true. unfold Qlt_bool.
  destruct (Qle_bool a b); simpl; intuition congruence.
Qed.

Lemma Qeq_bool_false (a b : Q) : Qeq_bool a b = false <-> ~ a == b.
Proof.
  split; intro H.
  - intro E. apply Qeq_bool_iff in E. congruence.
  - destruct (Qeq_bool a b) eqn:E; [| reflexivity].
    apply Qeq_bool_iff in E. contradiction.
Qed.

Lemma truediv_Ok (a b : Q) : ~ b == 0 -> truediv a b = Ok (a / b).
Proof.
  intro H. unfold truediv. apply Qeq_bool_false in H. rewrite H. reflexivity.
Qed.

Lemma truediv_Raise (a b : Q) : b == 0 -> truediv a b = Raise ZeroDivisionError.
Proof.
  intro H. unfold truediv. apply Qeq_bool_iff in H. rewrite H. reflexivity.
Qed.

Lemma max_Qmax (a b : Q) : max a b == Qmax a b.
Proof.
  unfold max. destruct (Qlt_bool a b) eqn:E.
  - apply Qlt_bool_true in E. symmetry. apply Q.max_r. apply Qlt_le_weak, E.
  - apply Qlt_bool_false in E. symmetry. apply Q.max_l, E.
Qed.

Lemma min_Qmin (a b : Q) : min a b == Qmin a b.
Proof.
  unfold min. destruct (Qlt_bool b a) eqn:E.
  - apply Qlt_bool_true in E. symmetry. apply Q.min_r. apply Qlt_le_weak, E.
  - apply Qlt_bool_false in E. symmetry. apply Q.min_l, E.
Qed.

Lemma float_of_nat_nonneg (n : nat) : 0 <= float_of_nat n.
Proof.
  unfold float_of_nat, Qle. simpl. lia.
Qed.

Lemma float_of_nat_pos (n : nat) : n <> O -> 0 < float_of_nat n.
Proof.
  intro H. unfold float_of_nat, Qlt. simpl. lia.
Qed.

Lemma float_of_nat_le (n m : nat) : (n <= m)%nat -> float_of_nat n <= float_of_nat m.
Proof.
  intro H. unfold float_of_nat, Qle. simpl. lia.
Qed.

(** A quotient of a part by the whole lies between 0 and 1. *)
Lemma Qdiv_unit (n d : Q) : 0 < d -> 0 <= n -> n <= d -> 0 <= n / d /\ n / d <= 1.
Proof.
  intros Hd Hn Hnd. split.
  - apply Qle_shift_div_l; [exact Hd |]. lra.
  - apply Qle_shift_div_r; [exact Hd |]. lra.
Qed.

End RuntimeFacts.

(** Decimal literals of the source and the numbers they denote. *)
Section Literals.
Local Open Scope Q_scope.

Lemma lit_0 : 0.0 == 0.
Proof. reflexivity. Qed.
Lemma lit_1 : 1.0 == 1.
Proof. reflexivity. Qed.
Lemma lit_50 : 50.0 == 50.
Proof. reflexivity. Qed.
Lemma lit_80 : 80.0 == 80.
Proof. reflexivity. Qed.
Lemma lit_100 : 100.0 == 100.
Proof. reflexivity. Qed.

End Literals.

Ltac decimals :=
  rewrite ?lit_0, ?lit_1, ?lit_50, ?lit_80, ?lit_100.

(* ================================================================= *)
(** ** LengthRatio                                                    *)
(* ================================================================= *)

Section LengthRatioFacts.
Import Py LengthRatioMetric.
Local Open Scope Q_scope.

Lemma length_ratio_pos (source_text target_text : string) :
  len source_text <> O -> len target_text <> O ->
  0 < length_ratio source_text target_text.
Proof.
  intros Hs Ht. unfold length_ratio.
  apply Qlt_shift_div_l; [apply float_of_nat_pos, Hs |].
  rewrite Qmult_0_l. apply float_of_nat_pos, Ht.
Qed.

(** On two non-empty texts [evaluate] is [ratio_score] at their ratio. *)
Lemma evaluate_nonempty (self : t) (source_text target_text : string) :
  len source_text <> O -> len target_text <> O ->
  evaluate self source_text target_text =
  (score <- ratio_score self (length_ratio source_text target_text) ;;
   Ok (outcome score (length_ratio source_text target_text)
         (len source_text) (len target_text)
         (ratio_warning self (length_ratio source_text target_text)))).
Proof.
  intros Hs Ht. unfold evaluate.
  destruct (Nat.eqb_spec (len source_text) 0) as [E | _]; [contradiction |].
  destruct (Nat.eqb_spec (len target_text) 0) as [E | _]; [contradiction |].
  rewrite truediv_Ok.
  - reflexivity.
  - intro E. pose proof (float_of_nat_pos _ Hs) as P. rewrite E in P.
    exact (Qlt_irrefl _ P).
Qed.

Lemma ratio_score_in_band_short (self : t) (ratio : Q) :
  min_ratio self <= ratio -> ratio <= max_ratio self -> ratio < 1 ->
  exists s, ratio_score self ratio = Ok s /\
            s == Qmax 50 ((ratio - min_ratio self) / (1 - min_ratio self) * 100).
Proof.
  intros Hlo Hhi H1. unfold ratio_score.
  apply Qle_bool_iff in Hlo as Blo. apply Qle_bool_iff in Hhi as Bhi.
  rewrite Blo, Bhi. simpl andb. cbv iota.
  assert (B1 : Qlt_bool ratio 1.0 = true) by (apply Qlt_bool_true; lra).
  rewrite B1. rewrite truediv_Ok by lra. simpl bind.
  eexists. split; [reflexivity |].
  rewrite max_Qmax. decimals. reflexivity.
Qed.

Lemma ratio_score_in_band_long (self : t) (ratio : Q) :
  min_ratio self <= ratio -> ratio <= max_ratio self -> 1 <= ratio ->
  ~ max_ratio self == 1 ->
  exists s, ratio_score self ratio = Ok s /\
            s == Qmax 50 ((max_ratio self - ratio) / (max_ratio self - 1) * 100).
Proof.
  intros Hlo Hhi H1 Hne. unfold ratio_score.
  apply Qle_bool_iff in Hlo as Blo. apply Qle_bool_iff in Hhi as Bhi.
  rewrite Blo, Bhi. simpl andb. cbv iota.
  assert (B1 : Qlt_bool ratio 1.0 = false) by (apply Qlt_bool_false; lra).
  rewrite B1. rewrite truediv_Ok by lra. simpl bind.
  eexists. split; [reflexivity |].
  rewrite max_Qmax. decimals. reflexivity.
Qed.

Lemma ratio_score_below (self : t) (ratio : Q) :
  0 < ratio -> ratio < min_ratio self ->
  exists s, ratio_score self ratio = Ok s /\
            s == Qmax 0 (Qmin 50 (ratio / min_ratio self * 50)).
Proof.
  intros Hpos Hlo. unfold ratio_score.
  apply Qle_bool_false in Hlo as Blo. rewrite Blo. simpl andb. cbv iota.
  apply Qlt_bool_true in Hlo as B1. rewrite B1.
  rewrite truediv_Ok by lra. simpl bind.
  eexists. split; [reflexivity |].
  rewrite max_Qmax, min_Qmin. decimals. reflexivity.
Qed.

Lemma ratio_score_above (self : t) (ratio : Q) :
  0 < ratio -> max_ratio self < ratio -> min_ratio self <= ratio ->
  exists s, ratio_score self ratio = Ok s /\
            s == Qmax 0 (Qmin 50 (max_ratio self / ratio * 50)).
Proof.
  intros Hpos Hhi Hlo. unfold ratio_score.
  apply Qle_bool_false in Hhi as Bhi. rewrite Bhi. rewrite andb_false_r. cbv iota.
  apply Qlt_bool_false in Hlo as B1. rewrite B1.
  rewrite truediv_Ok by lra. simpl bind.
  eexists. split; [reflexivity |].
  rewrite max_Qmax, min_Qmin. decimals. reflexivity.
Qed.

End LengthRatioFacts.

Section LengthRatioCurve.
Import Py LengthRatioMetric.
Local Open Scope Q_scope.

(** C4.  For two non-empty texts, with [ratio = len(target) / len(source)]:
    inside the band [[min_ratio, max_ratio]] the score is
    [(ratio - min_ratio) / (1 - min_ratio) * 100] below 1 and
    [(max_ratio - ratio) / (max_ratio - 1) * 100] from 1 on (where that
    quotient exists, [max_ratio <> 1]), each raised to at least 50; below
    the band it is [ratio / min_ratio * 50] and above it
    [max_ratio / ratio * 50], each clamped to [[0, 50]].  Above the band the
    side condition [min_ratio <= ratio] holds whenever
    [min_ratio <= max_ratio]. *)
Theorem length_ratio_piecewise_curve (self : t) (source_text target_text : string) :
  len source_text <> O -> len target_text <> O ->
  (min_ratio self <= length_ratio source_text target_text ->
   length_ratio source_text target_text <= max_ratio self ->
   length_ratio source_text target_text < 1 ->
   scores_to (evaluate self source_text target_text)
     (Qmax 50 ((length_ratio source_text target_text - min_ratio self)
               / (1 - min_ratio self) * 100)))
  /\
  (min_ratio self <= length_ratio source_text target_text ->
   length_ratio source_text target_text <= max_ratio self ->
   1 <= length_ratio source_text target_text ->
   ~ max_ratio self == 1 ->
   scores_to (evaluate self source_text target_text)
     (Qmax 50 ((max_ratio self - length_ratio source_text target_text)
               / (max_ratio self - 1) * 100)))
  /\
  (length_ratio source_text target_text < min_ratio self ->
   scores_to (evaluate self source_text target_text)
     (Qmax 0 (Qmin 50 (length_ratio source_text target_text / min_ratio self * 50))))
  /\
  (max_ratio self < length_ratio source_text target_text ->
   min_ratio self <= length_ratio source_text target_text ->
   scores_to (evaluate self source_text target_text)
     (Qmax 0 (Qmin 50 (max_ratio self / length_ratio source_text target_text * 50)))).
Proof.
  intros Hs Ht.
  pose proof (length_ratio_pos _ _ Hs Ht) as Hpos.
  assert (K : forall v,
             (exists s, ratio_score self (length_ratio source_text target_text) = Ok s
                        /\ s == v) ->
             scores_to (evaluate self source_text target_text) v).
  { intros v [s [E Hv]]. unfold scores_to.
    rewrite (evaluate_nonempty self _ _ Hs Ht), E. simpl.
    eexists. exists s. split; [reflexivity | split; [reflexivity | exact Hv]]. }
  repeat split; intros; apply K.
  - apply ratio_score_in_band_short; assumption.
  - apply ratio_score_in_band_long; assumption.
  - apply ratio_score_below; assumption.
  - apply ratio_score_above; assumption.
Qed.

Lemma length_ratio_piecewise_curve_witness :
  scores_to (evaluate default "Hello, world!" "Hola, mundo!")
    (Qmax 50 ((length_ratio "Hello, world!" "Hola, mundo!" - min_ratio default)
              / (1 - min_ratio default) * 100)).
Proof.
  apply (proj1 (length_ratio_piecewise_curve default "Hello, world!" "Hola, mundo!"
                  ltac:(discriminate) ltac:(discriminate)));
    vm_compute; congruence.
Defined.

End LengthRatioCurve.

(* ================================================================= *)
(** ** Score fusion                                                   *)
(* ================================================================= *)

Section FusionFacts.
Import Py ScoreFusion.
Local Open Scope Q_scope.

Lemma sum_from (l : list Q) (a : Q) : fold_left Qplus l a == a + Qsum l.
Proof.
  revert a. induction l as [| x l IH]; intro a; simpl.
  - ring.
  - rewrite IH. ring.
Qed.

Lemma sum_Qsum (l : list Q) : sum l == Qsum l.
Proof.
  unfold sum. rewrite sum_from. ring.
Qed.

(** The pseudo-metric [overall_score] has no weight path. *)
Lemma overall_weight (self : t) :
  _get_metric_weight self constants.METRIC_OVERALL = 0.0.
Proof.
  reflexivity.
Qed.

Lemma kept_cons_overall (self : t) (o : MetricOutcome) (m : list (string * MetricOutcome)) :
  kept self ((constants.METRIC_OVERALL, o) :: m) = kept self m.
Proof.
  reflexivity.
Qed.

(** One turn of the loop, by the weight of the entry. *)
Lemma fuse_step_kept (self : t) (a : acc) (item : string * MetricOutcome) :
  Qlt_bool 0 (_get_metric_weight self (fst item)) = true ->
  fuse_step self a item =
  {| weighted_scores :=
       app (weighted_scores a) [value (as_metric_result self item)
                                * weight (as_metric_result self item)];
     metric_list := app (metric_list a) [as_metric_result self item];
     acc_warnings := app (acc_warnings a) (as_warning item) |}.
Proof.
  destruct item as [metric_name result]. simpl fst. intro W.
  unfold fuse_step.
  destruct (String.eqb_spec metric_name constants.METRIC_OVERALL) as [E | _].
  - subst metric_name. rewrite overall_weight in W. discriminate W.
  - rewrite W. unfold as_warning, as_metric_result. simpl.
    destruct (warning result) as [w |]; [destruct (truthy w) |];
      rewrite ?app_nil_r; reflexivity.
Qed.

Lemma fuse_step_dropped (self : t) (a : acc) (item : string * MetricOutcome) :
  Qlt_bool 0 (_get_metric_weight self (fst item)) = false ->
  fuse_step self a item = a.
Proof.
  destruct item as [metric_name result]. simpl fst. intro W.
  unfold fuse_step. rewrite W.
  destruct (String.eqb metric_name constants.METRIC_OVERALL); reflexivity.
Qed.

(** The loop of [fuse_scores] appends the contributions of the kept
    entries, in order. *)
Lemma fuse_loop (self : t) (m : list (string * MetricOutcome)) (a : acc) :
  fold_left (fuse_step self) m a =
  {| weighted_scores :=
       app (weighted_scores a)
           (map (fun r => value r * weight r) (map (as_metric_result self) (kept self m)));
     metric_list := app (metric_list a) (map (as_metric_result self) (kept self m));
     acc_warnings := app (acc_warnings a) (flat_map as_warning (kept self m)) |}.
Proof.
  revert a. induction m as [| item m IH]; intro a.
  - simpl. rewrite !app_nil_r. destruct a; reflexivity.
  - simpl fold_left. rewrite IH. unfold kept. simpl filter.
    destruct (Qlt_bool 0 (_get_metric_weight self (fst item))) eqn:W.
    + rewrite (fuse_step_kept self a item W). simpl.
      rewrite <- !app_assoc. reflexivity.
    + rewrite (fuse_step_dropped self a item W). reflexivity.
Qed.

Lemma fuse_metrics (self : t) (m : list (string * MetricOutcome)) :
  metrics (fuse_scores self m) = map (as_metric_result self) (kept self m).
Proof.
  unfold fuse_scores. rewrite fuse_loop. reflexivity.
Qed.

Lemma fuse_warnings (self : t) (m : list (string * MetricOutcome)) :
  warnings (fuse_scores self m) = flat_map as_warning (kept self m).
Proof.
  unfold fuse_scores. rewrite fuse_loop. reflexivity.
Qed.

Lemma kept_positive (self : t) (m : list (string * MetricOutcome)) (item : string * MetricOutcome) :
  In item (kept self m) -> In item m /\ 0 < _get_metric_weight self (fst item).
Proof.
  unfold kept. rewrite filter_In. intros [H W].
  split; [exact H | apply Qlt_bool_true, W].
Qed.

Lemma kept_weight_sum_pos (self : t) (m : list (string * MetricOutcome)) :
  kept self m <> [] ->
  0 < Qsum (map weight (map (as_metric_result self) (kept self m))).
Proof.
  assert (G : forall l, (forall it, In it l -> 0 < _get_metric_weight self (fst it)) ->
                        0 <= Qsum (map weight (map (as_metric_result self) l))).
  { induction l as [| x l IH]; intro H; simpl.
    - apply Qle_refl.
    - assert (0 < _get_metric_weight self (fst x)) by (apply H; left; reflexivity).
      assert (0 <= Qsum (map weight (map (as_metric_result self) l)))
        by (apply IH; intros; apply H; right; assumption).
      lra. }
  intro Hne.
  assert (P : forall it, In it (kept self m) -> 0 < _get_metric_weight self (fst it))
    by (intros it Hit; apply (kept_positive self m it Hit)).
  destruct (kept self m) as [| x l]; [congruence |]. simpl.
  assert (0 < _get_metric_weight self (fst x)) by (apply P; left; reflexivity).
  assert (0 <= Qsum (map weight (map (as_metric_result self) l)))
    by (apply G; intros; apply P; right; assumption).
  lra.
Qed.

(** The overall score of [fuse_scores] in terms of the kept entries. *)
Lemma fuse_overall (self : t) (m : list (string * MetricOutcome)) :
  overall_score (fuse_scores self m) ==
  match kept self m with
  | [] => 0
  | _ => Qsum (map (fun r => value r * weight r) (map (as_metric_result self) (kept self m)))
         / Qsum (map weight (map (as_metric_result self) (kept self m)))
  end.
Proof.
  unfold fuse_scores. rewrite fuse_loop. simpl.
  pose proof (kept_weight_sum_pos self m) as P.
  destruct (kept self m) as [| x l] eqn:K.
  - simpl. reflexivity.
  - remember (x :: l) as k. assert (Hk : k <> []) by (subst k; discriminate).
    specialize (P Hk).
    assert (B : Qlt_bool 0 (sum (map weight (map (as_metric_result self) k))) = true).
    { apply Qlt_bool_true. rewrite sum_Qsum. exact P. }
    rewrite B.
    replace (match map (fun r => value r * weight r) (map (as_metric_result self) k) with
             | [] => 0.0
             | _ :: _ => sum (map (fun r => value r * weight r) (map (as_metric_result self) k))
                         / sum (map weight (map (as_metric_result self) k))
             end)
      with (sum (map (fun r => value r * weight r) (map (as_metric_result self) k))
            / sum (map weight (map (as_metric_result self) k)))
      by (subst k; reflexivity).
    rewrite !sum_Qsum. subst k. reflexivity.
Qed.

Lemma value_get_score (self : t) (item : string * MetricOutcome) :
  value (as_metric_result self item) == get_score (snd item).
Proof.
  unfold as_metric_result, get_score. simpl.
  destruct (score (snd item)); reflexivity.
Qed.

Lemma Qsum_map_ext {A : Type} (f g : A -> Q) (l : list A) :
  (forall x, In x l -> f x == g x) -> Qsum (map f l) == Qsum (map g l).
Proof.
  induction l as [| x l IH]; intro H; simpl.
  - reflexivity.
  - rewrite (H x (or_introl eq_refl)), IH by (intros; apply H; right; assumption).
    reflexivity.
Qed.

Lemma fuse_by_kept (self : t) (m m' : list (string * MetricOutcome)) :
  kept self m = kept self m' -> fuse_scores self m = fuse_scores self m'.
Proof.
  intro H. unfold fuse_scores. rewrite !fuse_loop, H. reflexivity.
Qed.

(** Only the five metrics of the weight table can have a weight. *)
Lemma positive_weight_known (self : t) (metric_name : string) :
  0 < _get_metric_weight self metric_name ->
  In metric_name (map fst metric_config_map).
Proof.
  unfold _get_metric_weight. intro H.
  destruct (dict_get metric_name metric_config_map) as [p |] eqn:E.
  - clear H. unfold metric_config_map in *. simpl in E. simpl.
    repeat match type of E with
           | (if String.eqb ?a ?b then _ else _) = _ =>
               destruct (String.eqb_spec a b) as [-> | _]; [tauto |]
           end.
    discriminate E.
  - exfalso. revert H. apply Qle_not_lt. decimals. apply Qle_refl.
Qed.

(** Warnings of different known metrics differ. *)
Lemma known_prefix_distinct (k n a b : string) :
  In k (map fst metric_config_map) -> In n (map fst metric_config_map) ->
  k <> n -> k ++ ": " ++ a <> n ++ ": " ++ b.
Proof.
  simpl. intros Hk Hn Hne.
  repeat (destruct Hk as [<- | Hk]; [| try contradiction]);
    repeat (destruct Hn as [<- | Hn]; [| try contradiction]);
    try congruence; simpl; intro E; discriminate E.
Qed.

Lemma overall_prefix_distinct (k a b : string) :
  In k (map fst metric_config_map) ->
  k ++ ": " ++ a <> constants.METRIC_OVERALL ++ ": " ++ b.
Proof.
  simpl. intros Hk.
  repeat (destruct Hk as [<- | Hk]; [| try contradiction]);
    simpl; intro E; discriminate E.
Qed.

(** Every warning of the breakdown comes from a kept entry. *)
Lemma fuse_warning_origin (self : t) (m : list (string * MetricOutcome)) (x : string) :
  In x (warnings (fuse_scores self m)) ->
  exists metric_name o w,
    In (metric_name, o) m /\ 0 < _get_metric_weight self metric_name
    /\ warning o = Some w /\ x = metric_name ++ ": " ++ w.
Proof.
  rewrite fuse_warnings, in_flat_map. intros [[metric_name o] [Hk Hx]].
  apply kept_positive in Hk. destruct Hk as [Hin Hw]. simpl in Hw.
  unfold as_warning in Hx. simpl in Hx.
  destruct (warning o) as [w |] eqn:W; [| contradiction].
  destruct (truthy w); [| contradiction].
  destruct Hx as [<- | []].
  exists metric_name, o, w. repeat split; assumption.
Qed.

(** C1.  The overall score of the fusion is the weighted mean
    [sum (score * weight) / sum weight] over exactly the entries whose
    resolved weight is positive, and 0 when there is none; two metrics
    of weights 2 and 1 and scores 80 and 50 fuse to
    [(80 * 2 + 50 * 1) / 3 = 70]. *)
Theorem fuse_overall_weighted_mean :
  (forall (self : t) (m : list (string * MetricOutcome)),
      overall_score (fuse_scores self m) ==
      match kept self m with
      | [] => 0
      | k => weighted_mean self k
      end)
  /\ overall_score (fuse_scores two_one
                      [("length_ratio", outcome_of 80 None);
                       ("repetition", outcome_of 50 None)])
     == (80 * 2 + 50 * 1) / 3
  /\ (80 * 2 + 50 * 1) / 3 == 70.
Proof.
  split; [| split; [vm_compute; reflexivity | reflexivity]].
  intros self m. rewrite fuse_overall.
  destruct (kept self m) as [| x l]; [reflexivity |].
  unfold weighted_mean. rewrite !map_map.
  rewrite (Qsum_map_ext
             (fun x0 => value (as_metric_result self x0) * weight (as_metric_result self x0))
             (fun item => get_score (snd item) * _get_metric_weight self (fst item))).
  - reflexivity.
  - intros y _. rewrite value_get_score. reflexivity.
Qed.

(** C2.  The metrics of the breakdown are exactly the entries of positive
    resolved weight, in order, and its warnings are exactly the
    name-prefixed warnings of those entries; a metric whose resolved
    weight is 0 is no [MetricResult], and no warning under the name of a
    metric of the weight table whose weight is 0 is in the warnings. *)
Theorem zero_weight_metric_dropped (self : t) (m : list (string * MetricOutcome)) :
  metrics (fuse_scores self m) = map (as_metric_result self) (kept self m)
  /\ warnings (fuse_scores self m) = flat_map as_warning (kept self m)
  /\ Forall (fun r => 0 < weight r) (metrics (fuse_scores self m))
  /\ (forall metric_name : string,
        _get_metric_weight self metric_name == 0 ->
        ~ In metric_name (map name (metrics (fuse_scores self m))))
  /\ (forall metric_name w : string,
        In metric_name (map fst metric_config_map) ->
        _get_metric_weight self metric_name == 0 ->
        ~ In (metric_name ++ ": " ++ w) (warnings (fuse_scores self m))).
Proof.
  split; [apply fuse_metrics |]. split; [apply fuse_warnings |].
  split; [| split].
  - rewrite fuse_metrics. apply Forall_forall. intros r Hr.
    apply in_map_iff in Hr. destruct Hr as [item [<- Hk]].
    apply kept_positive in Hk. simpl. apply Hk.
  - intros metric_name Hz Hin. rewrite fuse_metrics, map_map in Hin.
    apply in_map_iff in Hin. destruct Hin as [item [E Hk]].
    apply kept_positive in Hk. simpl in E. subst metric_name.
    destruct Hk as [_ Hk]. rewrite Hz in Hk. exact (Qlt_irrefl _ Hk).
  - intros metric_name w Hknown Hz Hin.
    apply fuse_warning_origin in Hin.
    destruct Hin as [k [o [wk [_ [Hk [_ E]]]]]].
    destruct (string_dec k metric_name) as [-> | Hne].
    + rewrite Hz in Hk. exact (Qlt_irrefl _ Hk).
    + symmetry in E. revert E.
      apply known_prefix_distinct; [apply (positive_weight_known self), Hk | exact Hknown | exact Hne].
Qed.

Lemma zero_weight_metric_dropped_witness :
  ~ In "preservation"
      (map name (metrics (fuse_scores two_one
                            [("length_ratio", outcome_of 80 None);
                             ("preservation", outcome_of 10 (Some "lost"))])))
  /\ ~ In ("preservation" ++ ": " ++ "lost")
        (warnings (fuse_scores two_one
                     [("length_ratio", outcome_of 80 None);
                      ("preservation", outcome_of 10 (Some "lost"))])).
Proof.
  destruct (zero_weight_metric_dropped two_one
              [("length_ratio", outcome_of 80 None);
               ("preservation", outcome_of 10 (Some "lost"))])
    as [_ [_ [_ [Hm Hw]]]].
  split.
  - apply Hm. vm_compute. reflexivity.
  - apply Hw.
    + simpl. tauto.
    + vm_compute. reflexivity.
Defined.

(** C10.  An entry keyed [overall_score] is ignored: the breakdown is the
    same with and without it, no [MetricResult] bears that name and no
    warning is issued under it. *)
Theorem overall_entry_ignored (self : t) :
  (forall (m1 m2 : list (string * MetricOutcome)) (o : MetricOutcome),
      fuse_scores self (m1 ++ (constants.METRIC_OVERALL, o) :: m2)%list
      = fuse_scores self (m1 ++ m2)%list)
  /\ (forall m : list (string * MetricOutcome),
        fuse_scores self
          (filter (fun item => negb (String.eqb (fst item) constants.METRIC_OVERALL)) m)
        = fuse_scores self m)
  /\ (forall m : list (string * MetricOutcome),
        ~ In constants.METRIC_OVERALL (map name (metrics (fuse_scores self m))))
  /\ (forall (m : list (string * MetricOutcome)) (w : string),
        ~ In (constants.METRIC_OVERALL ++ ": " ++ w) (warnings (fuse_scores self m))).
Proof.
  split; [| split; [| split]].
  - intros m1 m2 o. apply fuse_by_kept. unfold kept.
    rewrite !filter_app. apply f_equal. exact (kept_cons_overall self o m2).
  - intro m. apply fuse_by_kept. unfold kept.
    induction m as [| [k o] m IH]; [reflexivity |].
    simpl. destruct (String.eqb_spec k constants.METRIC_OVERALL) as [-> | Hne]; simpl.
    + rewrite IH. reflexivity.
    + rewrite IH. reflexivity.
  - intros m Hin. rewrite fuse_metrics, map_map in Hin.
    apply in_map_iff in Hin. destruct Hin as [item [E Hk]].
    apply kept_positive in Hk. destruct Hk as [_ Hk]. simpl in E. rewrite E in Hk.
    rewrite overall_weight in Hk. revert Hk. apply Qle_not_lt. decimals. apply Qle_refl.
  - intros m w Hin. apply fuse_warning_origin in Hin.
    destruct Hin as [k [o [wk [_ [Hk [_ E]]]]]].
    symmetry in E. revert E.
    apply overall_prefix_distinct. apply (positive_weight_known self), Hk.
Qed.

End FusionFacts.

(* ================================================================= *)
(** ** LanguageMatch                                                  *)
(* ================================================================= *)

Section LanguageMatchFacts.
Import Py LanguageDetectionMetric.
Local Open Scope Q_scope.

Variable detect_langs : string -> result lang_probs.

(** C6.  On a non-blank target for which the detector returns a
    non-empty ranked list, the score is 100 when the top language is the
    target language with a confidence of at least the threshold; it is
    [confidence * 100], with the low-confidence warning, when it matches
    below the threshold; and it is 0, with a warning that names the
    expected and the detected language, when the top language differs.
    The default threshold is 0.8. *)
Theorem language_match_score (self : t) (source_text target_text target_lang : string)
        (detected_lang : string) (confidence : Q) (rest : lang_probs) :
  blank target_text = false ->
  detect_langs target_text = Ok ((detected_lang, confidence) :: rest) ->
  (detected_lang = target_lang -> confidence_threshold self <= confidence ->
   yields (evaluate detect_langs self source_text target_text target_lang) 100 None)
  /\
  (detected_lang = target_lang -> confidence < confidence_threshold self ->
   yields (evaluate detect_langs self source_text target_text target_lang)
     (confidence * 100) (Some constants.WARN_LOW_CONFIDENCE))
  /\
  (detected_lang <> target_lang ->
   yields (evaluate detect_langs self source_text target_text target_lang) 0
     (Some ("Language mismatch: expected '" ++ target_lang
              ++ "', detected '" ++ detected_lang ++ "'")))
  /\ confidence_threshold default == 8 / 10.
Proof.
  intros Hb Hd. unfold yields, evaluate. rewrite Hb, Hd.
  split; [| split; [| split; [| reflexivity]]].
  - intros -> Hc. rewrite String.eqb_refl.
    apply Qle_bool_iff in Hc as B. rewrite B. simpl negb. cbv iota.
    assert (L : Qlt_bool confidence (confidence_threshold self) = false)
      by (apply Qlt_bool_false, Hc).
    rewrite L. eexists. eexists.
    split; [reflexivity | split; [reflexivity | split; [decimals; reflexivity | reflexivity]]].
  - intros -> Hc. rewrite String.eqb_refl.
    apply Qle_bool_false in Hc as B. rewrite B. simpl negb. cbv iota.
    apply Qlt_bool_true in Hc as L. rewrite L. eexists. eexists.
    split; [reflexivity | split; [reflexivity | split; [decimals; reflexivity | reflexivity]]].
  - intros Hne. apply String.eqb_neq in Hne. rewrite Hne. simpl negb. cbv iota.
    eexists. eexists.
    split; [reflexivity | split; [reflexivity | split; [decimals; reflexivity | reflexivity]]].
Qed.

End LanguageMatchFacts.

Lemma language_match_score_witness :
  yields (LanguageDetectionMetric.evaluate (constant_detector [("es", 0.9%Q); ("pt", 0.1%Q)])
            LanguageDetectionMetric.default "Hello, world!" "Hola, mundo!" "es")
    100 None.
Proof.
  apply (proj1 (language_match_score (constant_detector [("es", 0.9%Q); ("pt", 0.1%Q)])
                  LanguageDetectionMetric.default "Hello, world!" "Hola, mundo!" "es"
                  "es" 0.9%Q [("pt", 0.1%Q)] eq_refl eq_refl)).
  - reflexivity.
  - vm_compute. congruence.
Defined.

(* ================================================================= *)
(** ** Repetition                                                     *)
(* ================================================================= *)

Section CounterFacts.
Import Py RepetitionMetric.

Lemma counter_add_keys (y : ngram) (c : list (ngram * nat)) (x : ngram) :
  In x (keys (counter_add y c)) <-> x = y \/ In x (keys c).
Proof.
  induction c as [| [z k] c IH]; simpl.
  - intuition.
  - destruct (ngram_eq_dec y z) as [-> | Hne]; simpl.
    + intuition.
    + rewrite IH. intuition.
Qed.

Lemma counter_add_NoDup (y : ngram) (c : list (ngram * nat)) :
  NoDup (keys c) -> NoDup (keys (counter_add y c)).
Proof.
  induction c as [| [z k] c IH]; simpl; intro H.
  - constructor; [intros [] | constructor].
  - inversion H as [| ? ? Hz Hc]; subst.
    destruct (ngram_eq_dec y z) as [-> | Hne]; simpl.
    + constructor; assumption.
    + constructor; [| apply IH, Hc].
      intro Hin. apply counter_add_keys in Hin. destruct Hin as [-> | Hin]; auto.
Qed.

Lemma counter_add_cget (y : ngram) (c : list (ngram * nat)) (x : ngram) :
  cget x (counter_add y c) = if ngram_eq_dec x y then S (cget x c) else cget x c.
Proof.
  induction c as [| [z k] c IH]; simpl.
  - destruct (ngram_eq_dec x y); reflexivity.
  - destruct (ngram_eq_dec y z) as [-> | Hne]; simpl.
    + destruct (ngram_eq_dec x z); reflexivity.
    + destruct (ngram_eq_dec x z) as [-> | Hxz].
      * destruct (ngram_eq_dec z y); [congruence | reflexivity].
      * exact IH.
Qed.

Lemma counter_loop_keys (l : list ngram) (c : list (ngram * nat)) (x : ngram) :
  In x (keys (fold_left (fun c x => counter_add x c) l c)) <-> In x l \/ In x (keys c).
Proof.
  revert c. induction l as [| y l IH]; intro c; simpl.
  - intuition.
  - rewrite IH, counter_add_keys. intuition.
Qed.

Lemma counter_loop_NoDup (l : list ngram) (c : list (ngram * nat)) :
  NoDup (keys c) -> NoDup (keys (fold_left (fun c x => counter_add x c) l c)).
Proof.
  revert c. induction l as [| y l IH]; intro c; simpl; intro H.
  - exact H.
  - apply IH, counter_add_NoDup, H.
Qed.

Lemma counter_loop_cget (l : list ngram) (c : list (ngram * nat)) (x : ngram) :
  cget x (fold_left (fun c x => counter_add x c) l c)
  = count_occ ngram_eq_dec l x + cget x c.
Proof.
  revert c. induction l as [| y l IH]; intro c; simpl.
  - reflexivity.
  - rewrite IH, counter_add_cget.
    destruct (ngram_eq_dec y x) as [-> | Hne].
    + destruct (ngram_eq_dec x x); [lia | congruence].
    + destruct (ngram_eq_dec x y); [congruence | reflexivity].
Qed.

Lemma cget_In (c : list (ngram * nat)) (x : ngram) (k : nat) :
  NoDup (keys c) -> In (x, k) c -> cget x c = k.
Proof.
  induction c as [| [z j] c IH]; simpl; intros H Hin.
  - contradiction.
  - inversion H as [| ? ? Hz Hc]; subst.
    destruct Hin as [E | Hin].
    + inversion E; subst. destruct (ngram_eq_dec x x); [reflexivity | congruence].
    + destruct (ngram_eq_dec x z) as [-> | Hne].
      * exfalso. apply Hz. apply in_map_iff. exists (z, k). split; [reflexivity | exact Hin].
      * apply IH; assumption.
Qed.

Lemma In_cget (c : list (ngram * nat)) (x : ngram) :
  In x (keys c) -> In (x, cget x c) c.
Proof.
  induction c as [| [z j] c IH]; simpl; intro Hin.
  - contradiction.
  - destruct (ngram_eq_dec x z) as [-> | Hne].
    + left. reflexivity.
    + right. apply IH. destruct Hin as [E | Hin]; [congruence | exact Hin].
Qed.

(** [Counter] holds every n-gram of the list once, with its number of
    occurrences. *)
Lemma Counter_keys (l : list ngram) (x : ngram) : In x (keys (Counter l)) <-> In x l.
Proof.
  unfold Counter. rewrite counter_loop_keys. simpl. intuition.
Qed.

Lemma Counter_NoDup (l : list ngram) : NoDup (keys (Counter l)).
Proof.
  apply counter_loop_NoDup. constructor.
Qed.

Lemma Counter_cget (l : list ngram) (x : ngram) :
  cget x (Counter l) = count_occ ngram_eq_dec l x.
Proof.
  unfold Counter. rewrite counter_loop_cget. simpl. lia.
Qed.

Lemma Counter_length (l : list ngram) : List.length (Counter l) = distinct l.
Proof.
  unfold distinct. rewrite <- (length_map fst (Counter l)). fold (keys (Counter l)).
  apply Nat.le_antisymm; apply NoDup_incl_length.
  - apply Counter_NoDup.
  - intros x Hx. apply nodup_In. apply Counter_keys, Hx.
  - apply NoDup_nodup.
  - intros x Hx. apply Counter_keys. apply nodup_In in Hx. exact Hx.
Qed.

Lemma list_max_ge (l : list nat) (n : nat) : In n l -> n <= list_max l.
Proof.
  intro H. pose proof (proj1 (list_max_le l (list_max l)) (Nat.le_refl _)) as F.
  rewrite Forall_forall in F. apply F, H.
Qed.

Lemma Counter_values_max (l : list ngram) :
  list_max (map snd (Counter l)) = max_frequency l.
Proof.
  unfold max_frequency. apply Nat.le_antisymm; apply list_max_le, Forall_forall.
  - intros k Hk. apply in_map_iff in Hk. destruct Hk as [[x j] [E Hin]].
    simpl in E. subst j.
    pose proof (cget_In (Counter l) x k (Counter_NoDup l) Hin) as C.
    rewrite Counter_cget in C. subst k.
    apply list_max_ge. apply in_map. apply Counter_keys.
    apply in_map_iff. exists (x, count_occ ngram_eq_dec l x). split; [reflexivity | exact Hin].
  - intros k Hk. apply in_map_iff in Hk. destruct Hk as [x [E Hin]]. subst k.
    apply list_max_ge. rewrite <- Counter_cget.
    apply in_map_iff. exists (x, cget x (Counter l)). split; [reflexivity |].
    apply In_cget, Counter_keys, Hin.
Qed.

Lemma fold_left_max (l : list nat) (a : nat) :
  fold_left Nat.max l a = Nat.max a (list_max l).
Proof.
  revert a. induction l as [| x l IH]; intro a; simpl.
  - lia.
  - rewrite IH. lia.
Qed.

Lemma max_values_Counter (l : list ngram) :
  l <> [] -> max_values (map snd (Counter l)) = Ok (max_frequency l).
Proof.
  intro Hne. rewrite <- Counter_values_max.
  destruct (Counter l) as [| [x k] c] eqn:E.
  - exfalso. destruct l as [| y l]; [congruence |].
    assert (H : In y (keys (Counter (y :: l)))) by (apply Counter_keys; left; reflexivity).
    rewrite E in H. exact H.
  - simpl. rewrite fold_left_max. reflexivity.
Qed.

Lemma distinct_le_length (l : list ngram) : distinct l <= List.length l.
Proof.
  unfold distinct. apply NoDup_incl_length.
  - apply NoDup_nodup.
  - intros x Hx. apply nodup_In in Hx. exact Hx.
Qed.

Lemma max_frequency_le_length (l : list ngram) : max_frequency l <= List.length l.
Proof.
  unfold max_frequency. apply list_max_le, Forall_forall.
  intros k Hk. apply in_map_iff in Hk. destruct Hk as [x [<- _]].
  apply count_occ_bound.
Qed.

End CounterFacts.

Section RepetitionFacts.
Import Py RepetitionMetric.
Local Open Scope Q_scope.

(** The value [_calculate_repetition_score] returns on a non-empty list. *)
Lemma calculate_repetition_score_spec (ngrams : list ngram) :
  ngrams <> [] ->
  exists v, _calculate_repetition_score ngrams = Ok v
            /\ v == (if (1 <? max_frequency ngrams)%nat
                     then Qmax (uniqueness_repetition ngrams) (frequency_factor ngrams)
                     else uniqueness_repetition ngrams).
Proof.
  intro Hne. unfold _calculate_repetition_score.
  destruct ngrams as [| g rest] eqn:E; [congruence |]. rewrite <- E in *.
  assert (Hlen : List.length ngrams <> O) by (subst ngrams; discriminate).
  destruct (Nat.eqb_spec (List.length ngrams) 0) as [Z | _]; [contradiction |].
  assert (Hpos : ~ float_of_nat (List.length ngrams) == 0).
  { intro Z. pose proof (float_of_nat_pos _ Hlen) as P. rewrite Z in P.
    exact (Qlt_irrefl _ P). }
  rewrite truediv_Ok by exact Hpos. simpl bind.
  rewrite max_values_Counter by exact Hne. simpl bind.
  rewrite Counter_length.
  destruct (1 <? max_frequency ngrams)%nat.
  - rewrite truediv_Ok by exact Hpos. simpl bind.
    eexists. split; [reflexivity |].
    rewrite max_Qmax, min_Qmin. unfold uniqueness_repetition, frequency_factor.
    decimals. reflexivity.
  - eexists. split; [reflexivity |].
    unfold uniqueness_repetition. decimals. reflexivity.
Qed.

Lemma get_ngrams_nonempty (text : string) (n : nat) :
  (n <= List.length (split (lower text)))%nat -> _get_ngrams text n <> [].
Proof.
  intro H. unfold _get_ngrams.
  destruct (Nat.ltb_spec (List.length (split (lower text))) n) as [L | _]; [lia |].
  replace (List.length (split (lower text)) - n + 1)%nat
    with (S (List.length (split (lower text)) - n)) by lia.
  simpl. discriminate.
Qed.

(** C3, as amended.  For a text with at least [n] tokens, the value for
    size [n] is [max(1 - unique / total, min(max_frequency / total, 1))]
    when some n-gram occurs more than once, and [1 - unique / total]
    otherwise; this value is what the loop of [evaluate] records for the
    size and folds into the maximum. *)
Theorem repetition_value_per_size (text : string) (n : nat)
        (repetition_scores : list (string * Q)) (max_repetition : Q) :
  (n <= List.length (split (lower text)))%nat ->
  exists v,
    _calculate_repetition_score (_get_ngrams text n) = Ok v
    /\ v == (if (1 <? max_frequency (_get_ngrams text n))%nat
             then Qmax (uniqueness_repetition (_get_ngrams text n))
                       (frequency_factor (_get_ngrams text n))
             else uniqueness_repetition (_get_ngrams text n))
    /\ size_step text (repetition_scores, max_repetition) n
       = Ok (app repetition_scores [(str_of_nat n ++ "-gram", v)],
             max max_repetition v).
Proof.
  intro H. pose proof (get_ngrams_nonempty text n H) as Hne.
  destruct (calculate_repetition_score_spec _ Hne) as [v [E Hv]].
  exists v. split; [exact E |]. split; [exact Hv |].
  unfold size_step.
  destruct (_get_ngrams text n) as [| g rest] eqn:G; [congruence |].
  rewrite E. reflexivity.
Qed.

Lemma repetition_value_per_size_witness :
  exists v,
    _calculate_repetition_score (_get_ngrams "a b a b c" 2) = Ok v
    /\ v == (if (1 <? max_frequency (_get_ngrams "a b a b c" 2))%nat
             then Qmax (uniqueness_repetition (_get_ngrams "a b a b c" 2))
                       (frequency_factor (_get_ngrams "a b a b c" 2))
             else uniqueness_repetition (_get_ngrams "a b a b c" 2))
    /\ size_step "a b a b c" ([], 0) 2
       = Ok (app [] [(str_of_nat 2 ++ "-gram", v)], max 0 v).
Proof.
  apply (repetition_value_per_size "a b a b c" 2 [] 0).
  vm_compute. lia.
Defined.

(** C3, as stated, fails: in "This is a unique translation." every
    bigram occurs once, the code returns [1 - 4/4 = 0] and the stated
    formula gives [max(0, min(1/4, 1)) = 1/4]. *)
Lemma repetition_frequency_factor_counterexample :
  (2 <= List.length (split (lower "This is a unique translation.")))%nat
  /\ exists v,
      _calculate_repetition_score (_get_ngrams "This is a unique translation." 2) = Ok v
      /\ v == 0
      /\ Qmax (uniqueness_repetition (_get_ngrams "This is a unique translation." 2))
              (frequency_factor (_get_ngrams "This is a unique translation." 2))
         == 1 / 4
      /\ ~ v == Qmax (uniqueness_repetition (_get_ngrams "This is a unique translation." 2))
                     (frequency_factor (_get_ngrams "This is a unique translation." 2)).
Proof.
  split; [vm_compute; lia |].
  eexists. split; [vm_compute; reflexivity |].
  split; [vm_compute; reflexivity |].
  split; [vm_compute; reflexivity |].
  vm_compute. discriminate.
Qed.

End RepetitionFacts.

Section RepetitionExamples.
Import Py RepetitionMetric.
Local Open Scope Q_scope.

(** C9.  With the default parameters, "This is a unique translation."
    scores above 70 (it scores 100) without a warning, and
    "test test test test test test" scores below 50 (it scores 0) with a
    warning, its maximum repetition 1 exceeding the default threshold 0.3. *)
Theorem repetition_examples (source_text : string) :
  (exists o s, evaluate default source_text "This is a unique translation." = Ok o
               /\ score o = Some s /\ 70 < s /\ warning o = None)
  /\
  (exists o s mx, evaluate default source_text "test test test test test test" = Ok o
                  /\ score o = Some s /\ s < 50
                  /\ warning o = Some "High repetition detected in translation (score: 1.00)"
                  /\ dict_get "repetition_score" (details o) = Some (DFloat mx)
                  /\ mx == 1 /\ threshold default < mx
                  /\ threshold default == 3 / 10).
Proof.
  split.
  - eexists. eexists. split; [vm_compute; reflexivity |].
    split; [reflexivity |]. split; [vm_compute; reflexivity | reflexivity].
  - eexists. eexists. eexists. split; [vm_compute; reflexivity |].
    split; [reflexivity |]. split; [vm_compute; reflexivity |].
    split; [reflexivity |]. split; [reflexivity |].
    split; [reflexivity |]. split; [vm_compute; reflexivity | reflexivity].
Qed.

End RepetitionExamples.

(* ================================================================= *)
(** ** The matcher                                                    *)
(* ================================================================= *)

Section MatcherFacts.
Import Py.

Lemma star_sound (p : ascii -> bool) (s : list ascii) (prev : option ascii)
      (k : re.cont) (out : list ascii) :
  re.star p prev s k = Some out ->
  exists m s' prev', s = app m s' /\ Forall (fun c => p c = true) m
                     /\ k prev' s' = Some out.
Proof.
  revert prev. induction s as [| c s IH]; intros prev; simpl.
  - intro E. exists [], [], prev. repeat split; [constructor | exact E].
  - destruct (p c) eqn:P.
    + destruct (re.star p (Some c) s k) as [r |] eqn:S.
      * intro E. injection E as <-.
        destruct (IH (Some c) S) as [m [s' [prev' [E1 [F K]]]]].
        exists (c :: m), s', prev'. subst s. repeat split; [constructor; assumption | exact K].
      * intro E. exists [], (c :: s), prev. repeat split; [constructor | exact E].
    + intro E. exists [], (c :: s), prev. repeat split; [constructor | exact E].
Qed.

(** What the matcher consumes is a text of the pattern. *)
Lemma run_sound (r : re.regex) (prev : option ascii) (s : list ascii)
      (k : re.cont) (out : list ascii) :
  re.run r prev s k = Some out ->
  exists m s' prev', s = app m s' /\ lang r m /\ k prev' s' = Some out.
Proof.
  revert prev s k out. induction r as [p | | r1 IH1 r2 IH2 | r1 IH1 | p];
    intros prev s k out; simpl.
  - destruct s as [| c s]; [discriminate |]. destruct (p c) eqn:P; [| discriminate].
    intro E. exists [c], s, (Some c). repeat split; [| exact E]. exists c. split; [reflexivity | exact P].
  - destruct (xorb (re.word_at prev) (re.word_at (hd_error s))); [| discriminate].
    intro E. exists [], s, prev. repeat split. exact E.
  - intro E. destruct (IH1 _ _ _ _ E) as [m1 [s1 [prev1 [E1 [L1 K1]]]]].
    destruct (IH2 _ _ _ _ K1) as [m2 [s2 [prev2 [E2 [L2 K2]]]]].
    exists (app m1 m2), s2, prev2. subst s s1. rewrite app_assoc.
    repeat split; [| exact K2]. exists m1, m2. repeat split; assumption.
  - destruct (re.run r1 prev s k) as [r |] eqn:R.
    + intro E. injection E as <-.
      destruct (IH1 _ _ _ _ R) as [m [s' [prev' [E1 [L K]]]]].
      exists m, s', prev'. repeat split; [exact E1 | right; exact L | exact K].
    + intro E. exists [], s, prev. repeat split; [left; reflexivity | exact E].
  - destruct s as [| c s]; [discriminate |]. destruct (p c) eqn:P; [| discriminate].
    intro E. destruct (star_sound p s (Some c) k out E) as [m [s' [prev' [E1 [F K]]]]].
    exists (c :: m), s', prev'. subst s. repeat split; [discriminate | | exact K].
    constructor; assumption.
Qed.

Lemma match_here_sound (r : re.regex) (prev : option ascii) (s m : list ascii) :
  re.match_here r prev s = Some m -> lang r m.
Proof.
  unfold re.match_here.
  destruct (re.run r prev s (fun _ rest => Some rest)) as [rest |] eqn:R; [| discriminate].
  intro E. injection E as <-.
  destruct (run_sound r prev s _ rest R) as [m [s' [prev' [E1 [L K]]]]].
  injection K as ->. subst s.
  rewrite length_app, Nat.add_sub.
  rewrite firstn_app, Nat.sub_diag, firstn_all. simpl. rewrite app_nil_r. exact L.
Qed.

Lemma chars_str (l : list ascii) : chars (str l) = l.
Proof.
  apply list_ascii_of_string_of_list_ascii.
Qed.

(** Every match [findall] returns is a text of the pattern. *)
Lemma findall_sound (r : re.regex) (text : string) :
  Forall (fun tok => lang r (chars tok)) (re.findall r text).
Proof.
  unfold re.findall. generalize (@None ascii) as prev. generalize 0 as skip.
  induction (chars text) as [| c s IH]; intros skip prev; simpl.
  - destruct skip; [| constructor].
    destruct (re.match_here r prev []) as [m |] eqn:M; constructor; [| constructor].
    rewrite chars_str. exact (match_here_sound r prev [] m M).
  - destruct skip as [| skip]; [| apply IH].
    destruct (re.match_here r prev (c :: s)) as [m |] eqn:M; [| apply IH].
    constructor; [| apply IH].
    rewrite chars_str. exact (match_here_sound r prev (c :: s) m M).
Qed.

Lemma one_of_sep (c : ascii) :
  PreservationMetric.one_of ".," c = true -> c = "."%char \/ c = ","%char.
Proof.
  unfold PreservationMetric.one_of, char_in. simpl.
  destruct (Ascii.eqb_spec c "."); [left; assumption |].
  destruct (Ascii.eqb_spec c ","); [right; assumption |]. discriminate.
Qed.

Lemma one_of_percent (c : ascii) :
  PreservationMetric.one_of "%" c = true -> c = "%"%char.
Proof.
  unfold PreservationMetric.one_of, char_in. simpl.
  destruct (Ascii.eqb_spec c "%"); [intros _; assumption | discriminate].
Qed.

(** The tokens [_extract_numbers] returns are numbers. *)
Lemma extract_numbers_shape (text : string) :
  Forall number_token (PreservationMetric._extract_numbers text).
Proof.
  unfold PreservationMetric._extract_numbers.
  eapply Forall_impl; [| apply findall_sound].
  intros tok L. unfold PreservationMetric.pattern in L. simpl in L.
  destruct L as [b1 [l1 [E1 [B1 [ds [l2 [E2 [D [fr [l3 [E3 [F [pc [b2 [E4 [P B2]]]]]]]]]]]]]]]].
  subst b1 b2. rewrite app_nil_r in E4. subst l3 l2 l1. simpl in E1.
  exists ds, fr, pc. split; [exact E1 |]. split; [exact D |]. split.
  - destruct F as [-> | [sp [fs [-> [[c [-> C]] Fs]]]]]; [left; reflexivity |].
    right. exists c, fs. split; [reflexivity |]. split; [apply one_of_sep, C | exact Fs].
  - destruct P as [-> | [c [-> C]]]; [left; reflexivity |].
    right. rewrite (one_of_percent c C). reflexivity.
Qed.

End MatcherFacts.

(* ================================================================= *)
(** ** Preservation                                                   *)
(* ================================================================= *)

Section PreservationFacts.
Import Py PreservationMetric.
Local Open Scope Q_scope.

Lemma filter_length_le {A : Type} (f : A -> bool) (l : list A) :
  (List.length (filter f l) <= List.length l)%nat.
Proof.
  induction l as [| x l IH]; simpl; [lia |].
  destruct (f x); simpl; lia.
Qed.

Lemma inter_shared (src tgt : list string) :
  List.length (inter (set src) (set tgt)) = shared src tgt.
Proof.
  unfold inter, shared, set. f_equal. apply filter_ext. intro x.
  destruct (in_dec string_dec x (nodup string_dec tgt)) as [Hin | Hout].
  - symmetry. apply existsb_exists. exists x.
    split; [apply nodup_In in Hin; exact Hin | apply String.eqb_refl].
  - symmetry. apply not_true_is_false. intro E. apply Hout.
    apply existsb_exists in E. destruct E as [y [Hy E]].
    apply String.eqb_eq in E. subst y. apply nodup_In, Hy.
Qed.

Lemma shared_le_card (src tgt : list string) : (shared src tgt <= card src)%nat.
Proof.
  apply filter_length_le.
Qed.

Lemma card_pos (src : list string) : src <> [] -> card src <> O.
Proof.
  intros Hne E. destruct src as [| x src]; [congruence |].
  unfold card in E. apply length_zero_iff_nil in E.
  assert (H : In x (nodup string_dec (x :: src))) by (apply nodup_In; left; reflexivity).
  rewrite E in H. exact H.
Qed.

(** The value of [_calculate_preservation_score] and its range. *)
Lemma calculate_preservation_score_spec (src tgt : list string) :
  exists v, _calculate_preservation_score src tgt = Ok v
            /\ v == preservation_ratio src tgt /\ 0 <= v /\ v <= 100.
Proof.
  unfold _calculate_preservation_score, preservation_ratio.
  destruct src as [| x rest] eqn:E.
  - exists 100.0. split; [reflexivity |]. decimals. repeat split; lra.
  - rewrite <- E. assert (Hne : src <> []) by (subst src; discriminate).
    pose proof (card_pos src Hne) as Hc.
    rewrite inter_shared. change (List.length (set src)) with (card src).
    destruct (Nat.ltb_spec 0 (card src)) as [_ | L]; [| lia].
    pose proof (float_of_nat_pos _ Hc) as P.
    rewrite truediv_Ok by lra. simpl bind.
    eexists. split; [reflexivity |]. split; [decimals; reflexivity |].
    destruct (Qdiv_unit (float_of_nat (shared src tgt)) (float_of_nat (card src)) P
                (float_of_nat_nonneg _) (float_of_nat_le _ _ (shared_le_card src tgt)))
      as [L0 L1].
    decimals. split; nra.
Qed.

(** The decimal notation of a number begins with a digit. *)
Lemma str_of_nat_digit (n : nat) :
  exists d rest, str_of_nat n = String d rest /\ isdecimal d = true.
Proof.
  unfold str_of_nat. destruct (Nat.to_uint n); simpl; eexists; eexists;
    (split; [reflexivity | reflexivity]).
Qed.

Lemma numbers_warning_not_entities (k : nat) : numbers_warning k <> entities_warning.
Proof.
  unfold numbers_warning, entities_warning.
  destruct (str_of_nat_digit k) as [d [rest [E D]]]. rewrite E.
  simpl. intro H. injection H as H. subst d. discriminate D.
Qed.

Lemma numbers_warning_not_punctuation (k : nat) : numbers_warning k <> punctuation_warning.
Proof.
  unfold numbers_warning, punctuation_warning. simpl. discriminate.
Qed.

(** The three checks: the component each appends and the warning it may
    append. *)
Lemma numbers_check_spec (source_text target_text : string) (scores : list (string * Q))
      (warnings : list string) :
  exists v,
    numbers_check source_text target_text (scores, warnings)
    = Ok (app scores [("numbers", v)],
          app warnings
              (if Qlt_bool v 100.0
               then [numbers_warning
                       (List.length (_extract_numbers source_text)
                        - shared (_extract_numbers source_text)
                                 (_extract_numbers target_text))]
               else []))
    /\ v == preservation_ratio (_extract_numbers source_text) (_extract_numbers target_text)
    /\ 0 <= v /\ v <= 100.
Proof.
  unfold numbers_check.
  destruct (calculate_preservation_score_spec (_extract_numbers source_text)
              (_extract_numbers target_text)) as [v [E [Hv [L0 L1]]]].
  exists v. rewrite E. simpl bind. rewrite inter_shared.
  split; [| auto].
  destruct (Qlt_bool v 100.0); [reflexivity | rewrite app_nil_r; reflexivity].
Qed.

Lemma entities_check_spec (source_text target_text : string) (scores : list (string * Q))
      (warnings : list string) :
  exists v,
    entities_check source_text target_text (scores, warnings)
    = Ok (app scores [("entities", v)],
          app warnings (if Qlt_bool v 80.0 then [entities_warning] else []))
    /\ v == preservation_ratio (_extract_capitalized_words source_text)
                               (_extract_capitalized_words target_text)
    /\ 0 <= v /\ v <= 100.
Proof.
  unfold entities_check.
  destruct (calculate_preservation_score_spec (_extract_capitalized_words source_text)
              (_extract_capitalized_words target_text)) as [v [E [Hv [L0 L1]]]].
  exists v. rewrite E. simpl bind.
  split; [| auto].
  destruct (Qlt_bool v 80.0); [reflexivity | rewrite app_nil_r; reflexivity].
Qed.

Lemma len_chars (s : string) : len s = List.length (chars s).
Proof.
  unfold len, chars. induction s as [| c s IH]; simpl; [reflexivity | rewrite IH; reflexivity].
Qed.

Lemma punctuation_ratio_spec (sp tp : string) :
  exists v,
    (if truthy sp
     then q <- truediv (float_of_nat (List.length (filter (fun c => char_in c tp)
                                                          (chars sp))))
                       (float_of_nat (len sp)) ;;
          Ok (q * 100.0)
     else Ok 100.0) = Ok v /\ 0 <= v /\ v <= 100.
Proof.
  destruct sp as [| c sp'] eqn:E.
  - simpl. exists 100.0. split; [reflexivity |]. decimals. split; lra.
  - rewrite <- E. assert (Hl : len sp <> O) by (subst sp; discriminate).
    replace (truthy sp) with true by (subst sp; reflexivity).
    pose proof (float_of_nat_pos _ Hl) as P.
    rewrite truediv_Ok by lra. simpl bind.
    eexists. split; [reflexivity |].
    assert (Hle : (List.length (filter (fun c0 => char_in c0 tp) (chars sp)) <= len sp)%nat)
      by (rewrite len_chars; apply filter_length_le).
    destruct (Qdiv_unit _ _ P (float_of_nat_nonneg _) (float_of_nat_le _ _ Hle)) as [L0 L1].
    decimals. split; nra.
Qed.

Lemma punctuation_check_spec (source_text target_text : string) (scores : list (string * Q))
      (warnings : list string) :
  exists v,
    punctuation_check source_text target_text (scores, warnings)
    = Ok (app scores [("punctuation", v)],
          app warnings (if Qlt_bool v 80.0 then [punctuation_warning] else []))
    /\ 0 <= v /\ v <= 100.
Proof.
  unfold punctuation_check.
  destruct (punctuation_ratio_spec (_extract_punctuation_pattern source_text)
              (_extract_punctuation_pattern target_text)) as [v [E [L0 L1]]].
  exists v. rewrite E. simpl bind.
  split; [| auto].
  destruct (Qlt_bool v 80.0); [reflexivity | rewrite app_nil_r; reflexivity].
Qed.

(** The checks that follow the numbers check. *)
Lemma later_checks_spec (self : t) (source_text target_text : string)
      (scores : list (string * Q)) (warnings : list string) :
  exists scores' warnings',
    (st <- (if check_punctuation self
            then punctuation_check source_text target_text (scores, warnings)
            else Ok (scores, warnings)) ;;
     (if check_entities self
      then entities_check source_text target_text st
      else Ok st))
    = Ok (app scores scores', app warnings warnings')
    /\ Forall (fun kv => 0 <= snd kv /\ snd kv <= 100) scores'
    /\ Forall (fun w => w = punctuation_warning \/ w = entities_warning) warnings'.
Proof.
  destruct (punctuation_check_spec source_text target_text scores warnings)
    as [vp [Ep [Lp0 Lp1]]].
  assert (Wp : Forall (fun w => w = punctuation_warning \/ w = entities_warning)
                      (if Qlt_bool vp 80.0 then [punctuation_warning] else []))
    by (destruct (Qlt_bool vp 80.0);
        [apply Forall_cons; [left; reflexivity | constructor] | constructor]).
  destruct (check_punctuation self).
  - rewrite Ep. cbn [bind].
    destruct (entities_check_spec source_text target_text (app scores [("punctuation", vp)])
                (app warnings (if Qlt_bool vp 80.0 then [punctuation_warning] else [])))
      as [ve [Ee [_ [Le0 Le1]]]].
    destruct (check_entities self).
    + rewrite Ee. rewrite <- !app_assoc. eexists. eexists.
      split; [reflexivity |]. split.
      * repeat constructor; assumption.
      * apply Forall_app. split; [exact Wp |].
        destruct (Qlt_bool ve 80.0);
          [apply Forall_cons; [right; reflexivity | constructor] | constructor].
    + eexists. eexists. split; [reflexivity |]. split.
      * repeat constructor; assumption.
      * exact Wp.
  - cbn [bind].
    destruct (entities_check_spec source_text target_text scores warnings)
      as [ve [Ee [_ [Le0 Le1]]]].
    destruct (check_entities self).
    + rewrite Ee. eexists. eexists. split; [reflexivity |]. split.
      * repeat constructor; assumption.
      * destruct (Qlt_bool ve 80.0);
          [apply Forall_cons; [right; reflexivity | constructor] | constructor].
    + exists [], []. rewrite !app_nil_r. repeat split; constructor.
Qed.

(** The three checks return, with every component between 0 and 100. *)
Lemma checks_spec (self : t) (source_text target_text : string) :
  exists scores warnings,
    checks self source_text target_text = Ok (scores, warnings)
    /\ Forall (fun kv => 0 <= snd kv /\ snd kv <= 100) scores.
Proof.
  unfold checks.
  destruct (check_numbers self).
  - destruct (numbers_check_spec source_text target_text [] []) as [v [E [_ [L0 L1]]]].
    rewrite E. cbn [bind].
    match goal with
    | |- context [punctuation_check _ _ (?sc, ?ws)] =>
        destruct (later_checks_spec self source_text target_text sc ws)
          as [sc' [ws' [E' [F _]]]];
        exists (app sc sc'), (app ws ws')
    end.
    split; [exact E' |].
    apply Forall_app. split; [| exact F].
    constructor; [split; assumption | constructor].
  - cbn [bind].
    destruct (later_checks_spec self source_text target_text [] []) as [sc' [ws' [E' [F _]]]].
    exists (app [] sc'), (app [] ws'). split; [exact E' | exact F].
Qed.

(** [evaluate] on a non-blank target, from the result of the checks. *)
Lemma evaluate_from_checks (self : t) (source_text target_text : string)
      (scores : list (string * Q)) (warnings : list string) :
  blank target_text = false ->
  checks self source_text target_text = Ok (scores, warnings) ->
  exists o v,
    evaluate self source_text target_text = Ok o
    /\ score o = Some v
    /\ v == match scores with
            | [] => 100
            | _ => Qsum (map snd scores) / float_of_nat (List.length scores)
            end
    /\ warning o = match warnings with [] => None | _ => Some (join "; " warnings) end
    /\ details o = [("component_scores", DScores scores)].
Proof.
  intros Hb E. unfold evaluate. rewrite Hb, E. cbn [bind].
  destruct scores as [| kv rest] eqn:S.
  - cbn [bind]. eexists. eexists. split; [reflexivity |].
    split; [reflexivity |]. split; [decimals; reflexivity |]. split; reflexivity.
  - rewrite <- S. assert (Hl : List.length scores <> O) by (subst scores; discriminate).
    pose proof (float_of_nat_pos _ Hl) as P.
    replace (match scores with
             | [] => Ok 100.0
             | _ :: _ => truediv (sum (map snd scores)) (float_of_nat (List.length scores))
             end)
      with (truediv (sum (map snd scores)) (float_of_nat (List.length scores)))
      by (subst scores; reflexivity).
    rewrite truediv_Ok by lra. cbn [bind].
    eexists. eexists. split; [reflexivity |].
    split; [reflexivity |]. split; [rewrite sum_Qsum; reflexivity |]. split; reflexivity.
Qed.

(** The numbers component.  On a non-blank target, with the numbers
    check enabled, the numbers component is
    [|set(source numbers) & set(target numbers)| / |set(source numbers)| * 100],
    and 100 when the source has no number; the numbers are the matches
    of the pattern (an integer or a decimal with an optional percent
    sign, between word boundaries); the numbers warning is among the
    warnings exactly when the component is below 100, and the count it
    names is the length of the list of source numbers minus the number of
    distinct shared numbers.  In the example of the specification the
    component is 100. *)
Theorem preservation_numbers_component (self : t) (source_text target_text : string) :
  blank target_text = false -> check_numbers self = true ->
  exists o scores warnings v,
    evaluate self source_text target_text = Ok o
    /\ details o = [("component_scores", DScores scores)]
    /\ warning o = match warnings with [] => None | _ => Some (join "; " warnings) end
    /\ dict_get "numbers" scores = Some v
    /\ v == preservation_ratio (_extract_numbers source_text) (_extract_numbers target_text)
    /\ (_extract_numbers source_text = [] -> v == 100)
    /\ (v < 100 ->
        In (numbers_warning (List.length (_extract_numbers source_text)
                             - shared (_extract_numbers source_text)
                                      (_extract_numbers target_text))) warnings)
    /\ ((exists k, In (numbers_warning k) warnings) -> v < 100)
    /\ Forall number_token (_extract_numbers source_text)
    /\ Forall number_token (_extract_numbers target_text).
Proof.
  intros Hb Hn.
  destruct (numbers_check_spec source_text target_text [] []) as [v [E [Hv _]]].
  match type of E with
  | _ = Ok (?sc, ?ws) =>
      destruct (later_checks_spec self source_text target_text sc ws)
        as [sc' [ws' [E' [_ W]]]]
  end.
  assert (C : checks self source_text target_text
              = Ok (app (app [] [("numbers", v)]) sc',
                    app (app [] (if Qlt_bool v 100.0
                                 then [numbers_warning
                                         (List.length (_extract_numbers source_text)
                                          - shared (_extract_numbers source_text)
                                                   (_extract_numbers target_text))]
                                 else [])) ws')).
  { unfold checks. rewrite Hn, E. cbn [bind]. exact E'. }
  destruct (evaluate_from_checks self source_text target_text _ _ Hb C)
    as [o [total [Eo [_ [_ [Wo Do]]]]]].
  eexists. eexists. eexists. exists v.
  split; [exact Eo |]. split; [exact Do |]. split; [exact Wo |].
  split; [reflexivity |]. split; [exact Hv |].
  split; [| split; [| split; [| split; apply extract_numbers_shape]]].
  - intro N. rewrite Hv, N. reflexivity.
  - intro L. apply in_or_app. left. simpl.
    assert (B : Qlt_bool v 100.0 = true) by (apply Qlt_bool_true; decimals; exact L).
    rewrite B. left. reflexivity.
  - intros [k Hk]. apply in_app_or in Hk. destruct Hk as [Hk | Hk].
    + simpl in Hk. destruct (Qlt_bool v 100.0) eqn:B; [| contradiction].
      apply Qlt_bool_true in B. revert B. decimals. tauto.
    + exfalso. rewrite Forall_forall in W. destruct (W _ Hk) as [P | P].
      * exact (numbers_warning_not_punctuation k P).
      * exact (numbers_warning_not_entities k P).
Qed.

Lemma preservation_numbers_component_witness :
  _extract_numbers "The price is $100 and 50 cents." = ["100"; "50"]
  /\ _extract_numbers "El precio es $100 y 50 centavos." = ["100"; "50"]
  /\ exists o scores warnings v,
      evaluate default "The price is $100 and 50 cents."
                       "El precio es $100 y 50 centavos." = Ok o
      /\ details o = [("component_scores", DScores scores)]
      /\ warning o = match warnings with [] => None | _ => Some (join "; " warnings) end
      /\ dict_get "numbers" scores = Some v
      /\ v == 100
      /\ ~ (exists k, In (numbers_warning k) warnings).
Proof.
  split; [reflexivity |]. split; [reflexivity |].
  destruct (preservation_numbers_component default "The price is $100 and 50 cents."
              "El precio es $100 y 50 centavos." eq_refl eq_refl)
    as [o [scores [warnings [v [Eo [Do [Wo [Dv [Hv [_ [_ [Hw _]]]]]]]]]]]].
  exists o, scores, warnings, v.
  assert (V : v == 100) by (rewrite Hv; vm_compute; reflexivity).
  repeat (split; [assumption |]).
  intro K. apply Hw in K. rewrite V in K. exact (Qlt_irrefl _ K).
Defined.

(** The count the numbers warning names, against the number of missing
    numbers: it exceeds it by the number of repeated occurrences in the
    source. *)
Lemma shared_missing (src tgt : list string) :
  card src = (shared src tgt + List.length (missing src tgt))%nat.
Proof.
  unfold card, shared, missing.
  induction (nodup string_dec src) as [| x l IH]; [reflexivity |]. simpl.
  destruct (existsb (String.eqb x) tgt); simpl; lia.
Qed.

Lemma card_le_length (src : list string) : (card src <= List.length src)%nat.
Proof.
  unfold card. apply NoDup_incl_length; [apply NoDup_nodup |].
  intros x Hx. apply nodup_In in Hx. exact Hx.
Qed.

Lemma named_count (src tgt : list string) :
  (List.length src - shared src tgt
   = (List.length src - card src) + List.length (missing src tgt))%nat.
Proof.
  pose proof (shared_missing src tgt). pose proof (card_le_length src). lia.
Qed.

(** C8.  The count that the numbers warning names is not the count of
    missing numbers when the source repeats a number: it is the length
    of the list of source numbers minus the number of distinct shared
    numbers.  For the source "5 5 7" and the target "5 5" the numbers
    are 5, 5, 7 and 5, 5; the component is [1 / 2 * 100 = 50], only 7
    is missing, and the warning states that 2 numbers are not
    preserved. *)
Theorem preservation_warning_overcounts :
  _extract_numbers "5 5 7" = ["5"; "5"; "7"]
  /\ _extract_numbers "5 5" = ["5"; "5"]
  /\ missing (_extract_numbers "5 5 7") (_extract_numbers "5 5") = ["7"]
  /\ exists o v,
      evaluate default "5 5 7" "5 5" = Ok o
      /\ details o = [("component_scores",
                       DScores [("numbers", v); ("punctuation", 100.0);
                                ("entities", 100.0)])]
      /\ v == 50
      /\ warning o = Some "Potential content loss detected: 2 number(s) not preserved".
Proof.
  split; [reflexivity |]. split; [reflexivity |]. split; [reflexivity |].
  eexists. eexists. split; [vm_compute; reflexivity |].
  split; [reflexivity |]. split; reflexivity.
Qed.

End PreservationFacts.

(* ================================================================= *)
(** ** Range of the scores                                            *)
(* ================================================================= *)

Section RangeFacts.
Import Py.
Local Open Scope Q_scope.

Lemma max_range (lo hi a b : Q) :
  lo <= a -> a <= hi -> lo <= b -> b <= hi -> lo <= max a b /\ max a b <= hi.
Proof.
  intros. unfold max. destruct (Qlt_bool a b); split; assumption.
Qed.

Lemma clamp_range (x : Q) : 0 <= max 0.0 (min 50.0 x) /\ max 0.0 (min 50.0 x) <= 100.
Proof.
  unfold max, min.
  destruct (Qlt_bool x 50.0) eqn:A.
  - apply Qlt_bool_true in A. revert A. decimals. intro A.
    destruct (Qlt_bool 0.0 x) eqn:B.
    + apply Qlt_bool_true in B. revert B. decimals. intro B. split; lra.
    + decimals. split; lra.
  - replace (Qlt_bool 0.0 50.0) with true by reflexivity. decimals. split; lra.
Qed.

(** *** LengthRatio *)

Lemma ratio_score_range (self : LengthRatioMetric.t) (ratio s : Q) :
  LengthRatioMetric.ratio_score self ratio = Ok s -> 0 <= s /\ s <= 100.
Proof.
  unfold LengthRatioMetric.ratio_score.
  destruct (Qle_bool (LengthRatioMetric.min_ratio self) ratio) eqn:Blo;
    [destruct (Qle_bool ratio (LengthRatioMetric.max_ratio self)) eqn:Bhi |]; simpl andb; cbv iota.
  - apply Qle_bool_iff in Blo. apply Qle_bool_iff in Bhi.
    destruct (Qlt_bool ratio 1.0) eqn:B1.
    + apply Qlt_bool_true in B1. revert B1. decimals. intro B1.
      rewrite truediv_Ok by (decimals; lra). cbn [bind]. intro E. injection E as <-.
      assert (P : 0 < 1 - LengthRatioMetric.min_ratio self) by lra.
      destruct (Qdiv_unit (ratio - LengthRatioMetric.min_ratio self)
                          (1 - LengthRatioMetric.min_ratio self) P) as [L0 L1]; [lra | lra |].
      apply max_range; decimals; try lra; nra.
    + apply Qlt_bool_false in B1. revert B1. decimals. intro B1.
      destruct (Qeq_bool (LengthRatioMetric.max_ratio self - 1.0) 0) eqn:Z.
      * apply Qeq_bool_iff in Z. rewrite (truediv_Raise _ _ Z). cbn [bind]. discriminate.
      * apply Qeq_bool_false in Z.
        rewrite truediv_Ok by exact Z. cbn [bind]. intro E. injection E as <-.
        assert (P : 0 < LengthRatioMetric.max_ratio self - 1).
        { destruct (Qlt_le_dec 1 (LengthRatioMetric.max_ratio self)) as [G | G]; [lra |].
          exfalso. apply Z. lra. }
        destruct (Qdiv_unit (LengthRatioMetric.max_ratio self - ratio)
                            (LengthRatioMetric.max_ratio self - 1) P) as [L0 L1]; [lra | lra |].
        apply max_range; decimals; try lra; nra.
  - destruct (Qlt_bool ratio (LengthRatioMetric.min_ratio self));
      [destruct (truediv ratio (LengthRatioMetric.min_ratio self))
      | destruct (truediv (LengthRatioMetric.max_ratio self) ratio)];
      cbn [bind]; intro E; try discriminate E; injection E as <-; apply clamp_range.
  - destruct (Qlt_bool ratio (LengthRatioMetric.min_ratio self));
      [destruct (truediv ratio (LengthRatioMetric.min_ratio self))
      | destruct (truediv (LengthRatioMetric.max_ratio self) ratio)];
      cbn [bind]; intro E; try discriminate E; injection E as <-; apply clamp_range.
Qed.

Lemma length_ratio_range (self : LengthRatioMetric.t) (source_text target_text : string)
      (o : MetricOutcome) :
  LengthRatioMetric.evaluate self source_text target_text = Ok o -> score_in_range o.
Proof.
  unfold LengthRatioMetric.evaluate, score_in_range.
  destruct (len source_text =? 0)%nat.
  { intro E. injection E as <-. exists 0.0. split; [reflexivity |]. decimals. split; lra. }
  destruct (len target_text =? 0)%nat.
  { intro E. injection E as <-. exists 0.0. split; [reflexivity |]. decimals. split; lra. }
  destruct (truediv (float_of_nat (len target_text)) (float_of_nat (len source_text)))
    as [ratio | e]; cbn [bind]; [| discriminate].
  destruct (LengthRatioMetric.ratio_score self ratio) as [s | e] eqn:R; cbn [bind];
    [| discriminate].
  intro E. injection E as <-. exists s. split; [reflexivity |].
  apply (ratio_score_range self ratio s R).
Qed.

(** Away from [max_ratio = 1] the metric returns. *)
Lemma ratio_score_total (self : LengthRatioMetric.t) (ratio : Q) :
  0 < ratio -> ~ LengthRatioMetric.max_ratio self == 1 ->
  exists s, LengthRatioMetric.ratio_score self ratio = Ok s.
Proof.
  intros Hpos Hne. unfold LengthRatioMetric.ratio_score.
  destruct (Qle_bool (LengthRatioMetric.min_ratio self) ratio) eqn:Blo;
    [destruct (Qle_bool ratio (LengthRatioMetric.max_ratio self)) eqn:Bhi |]; simpl andb; cbv iota.
  - apply Qle_bool_iff in Blo. apply Qle_bool_iff in Bhi.
    destruct (Qlt_bool ratio 1.0) eqn:B1.
    + apply Qlt_bool_true in B1. revert B1. decimals. intro B1.
      rewrite truediv_Ok by (decimals; lra). cbn [bind]. eexists. reflexivity.
    + apply Qlt_bool_false in B1.
      rewrite truediv_Ok; [cbn [bind]; eexists; reflexivity |].
      intro Z. apply Hne. lra.
  - apply Qle_bool_false in Bhi.
    replace (Qlt_bool ratio (LengthRatioMetric.min_ratio self)) with false
      by (symmetry; apply Qlt_bool_false; apply Qle_bool_iff, Blo).
    rewrite truediv_Ok by lra. cbn [bind]. eexists. reflexivity.
  - apply Qle_bool_false in Blo. apply Qlt_bool_true in Blo as B. rewrite B.
    rewrite truediv_Ok by lra. cbn [bind]. eexists. reflexivity.
Qed.

Lemma length_ratio_total (self : LengthRatioMetric.t) (source_text target_text : string) :
  ~ LengthRatioMetric.max_ratio self == 1 ->
  exists o, LengthRatioMetric.evaluate self source_text target_text = Ok o.
Proof.
  intro Hne.
  destruct (Nat.eq_dec (len source_text) 0) as [Zs | Ns].
  { unfold LengthRatioMetric.evaluate. rewrite Zs. simpl. eexists. reflexivity. }
  destruct (Nat.eq_dec (len target_text) 0) as [Zt | Nt].
  { unfold LengthRatioMetric.evaluate. rewrite Zt.
    destruct (len source_text =? 0)%nat; eexists; reflexivity. }
  rewrite (evaluate_nonempty self _ _ Ns Nt).
  destruct (ratio_score_total self (length_ratio source_text target_text)
              (length_ratio_pos _ _ Ns Nt) Hne) as [s E].
  rewrite E. cbn [bind]. eexists. reflexivity.
Qed.

(** *** Repetition *)

Lemma calculate_repetition_score_range (ngrams : list RepetitionMetric.ngram) :
  ngrams <> [] ->
  exists v, RepetitionMetric._calculate_repetition_score ngrams = Ok v /\ 0 <= v /\ v <= 1.
Proof.
  intro Hne. destruct (calculate_repetition_score_spec ngrams Hne) as [v [E Hv]].
  exists v. split; [exact E |].
  assert (Hlen : List.length ngrams <> O) by (destruct ngrams; [congruence | discriminate]).
  pose proof (float_of_nat_pos _ Hlen) as P.
  destruct (Qdiv_unit (float_of_nat (distinct ngrams)) (float_of_nat (List.length ngrams)) P
              (float_of_nat_nonneg _) (float_of_nat_le _ _ (distinct_le_length ngrams)))
    as [D0 D1].
  destruct (Qdiv_unit (float_of_nat (max_frequency ngrams))
              (float_of_nat (List.length ngrams)) P
              (float_of_nat_nonneg _) (float_of_nat_le _ _ (max_frequency_le_length ngrams)))
    as [F0 F1].
  assert (U : 0 <= uniqueness_repetition ngrams /\ uniqueness_repetition ngrams <= 1)
    by (unfold uniqueness_repetition; split; lra).
  assert (F : 0 <= frequency_factor ngrams /\ frequency_factor ngrams <= 1).
  { unfold frequency_factor. split.
    - apply Q.min_glb; [exact F0 | lra].
    - apply Q.le_min_r. }
  rewrite Hv. destruct (1 <? max_frequency ngrams)%nat; [| exact U].
  split.
  - apply Qle_trans with (uniqueness_repetition ngrams); [apply U | apply Q.le_max_l].
  - apply Q.max_lub; [apply U | apply F].
Qed.

Lemma size_step_total (text : string) (st : list (string * Q) * Q) (n : nat) :
  0 <= snd st /\ snd st <= 1 ->
  exists st', RepetitionMetric.size_step text st n = Ok st' /\ 0 <= snd st' /\ snd st' <= 1.
Proof.
  destruct st as [scores mx]. simpl snd. intro I.
  unfold RepetitionMetric.size_step.
  destruct (RepetitionMetric._get_ngrams text n) as [| g rest] eqn:G.
  - eexists. split; [reflexivity | exact I].
  - destruct (calculate_repetition_score_range (g :: rest)) as [v [E R]]; [discriminate |].
    rewrite E. cbn [bind]. eexists. split; [reflexivity |]. simpl snd.
    apply max_range; tauto.
Qed.

Lemma size_loop_total (text : string) (sizes : list nat) (st : list (string * Q) * Q) :
  0 <= snd st /\ snd st <= 1 ->
  exists st', RepetitionMetric.size_loop text st sizes = Ok st'
              /\ 0 <= snd st' /\ snd st' <= 1.
Proof.
  revert st. induction sizes as [| n sizes IH]; intros st I; simpl.
  - eexists. split; [reflexivity | exact I].
  - destruct (size_step_total text st n I) as [st1 [E I1]].
    rewrite E. cbn [bind]. apply IH, I1.
Qed.

Lemma repetition_total_range (self : RepetitionMetric.t) (source_text target_text : string) :
  exists o, RepetitionMetric.evaluate self source_text target_text = Ok o
            /\ score_in_range o.
Proof.
  unfold RepetitionMetric.evaluate, score_in_range.
  destruct (RepetitionMetric.blank target_text).
  - eexists. split; [reflexivity |]. exists 0.0. split; [reflexivity |]. split; lra.
  - destruct (size_loop_total target_text (RepetitionMetric.sizes self) ([], 0.0))
      as [[scores mx] [E [L0 L1]]]; [simpl; split; lra |].
    rewrite E. cbn [bind]. simpl snd in *. eexists. split; [reflexivity |].
    eexists. split; [reflexivity |]. split; nra.
Qed.

(** *** Preservation *)

Lemma Qsum_range (l : list (string * Q)) :
  Forall (fun kv => 0 <= snd kv /\ snd kv <= 100) l ->
  0 <= Qsum (map snd l) /\ Qsum (map snd l) <= 100 * float_of_nat (List.length l).
Proof.
  induction 1 as [| kv l [L0 L1] _ [S0 S1]].
  - split; vm_compute; discriminate.
  - change (Qsum (map snd (kv :: l))) with (snd kv + Qsum (map snd l)).
    change (List.length (kv :: l)) with (S (List.length l)).
    assert (N : float_of_nat (S (List.length l)) == float_of_nat (List.length l) + 1).
    { unfold float_of_nat. rewrite Nat2Z.inj_succ. unfold Z.succ.
      rewrite inject_Z_plus. reflexivity. }
    rewrite N. split; lra.
Qed.

Lemma preservation_total_range (self : PreservationMetric.t)
      (source_text target_text : string) :
  exists o, PreservationMetric.evaluate self source_text target_text = Ok o
            /\ score_in_range o.
Proof.
  destruct (PreservationMetric.blank target_text) eqn:B.
  - unfold PreservationMetric.evaluate. rewrite B. eexists. split; [reflexivity |].
    exists 0.0. split; [reflexivity |]. split; lra.
  - destruct (checks_spec self source_text target_text) as [scores [ws [C F]]].
    destruct (evaluate_from_checks self source_text target_text scores ws B C)
      as [o [v [E [Sv [Hv _]]]]].
    exists o. split; [exact E |]. exists v. split; [exact Sv |].
    rewrite Hv. destruct scores as [| kv rest] eqn:S; [split; lra |].
    rewrite <- S in *. assert (Hl : List.length scores <> O) by (subst scores; discriminate).
    pose proof (float_of_nat_pos _ Hl) as P.
    destruct (Qsum_range scores F) as [S0 S1].
    split.
    + apply Qle_shift_div_l; [exact P | lra].
    + apply Qle_shift_div_r; [exact P | lra].
Qed.

(** *** LanguageMatch *)

Lemma language_match_range (detect_langs : string -> result LanguageDetectionMetric.lang_probs)
      (self : LanguageDetectionMetric.t) (source_text target_text target_lang : string)
      (o : MetricOutcome) :
  (forall lang confidence rest,
      detect_langs target_text = Ok ((lang, confidence) :: rest) ->
      0 <= confidence /\ confidence <= 1) ->
  LanguageDetectionMetric.evaluate detect_langs self source_text target_text target_lang = Ok o ->
  score_in_range o.
Proof.
  intros Hp. unfold LanguageDetectionMetric.evaluate, score_in_range.
  destruct (LanguageDetectionMetric.blank target_text).
  { intro E. injection E as <-. exists 0.0. split; [reflexivity |]. split; lra. }
  destruct (detect_langs target_text) as [[| [lang confidence] rest] | e] eqn:D.
  - intro E. injection E as <-. exists 0.0. split; [reflexivity |]. split; lra.
  - destruct (Hp lang confidence rest eq_refl) as [C0 C1].
    intro E. injection E as <-. eexists. split; [reflexivity |].
    destruct (String.eqb lang target_lang); [| split; lra].
    destruct (Qle_bool (LanguageDetectionMetric.confidence_threshold self) confidence);
      split; lra.
  - destruct e; try discriminate.
    intro E. injection E as <-. exists 50.0. split; [reflexivity |]. split; lra.
Qed.

(** The metric returns whenever the detector fails, if at all, with
    [LangDetectException]. *)
Lemma language_match_total (detect_langs : string -> result LanguageDetectionMetric.lang_probs)
      (self : LanguageDetectionMetric.t) (source_text target_text target_lang : string) :
  (forall e, detect_langs target_text = Raise e -> exists msg, e = LangDetectException msg) ->
  exists o,
    LanguageDetectionMetric.evaluate detect_langs self source_text target_text target_lang
    = Ok o.
Proof.
  intro Hd. unfold LanguageDetectionMetric.evaluate.
  destruct (LanguageDetectionMetric.blank target_text); [eexists; reflexivity |].
  destruct (detect_langs target_text) as [[| [lang confidence] rest] | e] eqn:D;
    try (eexists; reflexivity).
  destruct (Hd e eq_refl) as [msg ->]. eexists. reflexivity.
Qed.

(** *** SemanticSimilarity *)

Lemma sq_norm_nonneg (v : SemanticSimilarityMetric.vector) : 0 <= sq_norm v.
Proof.
  unfold sq_norm. induction v as [| x v IH]; simpl.
  - apply Qle_refl.
  - nra.
Qed.

Lemma square_le (x y : Q) : 0 <= y -> x * x <= y * y -> x <= y.
Proof.
  intros Hy H. destruct (Qlt_le_dec y x) as [L | L]; [| exact L].
  exfalso. nra.
Qed.

Lemma Qsquare_nonneg (t : Q) : 0 <= t * t.
Proof.
  nra.
Qed.

Lemma cauchy_schwarz_step (a b d A B : Q) :
  0 <= A -> 0 <= B -> d * d <= A * B ->
  (a * b + d) * (a * b + d) <= (a * a + A) * (b * b + B).
Proof.
  intros A0 B0 IH.
  assert (K : 2 * (a * b * d) <= a * a * B + A * (b * b)).
  { apply square_le; [nra |].
    assert (S : 0 <= (a * b) * (a * b)) by nra.
    assert (M : (d * d) * ((a * b) * (a * b)) <= (A * B) * ((a * b) * (a * b)))
      by (apply Qmult_le_compat_r; [exact IH | exact S]).
    pose proof (Qsquare_nonneg (a * a * B - A * (b * b))) as N.
    nra. }
  nra.
Qed.

(** The Cauchy-Schwarz inequality for [np.dot]. *)
Lemma dot_square_le (vec1 vec2 : SemanticSimilarityMetric.vector) (d : Q) :
  SemanticSimilarityMetric.dot vec1 vec2 = Ok d -> d * d <= sq_norm vec1 * sq_norm vec2.
Proof.
  revert vec2 d. induction vec1 as [| a v1 IH]; intros [| b v2] d; simpl; try discriminate.
  - intro E. injection E as <-. unfold sq_norm. simpl. lra.
  - destruct (SemanticSimilarityMetric.dot v1 v2) as [d0 |] eqn:D; cbn [bind]; [| discriminate].
    intro E. injection E as <-. specialize (IH v2 d0 D).
    change (sq_norm (a :: v1)) with (a * a + sq_norm v1).
    change (sq_norm (b :: v2)) with (b * b + sq_norm v2).
    apply cauchy_schwarz_step; [apply sq_norm_nonneg | apply sq_norm_nonneg | exact IH].
Qed.

Lemma cosine_similarity_le_1 (norm : SemanticSimilarityMetric.vector -> Q)
      (vec1 vec2 : SemanticSimilarityMetric.vector) (similarity : Q) :
  norm_covers norm vec1 -> norm_covers norm vec2 ->
  SemanticSimilarityMetric._cosine_similarity norm vec1 vec2 = Ok similarity ->
  similarity <= 1.
Proof.
  intros [N1 C1] [N2 C2]. unfold SemanticSimilarityMetric._cosine_similarity.
  destruct (SemanticSimilarityMetric.dot vec1 vec2) as [d |] eqn:D; cbn [bind]; [| discriminate].
  destruct (Qeq_bool (norm vec1) 0) eqn:Z1; simpl orb; cbv iota.
  { intro E. injection E as <-. lra. }
  destruct (Qeq_bool (norm vec2) 0) eqn:Z2; cbv iota.
  { intro E. injection E as <-. lra. }
  apply Qeq_bool_false in Z1. apply Qeq_bool_false in Z2.
  assert (P1 : 0 < norm vec1).
  { destruct (Qlt_le_dec 0 (norm vec1)) as [G | G]; [exact G |]. exfalso. apply Z1. lra. }
  assert (P2 : 0 < norm vec2).
  { destruct (Qlt_le_dec 0 (norm vec2)) as [G | G]; [exact G |]. exfalso. apply Z2. lra. }
  assert (P : 0 < norm vec1 * norm vec2) by nra.
  rewrite truediv_Ok by lra. intro E. injection E as <-.
  apply Qle_shift_div_r; [exact P |]. rewrite Qmult_1_l.
  apply square_le; [lra |].
  pose proof (dot_square_le vec1 vec2 d D) as CS.
  pose proof (sq_norm_nonneg vec1) as A0. pose proof (sq_norm_nonneg vec2) as B0.
  apply Qle_trans with (sq_norm vec1 * sq_norm vec2); [exact CS |].
  apply Qle_trans with (norm vec1 * norm vec1 * sq_norm vec2); [nra |].
  nra.
Qed.

Lemma semantic_range (encode : string -> string -> string
                               -> result (SemanticSimilarityMetric.vector
                                          * SemanticSimilarityMetric.vector))
      (norm : SemanticSimilarityMetric.vector -> Q)
      (self : SemanticSimilarityMetric.t) (source_text target_text : string) :
  (forall vec1 vec2,
      encode (SemanticSimilarityMetric.model_name self) source_text target_text
      = Ok (vec1, vec2) ->
      norm_covers norm vec1 /\ norm_covers norm vec2) ->
  score_in_range (SemanticSimilarityMetric.evaluate encode norm self source_text target_text).
Proof.
  intro Hn. unfold SemanticSimilarityMetric.evaluate, score_in_range.
  destruct (negb (truthy source_text) || negb (truthy target_text)).
  { exists 0.0. split; [reflexivity |]. split; lra. }
  destruct (SemanticSimilarityMetric.similarity_of encode norm self source_text target_text)
    as [similarity | e] eqn:S.
  - eexists. split; [reflexivity |].
    assert (L : similarity <= 1).
    { unfold SemanticSimilarityMetric.similarity_of in S.
      destruct (encode (SemanticSimilarityMetric.model_name self) source_text target_text)
        as [[vec1 vec2] |] eqn:E; cbn [bind] in S; [| discriminate].
      destruct (Hn vec1 vec2 eq_refl) as [H1 H2].
      exact (cosine_similarity_le_1 norm vec1 vec2 similarity H1 H2 S). }
    simpl. unfold max. destruct (Qlt_bool 0.0 similarity) eqn:B.
    + apply Qlt_bool_true in B. split; lra.
    + split; lra.
  - exists 0.0. split; [reflexivity |]. split; lra.
Qed.

(** *** Fusion *)

Lemma weighted_sum_range (self : ScoreFusion.t) (l : list (string * MetricOutcome)) :
  Forall (fun item => 0 <= get_score (snd item) /\ get_score (snd item) <= 100) l ->
  Forall (fun item => 0 < ScoreFusion._get_metric_weight self (fst item)) l ->
  0 <= Qsum (map (fun r => value r * weight r) (map (as_metric_result self) l))
  /\ Qsum (map (fun r => value r * weight r) (map (as_metric_result self) l))
     <= 100 * Qsum (map weight (map (as_metric_result self) l)).
Proof.
  induction l as [| item l IH]; intros Hs Hw; simpl.
  - split; lra.
  - inversion Hs as [| ? ? [S0 S1] Hs']; subst. inversion Hw as [| ? ? W Hw']; subst.
    destruct (IH Hs' Hw') as [I0 I1].
    pose proof (value_get_score self item) as V. simpl in V.
    set (v := match score (snd item) with Some s0 => s0 | None => 0.0 end) in *.
    rewrite <- V in S0, S1.
    split; nra.
Qed.

Lemma fuse_overall_range (self : ScoreFusion.t) (m : list (string * MetricOutcome)) :
  Forall (fun item => 0 <= get_score (snd item) /\ get_score (snd item) <= 100) m ->
  0 <= overall_score (ScoreFusion.fuse_scores self m)
  /\ overall_score (ScoreFusion.fuse_scores self m) <= 100.
Proof.
  intro H. rewrite fuse_overall.
  assert (Hs : Forall (fun item => 0 <= get_score (snd item) /\ get_score (snd item) <= 100)
                      (kept self m)).
  { apply Forall_forall. intros item Hin. rewrite Forall_forall in H.
    apply H. apply (kept_positive self m item Hin). }
  assert (Hw : Forall (fun item => 0 < ScoreFusion._get_metric_weight self (fst item))
                      (kept self m)).
  { apply Forall_forall. intros item Hin. apply (kept_positive self m item Hin). }
  pose proof (kept_weight_sum_pos self m) as P.
  destruct (weighted_sum_range self (kept self m) Hs Hw) as [S0 S1].
  destruct (kept self m) as [| x l] eqn:K; [split; lra |].
  rewrite <- K in *. assert (Hk : kept self m <> []) by (rewrite K; discriminate).
  specialize (P Hk). rewrite K in *. rewrite <- K in *.
  split.
  - apply Qle_shift_div_l; [exact P | lra].
  - apply Qle_shift_div_r; [exact P | lra].
Qed.

Lemma score_in_range_get_score (o : MetricOutcome) :
  score_in_range o -> 0 <= get_score o /\ get_score o <= 100.
Proof.
  intros [v [E R]]. unfold get_score. rewrite E. exact R.
Qed.

(** *** The orchestrator *)

Lemma dict_set_Forall {V : Type} (P : V -> Prop) (key : string) (v : V)
      (d : list (string * V)) :
  P v -> Forall (fun kv => P (snd kv)) d -> Forall (fun kv => P (snd kv)) (dict_set key v d).
Proof.
  intros Hv. induction 1 as [| [k x] d Hx Hd IH]; simpl.
  - constructor; [exact Hv | constructor].
  - destruct (String.eqb key k); constructor; try assumption.
Qed.

Lemma enabled_step_range (enabled : bool) (r : result MetricOutcome) (key : string)
      (d d' : list (string * MetricOutcome)) :
  (forall o, r = Ok o -> score_in_range o) ->
  Forall (fun kv => score_in_range (snd kv)) d ->
  (if enabled then o <- r ;; Ok (dict_set key o d) else Ok d) = Ok d' ->
  Forall (fun kv => score_in_range (snd kv)) d'.
Proof.
  intros Hr Hd. destruct enabled.
  - destruct r as [o | e]; cbn [bind]; [| discriminate].
    intro E. injection E as <-. apply dict_set_Forall; [apply Hr; reflexivity | exact Hd].
  - intro E. injection E as <-. exact Hd.
Qed.

Section Orchestrator.

Variable detect_langs : string -> result LanguageDetectionMetric.lang_probs.
Variable encode : string -> string -> string
                  -> result (SemanticSimilarityMetric.vector * SemanticSimilarityMetric.vector).
Variable norm : SemanticSimilarityMetric.vector -> Q.

Lemma run_metrics_range (self : Evaluator.t) (source_text target_text target_lang : string)
      (m : list (string * MetricOutcome)) :
  (forall lang confidence rest,
      detect_langs target_text = Ok ((lang, confidence) :: rest) ->
      0 <= confidence /\ confidence <= 1) ->
  (forall metric vec1 vec2,
      Evaluator.semantic_similarity self = Some metric ->
      encode (SemanticSimilarityMetric.model_name metric) source_text target_text
      = Ok (vec1, vec2) ->
      norm_covers norm vec1 /\ norm_covers norm vec2) ->
  Evaluator.run_metrics detect_langs encode norm self source_text target_text target_lang
  = Ok m ->
  Forall (fun kv => score_in_range (snd kv)) m.
Proof.
  intros Hp Hn. unfold Evaluator.run_metrics.
  match goal with
  | |- (_ <- ?step ;; _) = _ -> _ => destruct step as [d1 |] eqn:S1; cbn [bind]; [| discriminate]
  end.
  apply enabled_step_range in S1;
    [| intros o E; exact (language_match_range detect_langs _ _ _ _ o Hp E) | constructor].
  match goal with
  | |- (_ <- ?step ;; _) = _ -> _ => destruct step as [d2 |] eqn:S2; cbn [bind]; [| discriminate]
  end.
  apply enabled_step_range in S2;
    [| intros o E; exact (length_ratio_range _ _ _ o E) | exact S1].
  match goal with
  | |- (_ <- ?step ;; _) = _ -> _ => destruct step as [d3 |] eqn:S3; cbn [bind]; [| discriminate]
  end.
  apply enabled_step_range in S3;
    [| intros o E;
       destruct (repetition_total_range (Evaluator.repetition self) source_text target_text)
         as [o' [E' R]]; rewrite E' in E; injection E as <-; exact R
     | exact S2].
  match goal with
  | |- (_ <- ?step ;; _) = _ -> _ => destruct step as [d4 |] eqn:S4; cbn [bind]; [| discriminate]
  end.
  apply enabled_step_range in S4;
    [| intros o E;
       destruct (preservation_total_range (Evaluator.preservation self) source_text target_text)
         as [o' [E' R]]; rewrite E' in E; injection E as <-; exact R
     | exact S3].
  destruct (Evaluator.semantic_similarity self) as [metric |] eqn:M.
  - intro E. injection E as <-. apply dict_set_Forall; [| exact S4].
    apply semantic_range. intros vec1 vec2 Ev. exact (Hn metric vec1 vec2 eq_refl Ev).
  - intro E. injection E as <-. exact S4.
Qed.

(** Every metric but the length ratio returns; so does the length ratio
    when [max_ratio] is not 1. *)
Lemma run_metrics_total (self : Evaluator.t) (source_text target_text target_lang : string) :
  (forall e, detect_langs target_text = Raise e -> exists msg, e = LangDetectException msg) ->
  ~ LengthRatioMetric.max_ratio (Evaluator.length_ratio self) == 1 ->
  exists m,
    Evaluator.run_metrics detect_langs encode norm self source_text target_text target_lang
    = Ok m.
Proof.
  intros Hd Hne. unfold Evaluator.run_metrics.
  destruct (language_match_total detect_langs (Evaluator.language_detection self)
              source_text target_text target_lang Hd) as [o1 E1].
  destruct (length_ratio_total (Evaluator.length_ratio self) source_text target_text Hne)
    as [o2 E2].
  destruct (repetition_total_range (Evaluator.repetition self) source_text target_text)
    as [o3 [E3 _]].
  destruct (preservation_total_range (Evaluator.preservation self) source_text target_text)
    as [o4 [E4 _]].
  rewrite E1, E2, E3, E4.
  destruct (config.is_metric_enabled (Evaluator.config self) "heuristics" "language_detection");
    destruct (config.is_metric_enabled (Evaluator.config self) "heuristics" "length_ratio");
    destruct (config.is_metric_enabled (Evaluator.config self) "heuristics" "repetition");
    destruct (config.is_metric_enabled (Evaluator.config self) "heuristics" "preservation");
    destruct (Evaluator.semantic_similarity self);
    cbn [bind]; eexists; reflexivity.
Qed.

End Orchestrator.

End RangeFacts.

(* ================================================================= *)
(** ** The scores lie between 0 and 100                               *)
(* ================================================================= *)

Section Bounds.
Import Py.
Local Open Scope Q_scope.

(** In exact arithmetic every score a metric produces lies in
    [[0, 100]]: for
    LanguageMatch when the detector's top confidence lies in [[0, 1]], for
    LengthRatio whenever it returns, for Repetition and Preservation (which
    always return) and for SemanticSimilarity when the norm values used for
    the two embeddings are not below their Euclidean norms.  Consequently
    the overall score of the fusion lies in [[0, 100]], for a mapping of
    such scores and for every evaluation the orchestrator completes. *)
Theorem scores_within_bounds :
  (forall (detect_langs : string -> result LanguageDetectionMetric.lang_probs)
          (self : LanguageDetectionMetric.t)
          (source_text target_text target_lang : string) (o : MetricOutcome),
      (forall lang confidence rest,
          detect_langs target_text = Ok ((lang, confidence) :: rest) ->
          0 <= confidence /\ confidence <= 1) ->
      LanguageDetectionMetric.evaluate detect_langs self source_text target_text target_lang
      = Ok o ->
      score_in_range o)
  /\ (forall (self : LengthRatioMetric.t) (source_text target_text : string)
             (o : MetricOutcome),
        LengthRatioMetric.evaluate self source_text target_text = Ok o ->
        score_in_range o)
  /\ (forall (self : RepetitionMetric.t) (source_text target_text : string),
        exists o, RepetitionMetric.evaluate self source_text target_text = Ok o
                  /\ score_in_range o)
  /\ (forall (self : PreservationMetric.t) (source_text target_text : string),
        exists o, PreservationMetric.evaluate self source_text target_text = Ok o
                  /\ score_in_range o)
  /\ (forall (encode : string -> string -> string
                       -> result (SemanticSimilarityMetric.vector
                                  * SemanticSimilarityMetric.vector))
             (norm : SemanticSimilarityMetric.vector -> Q)
             (self : SemanticSimilarityMetric.t) (source_text target_text : string),
        (forall vec1 vec2,
            encode (SemanticSimilarityMetric.model_name self) source_text target_text
            = Ok (vec1, vec2) ->
            norm_covers norm vec1 /\ norm_covers norm vec2) ->
        score_in_range
          (SemanticSimilarityMetric.evaluate encode norm self source_text target_text))
  /\ (forall (self : ScoreFusion.t) (m : list (string * MetricOutcome)),
        Forall (fun item => 0 <= get_score (snd item) /\ get_score (snd item) <= 100) m ->
        0 <= overall_score (ScoreFusion.fuse_scores self m)
        /\ overall_score (ScoreFusion.fuse_scores self m) <= 100)
  /\ (forall (detect_langs : string -> result LanguageDetectionMetric.lang_probs)
             (encode : string -> string -> string
                       -> result (SemanticSimilarityMetric.vector
                                  * SemanticSimilarityMetric.vector))
             (norm : SemanticSimilarityMetric.vector -> Q)
             (self : Evaluator.t) (translation_id : Z)
             (provider_name model_id source_text target_text target_lang : string)
             (source_lang reference_translation : option string) (r : EvaluationResult),
        (forall lang confidence rest,
            detect_langs target_text = Ok ((lang, confidence) :: rest) ->
            0 <= confidence /\ confidence <= 1) ->
        (forall metric vec1 vec2,
            Evaluator.semantic_similarity self = Some metric ->
            encode (SemanticSimilarityMetric.model_name metric) source_text target_text
            = Ok (vec1, vec2) ->
            norm_covers norm vec1 /\ norm_covers norm vec2) ->
        Evaluator.evaluate_translation detect_langs encode norm self translation_id
          provider_name model_id source_text target_text target_lang
          source_lang reference_translation = Ok r ->
        0 <= overall_score (score_breakdown r) /\ overall_score (score_breakdown r) <= 100).
Proof.
  split; [exact language_match_range |].
  split; [exact length_ratio_range |].
  split; [exact repetition_total_range |].
  split; [exact preservation_total_range |].
  split; [exact semantic_range |].
  split; [exact fuse_overall_range |].
  intros detect_langs encode norm self translation_id provider_name model_id
         source_text target_text target_lang source_lang reference_translation r Hp Hn.
  unfold Evaluator.evaluate_translation.
  destruct (Evaluator.run_metrics detect_langs encode norm self source_text target_text
              target_lang) as [m |] eqn:R; cbn [bind]; [| discriminate].
  intro E. injection E as <-. simpl score_breakdown.
  apply fuse_overall_range.
  pose proof (run_metrics_range detect_langs encode norm self source_text target_text
                target_lang m Hp Hn R) as F.
  apply Forall_forall. intros item Hin. rewrite Forall_forall in F.
  apply score_in_range_get_score, F, Hin.
Qed.

Lemma scores_within_bounds_witness :
  (exists o,
      LanguageDetectionMetric.evaluate (constant_detector [("es", 0.6%Q); ("pt", 0.4%Q)])
        LanguageDetectionMetric.default "Hello, world!" "Hola, mundo!" "es" = Ok o
      /\ score_in_range o)
  /\ score_in_range
       (SemanticSimilarityMetric.evaluate (constant_encode [3; 4] [4; 3]) upper_norm
          SemanticSimilarityMetric.default "Hello, world!" "Hola, mundo!")
  /\ (0 <= overall_score (ScoreFusion.fuse_scores two_one
                            [("length_ratio", outcome_of 80 None);
                             ("repetition", outcome_of 50 None)])
      /\ overall_score (ScoreFusion.fuse_scores two_one
                          [("length_ratio", outcome_of 80 None);
                           ("repetition", outcome_of 50 None)]) <= 100).
Proof.
  destruct scores_within_bounds as [HL [_ [_ [_ [HS [HF _]]]]]].
  split; [| split].
  - eexists. split; [reflexivity |].
    apply (HL (constant_detector [("es", 0.6%Q); ("pt", 0.4%Q)])
              LanguageDetectionMetric.default "Hello, world!" "Hola, mundo!" "es");
      [| reflexivity].
    intros lang confidence rest E. injection E as _ <- _.
    split; vm_compute; discriminate.
  - apply HS. intros vec1 vec2 E. injection E as <- <-.
    split; split; vm_compute; discriminate.
  - apply HF. repeat constructor; vm_compute; discriminate.
Defined.

(* ================================================================= *)
(** ** The overall score on binary64 numbers                          *)
(* ================================================================= *)

(** C7.  The overall score is not confined to [[0, 100]]: the fusion
    divides the rounded weighted sum by the sum of the weights and does
    not clamp the quotient.  Under a configuration that enables the
    repetition metric only, with the weight 0.69, the translation
    "Hola mundo" of "Hello world" scores 100 in the metric, and the
    fusion computes [(100.0 * 0.69) / 0.69], which is
    100.00000000000001 on binary64 numbers; so it is with the weight
    0.007.  In exact arithmetic the quotient is 100. *)
Theorem overall_score_exceeds_100 :
  yields (RepetitionMetric.evaluate RepetitionMetric.default "Hello world" "Hola mundo")
         100 None
  /\ binary64.overall_score {| ScoreFusion.config := repetition_only_config |}
       [("repetition", 100%float)]
     = 0x1.9000000000001p+6%float
  /\ PrimFloat.ltb 100%float
       (binary64.overall_score {| ScoreFusion.config := repetition_only_config |}
          [("repetition", 100%float)]) = true
  /\ PrimFloat.ltb 100%float
       (binary64.overall_score
          {| ScoreFusion.config :=
               {| config.floats := [("metrics.heuristics.repetition.weight", 0.007)];
                  config.bools := []; config.strs := [] |} |}
          [("repetition", 100%float)]) = true
  /\ overall_score (ScoreFusion.fuse_scores {| ScoreFusion.config := repetition_only_config |}
                      [("repetition", outcome_of 100 None)]) == 100.
Proof.
  split; [| split; [| split; [| split]]].
  - unfold yields. eexists. eexists.
    split; [vm_compute; reflexivity |]. split; [reflexivity |]. split; reflexivity.
  - vm_compute. reflexivity.
  - vm_compute. reflexivity.
  - vm_compute. reflexivity.
  - vm_compute. reflexivity.
Qed.

(* ================================================================= *)
(** ** Totality of an evaluation                                      *)
(* ================================================================= *)

(** With [max_ratio] at 1 and [min_ratio] at most 1, two non-empty texts
    of equal length make the length-ratio metric divide by zero. *)
Lemma length_ratio_raises_at_unit_max (self : LengthRatioMetric.t)
      (source_text target_text : string) :
  len source_text <> O -> len target_text = len source_text ->
  LengthRatioMetric.max_ratio self == 1 -> LengthRatioMetric.min_ratio self <= 1 ->
  LengthRatioMetric.evaluate self source_text target_text = Raise ZeroDivisionError.
Proof.
  intros Hs Hl Hmax Hmin.
  assert (Ht : len target_text <> O) by congruence.
  rewrite (evaluate_nonempty self _ _ Hs Ht).
  assert (R : length_ratio source_text target_text == 1).
  { unfold length_ratio. rewrite Hl. apply Qmult_inv_r.
    intro Z. pose proof (float_of_nat_pos _ Hs) as P. rewrite Z in P.
    exact (Qlt_irrefl _ P). }
  unfold LengthRatioMetric.ratio_score.
  replace (Qle_bool (LengthRatioMetric.min_ratio self) (length_ratio source_text target_text))
    with true by (symmetry; apply Qle_bool_iff; lra).
  replace (Qle_bool (length_ratio source_text target_text) (LengthRatioMetric.max_ratio self))
    with true by (symmetry; apply Qle_bool_iff; lra).
  replace (Qlt_bool (length_ratio source_text target_text) 1.0)
    with false by (symmetry; apply Qlt_bool_false; lra).
  simpl andb. cbv iota. rewrite truediv_Raise by lra. reflexivity.
Qed.

(** C5 at its failing input.  The orchestrator, configured with the
    length-ratio band ending at [max_ratio = 1.0], does not yield a
    breakdown for the texts "ab" and "cd": the [ZeroDivisionError] of the
    length-ratio metric escapes [evaluate_translation]. *)
Theorem evaluation_raises_at_unit_max_ratio
        (detect_langs : string -> result LanguageDetectionMetric.lang_probs)
        (encode : string -> string -> string
                  -> result (SemanticSimilarityMetric.vector
                             * SemanticSimilarityMetric.vector))
        (norm : SemanticSimilarityMetric.vector -> Q) :
  LengthRatioMetric.evaluate (Evaluator.length_ratio (Evaluator.init unit_max_config))
    "ab" "cd" = Raise ZeroDivisionError
  /\ Evaluator.evaluate_translation detect_langs encode norm (Evaluator.init unit_max_config)
       1%Z "provider" "model" "ab" "cd" "es" None None
     = Raise ZeroDivisionError.
Proof.
  split; reflexivity.
Qed.

(** Away from it the evaluation is total: when the detector fails, if at
    all, with [LangDetectException], and [max_ratio] is not 1, the
    orchestrator yields a result, and a failure of the detector becomes
    the score 50 with a warning that names the failure. *)
Theorem evaluation_total_off_unit_max_ratio
        (detect_langs : string -> result LanguageDetectionMetric.lang_probs)
        (encode : string -> string -> string
                  -> result (SemanticSimilarityMetric.vector
                             * SemanticSimilarityMetric.vector))
        (norm : SemanticSimilarityMetric.vector -> Q)
        (self : Evaluator.t) (translation_id : Z)
        (provider_name model_id source_text target_text target_lang : string)
        (source_lang reference_translation : option string) :
  (forall e, detect_langs target_text = Raise e -> exists msg, e = LangDetectException msg) ->
  ~ LengthRatioMetric.max_ratio (Evaluator.length_ratio self) == 1 ->
  (exists r,
      Evaluator.evaluate_translation detect_langs encode norm self translation_id
        provider_name model_id source_text target_text target_lang
        source_lang reference_translation = Ok r)
  /\ (forall msg,
        LanguageDetectionMetric.blank target_text = false ->
        detect_langs target_text = Raise (LangDetectException msg) ->
        yields (LanguageDetectionMetric.evaluate detect_langs
                  (Evaluator.language_detection self) source_text target_text target_lang)
          50 (Some ("Language detection error: " ++ msg))).
Proof.
  intros Hd Hne. split.
  - unfold Evaluator.evaluate_translation.
    destruct (run_metrics_total detect_langs encode norm self source_text target_text
                target_lang Hd Hne) as [m E].
    rewrite E. cbn [bind]. eexists. reflexivity.
  - intros msg Hb E. unfold yields, LanguageDetectionMetric.evaluate. rewrite Hb, E.
    eexists. eexists. split; [reflexivity |]. split; [reflexivity |].
    split; [reflexivity | reflexivity].
Qed.

Lemma evaluation_total_off_unit_max_ratio_witness :
  exists r,
    Evaluator.evaluate_translation (constant_detector [("es", 0.9%Q)])
      (constant_encode [3; 4] [4; 3]) upper_norm (Evaluator.init heuristics_config)
      1%Z "provider" "model" "Hello, world!" "Hola, mundo!" "es" None None = Ok r.
Proof.
  apply (evaluation_total_off_unit_max_ratio (constant_detector [("es", 0.9%Q)])
           (constant_encode [3; 4] [4; 3]) upper_norm (Evaluator.init heuristics_config)
           1%Z "provider" "model" "Hello, world!" "Hola, mundo!" "es" None None).
  - intros e E. discriminate E.
  - vm_compute. discriminate.
Defined.

End Bounds.

(* ================================================================= *)
(** ** Further properties: the length ratio                           *)
(* ================================================================= *)

Section LengthRatioMore.
Import Py LengthRatioMetric.
Local Open Scope Q_scope.

(** X1.  An empty source scores 0 with the warning "Empty source text",
    whatever the target (also an empty one); an empty translation of a
    non-empty source scores 0 with the warning "Empty translation".
    Neither case depends on the band. *)
Theorem length_ratio_empty_texts (self : t) (c : ascii) (source_text target_text : string) :
  yields (evaluate self EmptyString target_text) 0 (Some "Empty source text")
  /\ yields (evaluate self (String c source_text) EmptyString) 0 (Some "Empty translation").
Proof.
  split; eexists; eexists;
    (split; [reflexivity | split; [reflexivity | split; reflexivity]]).
Qed.

Lemma ratio_is_one (source_text target_text : string) :
  len source_text <> O ->
  (length_ratio source_text target_text == 1 <-> len target_text = len source_text).
Proof.
  intro Hs. pose proof (float_of_nat_pos _ Hs) as P. unfold length_ratio. split.
  - intro E.
    assert (F : float_of_nat (len target_text) == float_of_nat (len source_text)).
    { rewrite <- (Qmult_1_l (float_of_nat (len source_text))), <- E.
      field. lra. }
    unfold float_of_nat, Qeq in F. simpl in F. lia.
  - intros ->. apply Qmult_inv_r. lra.
Qed.

(** The outcome on two non-empty texts, once the score is known. *)
Lemma evaluate_outcome (self : t) (source_text target_text : string) (o : MetricOutcome) :
  len source_text <> O -> len target_text <> O ->
  evaluate self source_text target_text = Ok o ->
  exists s, ratio_score self (length_ratio source_text target_text) = Ok s
            /\ score o = Some s
            /\ warning o = ratio_warning self (length_ratio source_text target_text).
Proof.
  intros Hs Ht. rewrite (evaluate_nonempty self _ _ Hs Ht).
  destruct (ratio_score self (length_ratio source_text target_text)) as [s | e];
    cbn [bind]; [| discriminate].
  intro E. injection E as <-. exists s. repeat split.
Qed.

(** X2.  On two non-empty texts the metric warns exactly when the ratio
    lies strictly outside the band: no warning inside
    [[min_ratio, max_ratio]]; below [min_ratio] the warning is
    "Unusual length ratio detected: translation too short (ratio: R)" and
    above [max_ratio] it is "... translation too long (ratio: R)", where
    [R] is the text the ratio is printed as. *)
Theorem length_ratio_warning (self : t) (source_text target_text : string)
        (o : MetricOutcome) :
  len source_text <> O -> len target_text <> O ->
  evaluate self source_text target_text = Ok o ->
  (warning o = None <->
   min_ratio self <= length_ratio source_text target_text
   /\ length_ratio source_text target_text <= max_ratio self)
  /\ (length_ratio source_text target_text < min_ratio self ->
      exists printed,
        warning o = Some ("Unusual length ratio detected: translation too short (ratio: "
                            ++ printed ++ ")"))
  /\ (min_ratio self <= length_ratio source_text target_text ->
      max_ratio self < length_ratio source_text target_text ->
      exists printed,
        warning o = Some ("Unusual length ratio detected: translation too long (ratio: "
                            ++ printed ++ ")")).
Proof.
  intros Hs Ht E.
  destruct (evaluate_outcome self _ _ o Hs Ht E) as [s [_ [_ W]]].
  rewrite W. unfold ratio_warning.
  destruct (Qlt_bool (length_ratio source_text target_text) (min_ratio self)) eqn:A.
  - apply Qlt_bool_true in A. split; [| split].
    + split; [discriminate | intros [L _]; exfalso; lra].
    + intros _. eexists. reflexivity.
    + intros L _. exfalso. lra.
  - apply Qlt_bool_false in A.
    destruct (Qlt_bool (max_ratio self) (length_ratio source_text target_text)) eqn:B.
    + apply Qlt_bool_true in B. split; [| split].
      * split; [discriminate | intros [_ L]; exfalso; lra].
      * intro L. exfalso. lra.
      * intros _ _. eexists. reflexivity.
    + apply Qlt_bool_false in B. split; [| split].
      * split; [intros _; split; assumption | reflexivity].
      * intro L. exfalso. lra.
      * intros _ L. exfalso. lra.
Qed.

Lemma length_ratio_warning_witness :
  exists printed,
    warning (outcome (25000 # 2250) (5 # 45) 45 5
               (Some "Unusual length ratio detected: translation too short (ratio: 0.11)"))
    = Some ("Unusual length ratio detected: translation too short (ratio: "
              ++ printed ++ ")").
Proof.
  apply (proj1 (proj2 (length_ratio_warning default
                         "This is a very long sentence with many words." "Short"
                         (outcome (25000 # 2250) (5 # 45) 45 5
                            (Some "Unusual length ratio detected: translation too short (ratio: 0.11)"))
                         ltac:(discriminate) ltac:(discriminate) eq_refl))).
  vm_compute. reflexivity.
Defined.

(** X3.  A translation as long as its non-empty source scores 100
    without a warning, for every band with [min_ratio <= 1 < max_ratio]. *)
Theorem length_ratio_peak (self : t) (source_text target_text : string) :
  len source_text <> O -> len target_text = len source_text ->
  min_ratio self <= 1 -> 1 < max_ratio self ->
  yields (evaluate self source_text target_text) 100 None.
Proof.
  intros Hs Hl Hmin Hmax.
  assert (Ht : len target_text <> O) by congruence.
  pose proof (proj2 (ratio_is_one source_text target_text Hs) Hl) as R.
  destruct (ratio_score_in_band_long self (length_ratio source_text target_text))
    as [s [E Hv]]; try lra.
  unfold yields. rewrite (evaluate_nonempty self _ _ Hs Ht), E. cbn [bind].
  eexists. exists s. split; [reflexivity |]. split; [reflexivity |]. split.
  - rewrite Hv, R.
    assert (D : (max_ratio self - 1) / (max_ratio self - 1) == 1) by (field; lra).
    rewrite D. apply Q.max_r. lra.
  - simpl. unfold ratio_warning.
    replace (Qlt_bool (length_ratio source_text target_text) (min_ratio self)) with false
      by (symmetry; apply Qlt_bool_false; lra).
    replace (Qlt_bool (max_ratio self) (length_ratio source_text target_text)) with false
      by (symmetry; apply Qlt_bool_false; lra).
    reflexivity.
Qed.

Lemma length_ratio_peak_witness :
  yields (evaluate default "Hello, world!" "Hallo, Welt!!") 100 None.
Proof.
  apply (length_ratio_peak default "Hello, world!" "Hallo, Welt!!");
    [discriminate | reflexivity | vm_compute; discriminate | vm_compute; reflexivity].
Defined.

Lemma clamp_below_50 (x : Q) : x < 50 -> max 0.0 (min 50.0 x) < 50.
Proof.
  intro H. unfold max, min.
  replace (Qlt_bool x 50.0) with true by (symmetry; apply Qlt_bool_true; lra).
  destruct (Qlt_bool 0.0 x); lra.
Qed.

(** X4.  The score separates the band from its outside: on two non-empty
    texts, a returned score is at least 50 exactly when the ratio lies in
    [[min_ratio, max_ratio]], and below 50 otherwise. *)
Theorem length_ratio_band_separation (self : t) (source_text target_text : string)
        (o : MetricOutcome) (v : Q) :
  len source_text <> O -> len target_text <> O ->
  evaluate self source_text target_text = Ok o -> score o = Some v ->
  (50 <= v <->
   min_ratio self <= length_ratio source_text target_text
   /\ length_ratio source_text target_text <= max_ratio self).
Proof.
  intros Hs Ht E Sv.
  destruct (evaluate_outcome self _ _ o Hs Ht E) as [s [R [So _]]].
  rewrite Sv in So. injection So as <-.
  pose proof (length_ratio_pos _ _ Hs Ht) as Hpos.
  set (ratio := length_ratio source_text target_text) in *.
  destruct (Qlt_le_dec ratio (min_ratio self)) as [Lo | Lo].
  - destruct (ratio_score_below self ratio Hpos Lo) as [s' [R' _]].
    assert (V : v < 50).
    { unfold ratio_score in R.
      replace (Qle_bool (min_ratio self) ratio) with false in R
        by (symmetry; apply Qle_bool_false; exact Lo).
      simpl andb in R. cbv iota in R.
      replace (Qlt_bool ratio (min_ratio self)) with true in R
        by (symmetry; apply Qlt_bool_true; exact Lo).
      rewrite truediv_Ok in R by lra. cbn [bind] in R. injection R as <-.
      apply clamp_below_50.
      assert (Q1 : ratio / min_ratio self < 1) by (apply Qlt_shift_div_r; lra).
      lra. }
    split; [intro H; exfalso; lra | intros [H _]; exfalso; lra].
  - destruct (Qlt_le_dec (max_ratio self) ratio) as [Hi | Hi].
    + assert (V : v < 50).
      { unfold ratio_score in R.
        replace (Qle_bool ratio (max_ratio self)) with false in R
          by (symmetry; apply Qle_bool_false; exact Hi).
        rewrite andb_false_r in R. cbv iota in R.
        replace (Qlt_bool ratio (min_ratio self)) with false in R
          by (symmetry; apply Qlt_bool_false; exact Lo).
        rewrite truediv_Ok in R by lra. cbn [bind] in R. injection R as <-.
        apply clamp_below_50.
        assert (Q1 : max_ratio self / ratio < 1) by (apply Qlt_shift_div_r; lra).
        lra. }
      split; [intro H; exfalso; lra | intros [_ H]; exfalso; lra].
    + split; [intros _; split; assumption | intros _].
      unfold ratio_score in R.
      replace (Qle_bool (min_ratio self) ratio) with true in R
        by (symmetry; apply Qle_bool_iff; exact Lo).
      replace (Qle_bool ratio (max_ratio self)) with true in R
        by (symmetry; apply Qle_bool_iff; exact Hi).
      simpl andb in R. cbv iota in R.
      destruct (Qlt_bool ratio 1.0);
        [destruct (truediv (ratio - min_ratio self) (1.0 - min_ratio self)) as [q |]
        | destruct (truediv (max_ratio self - ratio) (max_ratio self - 1.0)) as [q |]];
        cbn [bind] in R; try discriminate R; injection R as <-;
        unfold max; destruct (Qlt_bool 50.0 (q * 100.0)) eqn:B;
        try (apply Qlt_bool_true in B); lra.
Qed.

Lemma length_ratio_band_separation_witness :
  50 <= 60 <->
  min_ratio default <= length_ratio "Hello" "Hell"
  /\ length_ratio "Hello" "Hell" <= max_ratio default.
Proof.
  assert (E : exists o v, evaluate default "Hello" "Hell" = Ok o /\ score o = Some v
                          /\ v == 60).
  { eexists. eexists. split; [reflexivity |]. split; [reflexivity |].
    vm_compute. reflexivity. }
  destruct E as [o [v [E [Sv V]]]]. rewrite <- V.
  apply (length_ratio_band_separation default "Hello" "Hell" o v);
    [discriminate | discriminate | exact E | exact Sv].
Defined.

(** X5.  The metric raises in one case only: two non-empty texts of equal
    length under a band that ends at [max_ratio = 1] (with
    [min_ratio <= 1]); the exception is then [ZeroDivisionError]. *)
Theorem length_ratio_raises_iff (self : t) (source_text target_text : string) (e : exn) :
  evaluate self source_text target_text = Raise e <->
  e = ZeroDivisionError
  /\ len source_text <> O /\ len target_text = len source_text
  /\ max_ratio self == 1 /\ min_ratio self <= 1.
Proof.
  split.
  - intro E.
    destruct (Qeq_dec (max_ratio self) 1) as [M | M].
    + destruct (Nat.eq_dec (len source_text) 0) as [Zs | Ns].
      { unfold evaluate in E. rewrite Zs in E. discriminate E. }
      destruct (Nat.eq_dec (len target_text) 0) as [Zt | Nt].
      { unfold evaluate in E. rewrite Zt in E.
        destruct (len source_text =? 0)%nat; discriminate E. }
      pose proof (length_ratio_pos _ _ Ns Nt) as Hpos.
      rewrite (evaluate_nonempty self _ _ Ns Nt) in E.
      destruct (ratio_score self (length_ratio source_text target_text)) as [s | e'] eqn:R;
        cbn [bind] in E; [discriminate E |]. injection E as ->.
      set (ratio := length_ratio source_text target_text) in *.
      unfold ratio_score in R.
      destruct (Qle_bool (min_ratio self) ratio) eqn:Blo;
        [destruct (Qle_bool ratio (max_ratio self)) eqn:Bhi |];
        simpl andb in R; cbv iota in R.
      * apply Qle_bool_iff in Blo. apply Qle_bool_iff in Bhi.
        destruct (Qlt_bool ratio 1.0) eqn:B1.
        -- apply Qlt_bool_true in B1. rewrite truediv_Ok in R by lra. discriminate R.
        -- apply Qlt_bool_false in B1.
           rewrite truediv_Raise in R by lra. cbn [bind] in R. injection R as <-.
           assert (R1 : ratio == 1) by lra.
           repeat split; try assumption; [| lra].
           apply (ratio_is_one source_text target_text Ns), R1.
      * apply Qle_bool_false in Bhi.
        replace (Qlt_bool ratio (min_ratio self)) with false in R
          by (symmetry; apply Qlt_bool_false; apply Qle_bool_iff, Blo).
        rewrite truediv_Ok in R by lra. discriminate R.
      * apply Qle_bool_false in Blo.
        replace (Qlt_bool ratio (min_ratio self)) with true in R
          by (symmetry; apply Qlt_bool_true; exact Blo).
        rewrite truediv_Ok in R by lra. discriminate R.
    + destruct (length_ratio_total self source_text target_text M) as [o Eo].
      rewrite Eo in E. discriminate E.
  - intros [-> [Hs [Hl [M Hmin]]]].
    apply length_ratio_raises_at_unit_max; assumption.
Qed.

End LengthRatioMore.

(* ================================================================= *)
(** ** Further properties: repetition                                 *)
(* ================================================================= *)

Section RepetitionMore.
Import Py RepetitionMetric.
Local Open Scope Q_scope.

Lemma get_ngrams_short (text : string) (n : nat) :
  (List.length (split (lower text)) < n)%nat -> _get_ngrams text n = [].
Proof.
  intro H. unfold _get_ngrams.
  destruct (Nat.ltb_spec (List.length (split (lower text))) n) as [_ | L]; [reflexivity | lia].
Qed.

(** X6.  The n-grams of a text with [k] tokens: none for a size above
    [k]; for a size [n <= k] there are [k - n + 1] of them, each of [n]
    tokens, the i-th one being the tokens from position [i] on. *)
Theorem get_ngrams_shape (text : string) (n : nat) :
  ((List.length (split (lower text)) < n)%nat -> _get_ngrams text n = [])
  /\ ((n <= List.length (split (lower text)))%nat ->
      List.length (_get_ngrams text n) = (List.length (split (lower text)) - n + 1)%nat
      /\ Forall (fun g => List.length g = n) (_get_ngrams text n)
      /\ forall i, (i <= List.length (split (lower text)) - n)%nat ->
                   nth_error (_get_ngrams text n) i
                   = Some (firstn n (skipn i (split (lower text))))).
Proof.
  split; [apply get_ngrams_short |].
  intro H. unfold _get_ngrams.
  destruct (Nat.ltb_spec (List.length (split (lower text))) n) as [L | _]; [lia |].
  set (words := split (lower text)) in *.
  split; [rewrite length_map, length_seq; reflexivity |]. split.
  - apply Forall_forall. intros g Hg. apply in_map_iff in Hg.
    destruct Hg as [i [<- Hi]]. apply in_seq in Hi.
    rewrite length_firstn, length_skipn. lia.
  - intros i Hi. rewrite nth_error_map.
    rewrite nth_error_nth' with (d := O) by (rewrite length_seq; lia).
    rewrite seq_nth by lia. reflexivity.
Qed.

Lemma get_ngrams_shape_witness :
  List.length (_get_ngrams "To be or not to be" 2)
  = (List.length (split (lower "To be or not to be")) - 2 + 1)%nat
  /\ nth_error (_get_ngrams "To be or not to be" 2) 4 = Some ["to"; "be"].
Proof.
  destruct (proj2 (get_ngrams_shape "To be or not to be" 2)) as [L [_ N]];
    [vm_compute; lia |].
  split; [exact L |]. rewrite N by (vm_compute; lia). reflexivity.
Defined.

Lemma size_loop_short (text : string) (sizes : list nat) (st : list (string * Q) * Q) :
  Forall (fun n => (List.length (split (lower text)) < n)%nat) sizes ->
  size_loop text st sizes = Ok st.
Proof.
  induction 1 as [| n sizes Hn _ IH]; simpl; [reflexivity |].
  unfold size_step. destruct st as [scores mx].
  rewrite (get_ngrams_short text n Hn). cbn [bind]. exact IH.
Qed.

(** X7.  A blank target scores 0 with the warning "Empty translation"; a
    target with fewer than two tokens has no n-gram to compare and scores
    100, without a warning when the threshold is not negative. *)
Theorem repetition_short_texts (self : t) (source_text target_text : string) :
  (blank target_text = true ->
   yields (evaluate self source_text target_text) 0 (Some "Empty translation"))
  /\ (blank target_text = false ->
      (List.length (split (lower target_text)) < 2)%nat ->
      0 <= threshold self ->
      yields (evaluate self source_text target_text) 100 None).
Proof.
  unfold yields, evaluate. split.
  - intros ->. eexists. eexists.
    split; [reflexivity | split; [reflexivity | split; reflexivity]].
  - intros -> Hk Ht.
    rewrite size_loop_short.
    + cbn [bind].
      replace (Qlt_bool (threshold self) 0.0) with false
        by (symmetry; apply Qlt_bool_false; lra).
      eexists. eexists.
      split; [reflexivity | split; [reflexivity | split; reflexivity]].
    + apply Forall_forall. intros n Hn. unfold sizes in Hn. apply in_seq in Hn. lia.
Qed.

Lemma repetition_short_texts_witness :
  yields (evaluate default "Hello, world!" "   ") 0 (Some "Empty translation")
  /\ yields (evaluate default "Hello, world!" "Hallo") 100 None.
Proof.
  destruct (repetition_short_texts default "Hello, world!" "   ") as [B _].
  destruct (repetition_short_texts default "Hello, world!" "Hallo") as [_ S].
  split; [apply B; reflexivity |].
  apply S; [reflexivity | vm_compute; lia | vm_compute; discriminate].
Defined.

Lemma max_frequency_NoDup (l : list ngram) :
  (max_frequency l <= 1)%nat <-> NoDup l.
Proof.
  unfold max_frequency. rewrite list_max_le, Forall_forall. split.
  - intro H. apply (NoDup_count_occ ngram_eq_dec). intro x.
    destruct (in_dec ngram_eq_dec x l) as [Hin | Hout].
    + apply H. apply in_map, Hin.
    + apply (count_occ_not_In ngram_eq_dec) in Hout. rewrite Hout. lia.
  - intros H k Hk. apply in_map_iff in Hk. destruct Hk as [x [<- _]].
    apply (NoDup_count_occ ngram_eq_dec), H.
Qed.

Lemma max_frequency_pos (l : list ngram) : l <> [] -> (1 <= max_frequency l)%nat.
Proof.
  intro Hne. destruct l as [| g l]; [congruence |].
  unfold max_frequency. apply Nat.le_trans with (count_occ ngram_eq_dec (g :: l) g).
  - simpl. destruct (ngram_eq_dec g g); [lia | congruence].
  - apply list_max_ge. apply in_map. left. reflexivity.
Qed.

Lemma repetition_of_repeat (g : ngram) (k : nat) :
  (2 <= k)%nat ->
  exists v, _calculate_repetition_score (repeat g k) = Ok v /\ v == 1.
Proof.
  intro Hk.
  assert (Hne : repeat g k <> []) by (destruct k; [lia | discriminate]).
  destruct (calculate_repetition_score_spec (repeat g k) Hne) as [v [E Hv]].
  exists v. split; [exact E |].
  assert (F : max_frequency (repeat g k) = k).
  { apply Nat.le_antisymm.
    - rewrite <- (repeat_length g k) at 2. apply max_frequency_le_length.
    - unfold max_frequency. rewrite <- (@count_occ_repeat_eq _ ngram_eq_dec g g k eq_refl) at 1.
      apply list_max_ge. apply in_map. destruct k; [lia | left; reflexivity]. }
  assert (P : 0 < float_of_nat k) by (apply float_of_nat_pos; lia).
  pose proof (distinct_le_length (repeat g k)) as DL. rewrite repeat_length in DL.
  destruct (Qdiv_unit (float_of_nat (distinct (repeat g k))) (float_of_nat k) P
              (float_of_nat_nonneg _) (float_of_nat_le _ _ DL)) as [D0 D1].
  rewrite F in Hv.
  replace (1 <? k)%nat with true in Hv by (symmetry; apply Nat.ltb_lt; lia).
  rewrite Hv. unfold frequency_factor. rewrite F, repeat_length.
  assert (K : float_of_nat k / float_of_nat k == 1) by (field; lra).
  rewrite K. rewrite Q.min_id. apply Q.max_r.
  unfold uniqueness_repetition. rewrite repeat_length. lra.
Qed.

(** X8.  For a non-empty list of n-grams the repetition value is 0
    exactly when all n-grams are distinct, and it is 1 when the list is
    one n-gram repeated at least twice. *)
Theorem repetition_value_extremes (ngrams : list ngram) :
  ngrams <> [] ->
  exists v,
    _calculate_repetition_score ngrams = Ok v
    /\ (v == 0 <-> NoDup ngrams)
    /\ (forall g k, ngrams = repeat g k -> (2 <= k)%nat -> v == 1).
Proof.
  intro Hne. destruct (calculate_repetition_score_spec ngrams Hne) as [v [E Hv]].
  exists v. split; [exact E |].
  assert (Hlen : List.length ngrams <> O) by (destruct ngrams; [congruence | discriminate]).
  pose proof (float_of_nat_pos _ Hlen) as P.
  pose proof (max_frequency_pos ngrams Hne) as M1.
  destruct (Qdiv_unit (float_of_nat (distinct ngrams)) (float_of_nat (List.length ngrams)) P
              (float_of_nat_nonneg _) (float_of_nat_le _ _ (distinct_le_length ngrams)))
    as [D0 D1].
  split.
  - destruct (Nat.ltb_spec 1 (max_frequency ngrams)) as [L | L].
    + split.
      * intro Z. exfalso.
        assert (F : 0 < frequency_factor ngrams).
        { unfold frequency_factor. apply Q.min_glb_lt; [| lra].
          apply Qlt_shift_div_l; [exact P |]. rewrite Qmult_0_l.
          apply float_of_nat_pos. lia. }
        pose proof (Q.le_max_r (uniqueness_repetition ngrams) (frequency_factor ngrams)).
        rewrite Hv in Z. lra.
      * intro N. apply max_frequency_NoDup in N. lia.
    + assert (N : NoDup ngrams) by (apply max_frequency_NoDup, L).
      split; [intros _; exact N | intros _].
      rewrite Hv. unfold uniqueness_repetition, distinct.
      rewrite (nodup_fixed_point ngram_eq_dec N). field. lra.
  - intros g k -> Hk. destruct (repetition_of_repeat g k Hk) as [v' [E' V']].
    rewrite E in E'. injection E' as <-. exact V'.
Qed.

Lemma repetition_value_extremes_witness :
  exists v,
    _calculate_repetition_score (_get_ngrams "one two three" 2) = Ok v
    /\ (v == 0 <-> NoDup (_get_ngrams "one two three" 2)).
Proof.
  destruct (repetition_value_extremes (_get_ngrams "one two three" 2))
    as [v [E [Z _]]]; [vm_compute; discriminate |].
  exists v. split; [exact E | exact Z].
Defined.

Lemma size_step_invariant (text : string) (st : list (string * Q) * Q) (n : nat) :
  loop_invariant st ->
  exists st', size_step text st n = Ok st' /\ loop_invariant st'.
Proof.
  destruct st as [scores mx]. unfold loop_invariant. simpl fst. simpl snd.
  intros [M0 [M1 [F [He Hn]]]]. unfold size_step.
  destruct (_get_ngrams text n) as [| g rest] eqn:G.
  - eexists. split; [reflexivity |]. simpl. repeat split; assumption.
  - destruct (calculate_repetition_score_range (g :: rest)) as [v [E [V0 V1]]];
      [discriminate |].
    rewrite E. cbn [bind]. eexists. split; [reflexivity |]. simpl fst. simpl snd.
    unfold max. destruct (Qlt_bool mx v) eqn:B.
    + apply Qlt_bool_true in B. split; [exact V0 |]. split; [exact V1 |]. split; [| split].
      * apply Forall_app. split.
        -- eapply Forall_impl; [| exact F]. intros kv [K0 K1]. split; lra.
        -- constructor; [simpl; split; lra | constructor].
      * intro Z. apply app_eq_nil in Z. destruct Z as [_ Z]. discriminate Z.
      * intros _. eexists. split; [apply in_or_app; right; left; reflexivity |].
        simpl. reflexivity.
    + apply Qlt_bool_false in B. split; [exact M0 |]. split; [exact M1 |]. split; [| split].
      * apply Forall_app. split; [exact F |].
        constructor; [simpl; split; lra | constructor].
      * intro Z. apply app_eq_nil in Z. destruct Z as [_ Z]. discriminate Z.
      * intros _. destruct scores as [| kv0 scores'].
        -- exists (str_of_nat n ++ "-gram"%string, v). split; [left; reflexivity |].
           simpl. specialize (He eq_refl). lra.
        -- destruct Hn as [kv [Hin Hk]]; [discriminate |].
           exists kv. split; [apply in_or_app; left; exact Hin | exact Hk].
Qed.

Lemma size_loop_invariant (text : string) (sizes : list nat) (st : list (string * Q) * Q) :
  loop_invariant st ->
  exists st', size_loop text st sizes = Ok st' /\ loop_invariant st'.
Proof.
  revert st. induction sizes as [| n sizes IH]; intros st I; simpl.
  - eexists. split; [reflexivity | exact I].
  - destruct (size_step_invariant text st n I) as [st1 [E I1]].
    rewrite E. cbn [bind]. apply IH, I1.
Qed.

(** X9.  On a non-blank target the metric returns the per-size values it
    recorded and their maximum (0 when no size applies) as
    [repetition_score]; the score is [(1 - repetition_score) * 100], and
    the warning is present exactly when [repetition_score] exceeds the
    threshold. *)
Theorem repetition_outcome (self : t) (source_text target_text : string) :
  blank target_text = false ->
  exists o s mx scores,
    evaluate self source_text target_text = Ok o
    /\ details o = [("repetition_score", DFloat mx); ("ngram_scores", DScores scores)]
    /\ Forall (fun kv => 0 <= snd kv /\ snd kv <= mx) scores
    /\ (scores = [] -> mx == 0)
    /\ (scores <> [] -> exists kv, In kv scores /\ snd kv == mx)
    /\ score o = Some s /\ s == (1 - mx) * 100
    /\ (warning o <> None <-> threshold self < mx).
Proof.
  intro Hb. unfold evaluate. rewrite Hb.
  destruct (size_loop_invariant target_text (sizes self) ([], 0.0)) as [[scores mx] [E I]].
  { unfold loop_invariant. simpl. repeat split; try lra; [constructor | congruence]. }
  destruct I as [_ [_ [F [He Hn]]]]. simpl fst in *. simpl snd in *.
  rewrite E. cbn [bind].
  eexists. eexists. exists mx, scores.
  split; [reflexivity |]. split; [reflexivity |]. split; [exact F |].
  split; [exact He |]. split; [exact Hn |]. split; [reflexivity |].
  split; [decimals; reflexivity |]. simpl.
  destruct (Qlt_bool (threshold self) mx) eqn:B.
  - apply Qlt_bool_true in B. split; [intros _; exact B | discriminate].
  - apply Qlt_bool_false in B. split; [congruence | intro L; exfalso; lra].
Qed.

Lemma repetition_outcome_witness :
  exists o s mx scores,
    evaluate default "Hello" "a b a b c d e f g" = Ok o
    /\ details o = [("repetition_score", DFloat mx); ("ngram_scores", DScores scores)]
    /\ (scores <> [] -> exists kv, In kv scores /\ snd kv == mx)
    /\ score o = Some s /\ s == (1 - mx) * 100.
Proof.
  destruct (repetition_outcome default "Hello" "a b a b c d e f g" eq_refl)
    as [o [s [mx [scores [E [D [_ [_ [Hn [So [Hs _]]]]]]]]]]].
  exists o, s, mx, scores. repeat split; assumption.
Defined.

(** *** Letter case *)

Lemma lower_char_idempotent (c : ascii) : lower_char (lower_char c) = lower_char c.
Proof.
  destruct c as [[] [] [] [] [] [] [] []]; reflexivity.
Qed.

Lemma isspace_lower_char (c : ascii) : isspace (lower_char c) = isspace c.
Proof.
  destruct c as [[] [] [] [] [] [] [] []]; reflexivity.
Qed.

Lemma chars_lower (text : string) : chars (lower text) = map lower_char (chars text).
Proof.
  unfold lower. apply chars_str.
Qed.

Lemma lower_idempotent (text : string) : lower (lower text) = lower text.
Proof.
  unfold lower at 1. rewrite chars_lower, map_map. unfold lower. f_equal.
  apply map_ext. apply lower_char_idempotent.
Qed.

Lemma dropwhile_map_lower (l : list ascii) :
  dropwhile isspace (map lower_char l) = map lower_char (dropwhile isspace l).
Proof.
  induction l as [| c l IH]; simpl; [reflexivity |].
  rewrite isspace_lower_char. destruct (isspace c); [exact IH | reflexivity].
Qed.

Lemma truthy_str (l : list ascii) :
  truthy (str l) = match l with [] => false | _ => true end.
Proof.
  destruct l; reflexivity.
Qed.

Lemma blank_lower (text : string) : blank (lower text) = blank text.
Proof.
  unfold blank. f_equal; f_equal.
  - destruct text; reflexivity.
  - unfold strip. rewrite chars_lower.
    rewrite dropwhile_map_lower, <- map_rev, dropwhile_map_lower, <- map_rev.
    rewrite !truthy_str.
    destruct (rev (dropwhile isspace (rev (dropwhile isspace (chars text)))));
      reflexivity.
Qed.

Lemma get_ngrams_lower (text : string) (n : nat) :
  _get_ngrams (lower text) n = _get_ngrams text n.
Proof.
  unfold _get_ngrams. rewrite lower_idempotent. reflexivity.
Qed.

Lemma size_loop_lower (text : string) (sizes : list nat) (st : list (string * Q) * Q) :
  size_loop (lower text) st sizes = size_loop text st sizes.
Proof.
  revert st. induction sizes as [| n sizes IH]; intro st; simpl; [reflexivity |].
  unfold size_step. destruct st as [scores mx]. rewrite get_ngrams_lower.
  destruct (_get_ngrams text n) as [| g rest]; [cbn [bind]; apply IH |].
  destruct (_calculate_repetition_score (g :: rest)); cbn [bind]; [apply IH | reflexivity].
Qed.

(** X10.  The metric looks at the target only and disregards letter
    case: a target and its lower-case form get the same outcome, whatever
    the two sources. *)
Theorem repetition_ignores_case_and_source (self : t)
        (source_text source_text' target_text : string) :
  evaluate self source_text' (lower target_text) = evaluate self source_text target_text.
Proof.
  unfold evaluate. rewrite blank_lower, size_loop_lower. reflexivity.
Qed.

(** *** A repeated word *)

Lemma dropwhile_nil {A : Type} (p : A -> bool) (l : list A) :
  dropwhile p l = [] -> forallb p l = true.
Proof.
  induction l as [| x l IH]; simpl; [reflexivity |].
  destruct (p x); [exact IH | discriminate].
Qed.

Lemma forallb_dropwhile {A : Type} (p : A -> bool) (l : list A) :
  forallb p (dropwhile p l) = true -> forallb p l = true.
Proof.
  induction l as [| x l IH]; simpl; [reflexivity |].
  destruct (p x) eqn:P; [exact IH |]. simpl. rewrite P. discriminate.
Qed.

Lemma strip_empty_spaces (l : list ascii) :
  rev (dropwhile isspace (rev (dropwhile isspace l))) = [] -> forallb isspace l = true.
Proof.
  intro E. apply (f_equal (@rev ascii)) in E. rewrite rev_involutive in E. simpl in E.
  apply dropwhile_nil in E. apply forallb_dropwhile.
  rewrite forallb_forall in *. intros y Hy. apply E. apply in_rev in Hy. exact Hy.
Qed.

Lemma blank_spaces (text : string) :
  blank text = true -> forallb isspace (chars text) = true.
Proof.
  unfold blank, strip. rewrite truthy_str.
  destruct text as [| c text]; [reflexivity |].
  remember (chars (String c text)) as l eqn:L.
  destruct (rev (dropwhile isspace (rev (dropwhile isspace l)))) as [| x r] eqn:E.
  - intros _. apply strip_empty_spaces, E.
  - simpl. discriminate.
Qed.

Lemma split_spaces (l : list ascii) : forallb isspace l = true -> split_aux [] l = [].
Proof.
  induction l as [| c l IH]; simpl; [reflexivity |].
  destruct (isspace c); [exact IH | discriminate].
Qed.

Lemma blank_no_tokens (text : string) : blank text = true -> split (lower text) = [].
Proof.
  intro B. rewrite <- blank_lower in B. apply blank_spaces in B.
  unfold split. apply split_spaces, B.
Qed.

Lemma skipn_repeat {A : Type} (x : A) (i k : nat) :
  skipn i (repeat x k) = repeat x (k - i).
Proof.
  revert k. induction i as [| i IH]; intro k; simpl.
  - rewrite Nat.sub_0_r. reflexivity.
  - destruct k; simpl; [reflexivity | apply IH].
Qed.

Lemma get_ngrams_repeat (text w : string) (k : nat) :
  split (lower text) = repeat w k -> (2 <= k)%nat ->
  _get_ngrams text 2 = @repeat ngram [w; w] (k - 1).
Proof.
  intros T Hk. unfold _get_ngrams. rewrite T, repeat_length.
  destruct (Nat.ltb_spec k 2) as [L | _]; [lia |].
  replace (k - 2 + 1)%nat with (k - 1)%nat by lia.
  remember (map (fun i => firstn 2 (skipn i (repeat w k))) (seq 0 (k - 1))) as l eqn:L.
  assert (Hl : List.length l = (k - 1)%nat) by (subst l; rewrite length_map, length_seq; reflexivity).
  rewrite <- Hl. apply Forall_eq_repeat. apply Forall_forall. intros g Hg. subst l.
  apply in_map_iff in Hg. destruct Hg as [i [<- Hi]]. apply in_seq in Hi.
  rewrite skipn_repeat.
  destruct (k - i)%nat as [| [| j]] eqn:J; [lia | lia | reflexivity].
Qed.

Lemma size_loop_saturated (text : string) (sizes : list nat) (st : list (string * Q) * Q) :
  snd st == 1 ->
  exists st', size_loop text st sizes = Ok st' /\ snd st' == 1.
Proof.
  revert st. induction sizes as [| n sizes IH]; intros [scores mx] I; simpl snd in *.
  - eexists. split; [reflexivity | exact I].
  - change (size_loop text (scores, mx) (n :: sizes))
      with (st' <- size_step text (scores, mx) n ;; size_loop text st' sizes).
    unfold size_step.
    destruct (_get_ngrams text n) as [| g rest] eqn:G; [cbn [bind]; apply IH; exact I |].
    destruct (calculate_repetition_score_range (g :: rest)) as [v [E [V0 V1]]];
      [discriminate |].
    rewrite E. cbn [bind]. apply IH. simpl. unfold max.
    replace (Qlt_bool mx v) with false by (symmetry; apply Qlt_bool_false; lra).
    exact I.
Qed.

(** X11.  A target that is one word repeated at least three times scores
    0, whatever the largest size (at least 2), and carries a warning
    when the threshold is below 1. *)
Theorem repetition_repeated_word (self : t) (source_text target_text w : string) (k : nat) :
  split (lower target_text) = repeat w k -> (3 <= k)%nat ->
  (2 <= max_ngram_size self)%nat ->
  exists o s,
    evaluate self source_text target_text = Ok o
    /\ score o = Some s /\ s == 0
    /\ (threshold self < 1 -> warning o <> None).
Proof.
  intros T Hk Hm.
  assert (B : blank target_text = false).
  { destruct (blank target_text) eqn:B; [| reflexivity].
    apply blank_no_tokens in B. rewrite B in T. destruct k; [lia | discriminate T]. }
  destruct (repetition_of_repeat [w; w] (k - 1)) as [v [E V]]; [lia |].
  destruct (size_loop_saturated target_text (seq 3 (max_ngram_size self - 2))
              (app [] [(str_of_nat 2 ++ "-gram", v)], max 0.0 v))
    as [[scores mx] [L I]].
  { simpl. unfold max. replace (Qlt_bool 0.0 v) with true
      by (symmetry; apply Qlt_bool_true; lra). exact V. }
  simpl in I.
  exists {| score := Some ((1.0 - mx) * 100.0);
            warning := if Qlt_bool (threshold self) mx
                       then Some (constants.WARN_HIGH_REPETITION ++ " (score: "
                                    ++ format_fixed 2 mx ++ ")")
                       else None;
            details := [("repetition_score", DFloat mx);
                        ("ngram_scores", DScores scores)] |}.
  exists ((1.0 - mx) * 100.0).
  split; [| split; [reflexivity | split]].
  - unfold evaluate. rewrite B. unfold sizes.
    replace (max_ngram_size self + 1 - 2)%nat with (S (max_ngram_size self - 2)) by lia.
    change (seq 2 (S (max_ngram_size self - 2)))
      with (2%nat :: seq 3 (max_ngram_size self - 2)).
    change (size_loop target_text ([], 0.0) (2%nat :: seq 3 (max_ngram_size self - 2)))
      with (st' <- size_step target_text ([], 0.0) 2 ;;
            size_loop target_text st' (seq 3 (max_ngram_size self - 2))).
    unfold size_step.
    rewrite (get_ngrams_repeat target_text w k T) by lia.
    destruct (k - 1)%nat as [| j] eqn:J; [lia |]. simpl repeat in *. cbv beta iota.
    rewrite E. cbn [bind]. rewrite L. reflexivity.
  - rewrite I. reflexivity.
  - simpl. intro Ht.
    replace (Qlt_bool (threshold self) mx) with true
      by (symmetry; apply Qlt_bool_true; lra).
    discriminate.
Qed.

Lemma repetition_repeated_word_witness :
  exists o s,
    evaluate default "Hello" "Test test TEST" = Ok o
    /\ score o = Some s /\ s == 0 /\ warning o <> None.
Proof.
  destruct (repetition_repeated_word default "Hello" "Test test TEST" "test" 3
              eq_refl ltac:(lia) ltac:(vm_compute; lia))
    as [o [s [E [So [Z W]]]]].
  exists o, s. repeat split; try assumption. apply W. vm_compute. reflexivity.
Defined.

End RepetitionMore.

(* ================================================================= *)
(** ** Further properties: preservation                               *)
(* ================================================================= *)

Section PreservationMore.
Import Py PreservationMetric.
Local Open Scope Q_scope.

Lemma char_in_filter (p : ascii -> bool) (c : ascii) (l : list ascii) :
  char_in c (str (filter p l)) = p c && existsb (Ascii.eqb c) l.
Proof.
  unfold char_in. rewrite chars_str.
  induction l as [| x l IH]; simpl.
  - rewrite andb_false_r. reflexivity.
  - destruct (p x) eqn:P; simpl; rewrite IH.
    + destruct (Ascii.eqb_spec c x) as [-> | Hne]; simpl.
      * rewrite P. reflexivity.
      * reflexivity.
    + destruct (Ascii.eqb_spec c x) as [-> | Hne]; simpl.
      * rewrite P. reflexivity.
      * reflexivity.
Qed.

Lemma filter_twice {A : Type} (f g : A -> bool) (l : list A) :
  filter f (filter g l) = filter (fun x => g x && f x) l.
Proof.
  induction l as [| x l IH]; simpl; [reflexivity |].
  destruct (g x); simpl; [destruct (f x) |]; rewrite IH; reflexivity.
Qed.

Lemma punct_matches (source_text target_text : string) :
  List.length (filter (fun c => char_in c (_extract_punctuation_pattern target_text))
                      (chars (_extract_punctuation_pattern source_text)))
  = punct_kept source_text target_text.
Proof.
  unfold _extract_punctuation_pattern, punct_kept. rewrite chars_str, filter_twice.
  f_equal. apply filter_ext. intro c.
  rewrite (char_in_filter (fun c0 => char_in c0 punctuation) c (chars target_text)).
  fold (char_in c target_text).
  destruct (char_in c punctuation); reflexivity.
Qed.

Lemma punct_len (text : string) :
  len (_extract_punctuation_pattern text) = punct_total text.
Proof.
  unfold _extract_punctuation_pattern, punct_total. rewrite len_chars, chars_str.
  reflexivity.
Qed.

(** The punctuation check, with the value of its component. *)
Lemma punctuation_check_value (source_text target_text : string)
      (scores : list (string * Q)) (warnings : list string) :
  exists v,
    punctuation_check source_text target_text (scores, warnings)
    = Ok (app scores [("punctuation", v)],
          app warnings (warning_if (Qlt_bool v 80.0) punctuation_warning))
    /\ v == punctuation_ratio source_text target_text.
Proof.
  unfold punctuation_check, punctuation_ratio.
  rewrite punct_matches, punct_len.
  destruct (_extract_punctuation_pattern source_text) as [| c sp] eqn:E.
  - assert (Z : punct_total source_text = O) by (rewrite <- punct_len, E; reflexivity).
    rewrite Z. simpl truthy. cbv iota. cbn [bind].
    exists 100.0. split; [| decimals; reflexivity].
    unfold warning_if.
    destruct (Qlt_bool 100.0 80.0); [reflexivity | rewrite app_nil_r; reflexivity].
  - assert (Z : punct_total source_text <> O) by (rewrite <- punct_len, E; discriminate).
    simpl truthy. cbv iota.
    pose proof (float_of_nat_pos _ Z) as P.
    rewrite truediv_Ok by lra. cbn [bind].
    exists (float_of_nat (punct_kept source_text target_text)
            / float_of_nat (punct_total source_text) * 100.0).
    split.
    + unfold warning_if.
      match goal with
      | |- context [Qlt_bool ?v 80.0] =>
          destruct (Qlt_bool v 80.0); [reflexivity | rewrite app_nil_r; reflexivity]
      end.
    + destruct (punct_total source_text); [congruence |]. decimals. reflexivity.
Qed.

(** The three checks: what they return, toggle by toggle. *)
Lemma checks_components (self : t) (source_text target_text : string) :
  exists vn vp ve,
    checks self source_text target_text
    = Ok (app (component (check_numbers self) "numbers" vn)
              (app (component (check_punctuation self) "punctuation" vp)
                   (component (check_entities self) "entities" ve)),
          app (warning_if (check_numbers self && Qlt_bool vn 100.0)
                 (numbers_warning
                    (List.length (_extract_numbers source_text)
                     - shared (_extract_numbers source_text)
                              (_extract_numbers target_text))))
              (app (warning_if (check_punctuation self && Qlt_bool vp 80.0)
                      punctuation_warning)
                   (warning_if (check_entities self && Qlt_bool ve 80.0)
                      entities_warning)))
    /\ vn == preservation_ratio (_extract_numbers source_text)
                                (_extract_numbers target_text)
    /\ vp == punctuation_ratio source_text target_text
    /\ ve == preservation_ratio (_extract_capitalized_words source_text)
                                (_extract_capitalized_words target_text).
Proof.
  destruct (numbers_check_spec source_text target_text [] []) as [vn [En [Hn _]]].
  set (st1 := if check_numbers self
              then (app [] [("numbers", vn)],
                    app [] (if Qlt_bool vn 100.0
                            then [numbers_warning
                                    (List.length (_extract_numbers source_text)
                                     - shared (_extract_numbers source_text)
                                              (_extract_numbers target_text))]
                            else []))
              else ([], [])).
  destruct (punctuation_check_value source_text target_text (fst st1) (snd st1))
    as [vp [Ep Hp]].
  set (st2 := if check_punctuation self
              then (app (fst st1) [("punctuation", vp)],
                    app (snd st1) (warning_if (Qlt_bool vp 80.0) punctuation_warning))
              else st1).
  destruct (entities_check_spec source_text target_text (fst st2) (snd st2))
    as [ve [Ee [He _]]].
  exists vn, vp, ve. split; [| auto].
  unfold checks. subst st2 st1. unfold component, warning_if in *.
  destruct (check_numbers self); destruct (check_punctuation self);
    destruct (check_entities self);
    destruct (Qlt_bool vn 100.0); destruct (Qlt_bool vp 80.0); destruct (Qlt_bool ve 80.0);
    cbn [fst snd app andb] in *;
    rewrite ?En; cbn [bind app]; rewrite ?Ep; cbn [bind app]; rewrite ?Ee;
    reflexivity.
Qed.

Lemma components_mean_range (l : list (string * Q)) (v : Q) :
  Forall (fun kv => snd kv == v) l -> l <> [] -> components_mean l == v.
Proof.
  intros F Hne. unfold components_mean.
  destruct l as [| kv rest] eqn:L; [congruence |]. rewrite <- L in *. clear L.
  assert (S : Qsum (map snd l) == v * float_of_nat (List.length l)).
  { clear kv rest Hne. induction F as [| kv l Hk _ IH].
    - assert (Z0 : float_of_nat 0 == 0) by reflexivity.
      change (List.length (@nil (string * Q))) with O. rewrite Z0.
      change (Qsum (map snd (@nil (string * Q)))) with 0. ring.
    - change (Qsum (map snd (kv :: l))) with (snd kv + Qsum (map snd l)).
      change (List.length (kv :: l)) with (S (List.length l)).
      assert (N : float_of_nat (S (List.length l)) == float_of_nat (List.length l) + 1).
      { unfold float_of_nat. rewrite Nat2Z.inj_succ. unfold Z.succ.
        rewrite inject_Z_plus. reflexivity. }
      rewrite N, IH, Hk. ring. }
  assert (P : 0 < float_of_nat (List.length l)).
  { apply float_of_nat_pos. destruct l; [congruence | discriminate]. }
  rewrite S. field. lra.
Qed.

(** [evaluate] on a non-blank target, toggle by toggle. *)
Lemma evaluate_components (self : t) (source_text target_text : string) :
  blank target_text = false ->
  exists o vn vp ve total,
    evaluate self source_text target_text = Ok o
    /\ vn == preservation_ratio (_extract_numbers source_text)
                                (_extract_numbers target_text)
    /\ vp == punctuation_ratio source_text target_text
    /\ ve == preservation_ratio (_extract_capitalized_words source_text)
                                (_extract_capitalized_words target_text)
    /\ details o
       = [("component_scores",
           DScores (app (component (check_numbers self) "numbers" vn)
                        (app (component (check_punctuation self) "punctuation" vp)
                             (component (check_entities self) "entities" ve))))]
    /\ score o = Some total
    /\ total == components_mean
                  (app (component (check_numbers self) "numbers" vn)
                       (app (component (check_punctuation self) "punctuation" vp)
                            (component (check_entities self) "entities" ve)))
    /\ warning o
       = joined (app (warning_if (check_numbers self && Qlt_bool vn 100.0)
                      (numbers_warning
                         (List.length (_extract_numbers source_text)
                          - shared (_extract_numbers source_text)
                                   (_extract_numbers target_text))))
                   (app (warning_if (check_punctuation self && Qlt_bool vp 80.0)
                           punctuation_warning)
                        (warning_if (check_entities self && Qlt_bool ve 80.0)
                           entities_warning))).
Proof.
  intro Hb.
  destruct (checks_components self source_text target_text) as [vn [vp [ve [C [Hn [Hp He]]]]]].
  destruct (evaluate_from_checks self source_text target_text _ _ Hb C)
    as [o [total [E [So [Ht [W D]]]]]].
  exists o, vn, vp, ve, total.
  split; [exact E |]. split; [exact Hn |]. split; [exact Hp |]. split; [exact He |].
  split; [exact D |]. split; [exact So |]. split; [exact Ht | exact W].
Qed.



Lemma filter_all {A : Type} (f : A -> bool) (l : list A) :
  (forall x, In x l -> f x = true) -> filter f l = l.
Proof.
  induction l as [| x l IH]; intro H; simpl; [reflexivity |].
  rewrite (H x (or_introl eq_refl)), IH by (intros; apply H; right; assumption).
  reflexivity.
Qed.

Lemma preservation_ratio_same (items : list string) : preservation_ratio items items == 100.
Proof.
  unfold preservation_ratio. destruct items as [| x rest] eqn:E; [reflexivity |].
  rewrite <- E. assert (Hne : items <> []) by (subst; discriminate).
  assert (S : shared items items = card items).
  { unfold shared, card. f_equal. apply filter_all. intros y Hy.
    apply existsb_exists. exists y. split; [apply nodup_In in Hy; exact Hy |].
    apply String.eqb_refl. }
  rewrite S. pose proof (float_of_nat_pos _ (card_pos items Hne)) as P. field. lra.
Qed.

Lemma char_in_chars (c : ascii) (text : string) : In c (chars text) -> char_in c text = true.
Proof.
  intro H. unfold char_in. apply existsb_exists. exists c.
  split; [exact H | apply Ascii.eqb_refl].
Qed.

Lemma punctuation_ratio_same (text : string) : punctuation_ratio text text == 100.
Proof.
  unfold punctuation_ratio.
  assert (K : punct_kept text text = punct_total text).
  { unfold punct_kept, punct_total. f_equal. apply filter_ext_in. intros c Hc.
    rewrite (char_in_chars c text Hc). apply andb_true_r. }
  rewrite K. destruct (punct_total text) as [| n] eqn:T; [reflexivity |].
  assert (P : 0 < float_of_nat (S n)) by (apply float_of_nat_pos; discriminate).
  field. lra.
Qed.

(** X13.  A non-blank translation that equals its source scores 100
    without a warning, whichever checks are enabled. *)
Theorem preservation_identical_texts (self : t) (text : string) :
  blank text = false ->
  yields (evaluate self text text) 100 None.
Proof.
  intro Hb.
  destruct (evaluate_components self text text Hb)
    as [o [vn [vp [ve [total [E [Hn [Hp [He [_ [So [Ht W]]]]]]]]]]]].
  rewrite preservation_ratio_same in Hn, He. rewrite punctuation_ratio_same in Hp.
  exists o, total. split; [exact E |]. split; [exact So |]. split.
  - rewrite Ht.
    destruct (check_numbers self); destruct (check_punctuation self);
      destruct (check_entities self); unfold component; cbn [app];
      try reflexivity;
      apply components_mean_range; try discriminate;
      repeat (constructor; [simpl; assumption |]); constructor.
  - rewrite W.
    replace (Qlt_bool vn 100.0) with false by (symmetry; apply Qlt_bool_false; lra).
    replace (Qlt_bool vp 80.0) with false by (symmetry; apply Qlt_bool_false; lra).
    replace (Qlt_bool ve 80.0) with false by (symmetry; apply Qlt_bool_false; lra).
    rewrite !andb_false_r. reflexivity.
Qed.

Lemma preservation_identical_texts_witness :
  yields (evaluate default "Order 66, now!" "Order 66, now!") 100 None.
Proof.
  apply (preservation_identical_texts default "Order 66, now!"). reflexivity.
Defined.

(** X14.  A blank target scores 0 with the warning "Empty translation",
    whatever the toggles; with all three checks disabled every non-blank
    target scores 100 without a warning. *)
Theorem preservation_gates (self : t) (source_text target_text : string) :
  (blank target_text = true ->
   yields (evaluate self source_text target_text) 0 (Some "Empty translation"))
  /\ (blank target_text = false ->
      check_numbers self = false -> check_punctuation self = false ->
      check_entities self = false ->
      yields (evaluate self source_text target_text) 100 None).
Proof.
  unfold yields, evaluate, checks. split.
  - intros ->. eexists. eexists.
    split; [reflexivity | split; [reflexivity | split; reflexivity]].
  - intros -> -> -> ->. cbn [bind]. eexists. eexists.
    split; [reflexivity | split; [reflexivity | split; reflexivity]].
Qed.

Lemma preservation_gates_witness :
  yields (evaluate default "The price is $100." " ") 0 (Some "Empty translation")
  /\ yields (evaluate {| check_numbers := false; check_punctuation := false;
                         check_entities := false |}
               "The price is $100." "teuer") 100 None.
Proof.
  destruct (preservation_gates default "The price is $100." " ") as [B _].
  destruct (preservation_gates {| check_numbers := false; check_punctuation := false;
                                  check_entities := false |}
              "The price is $100." "teuer") as [_ G].
  split; [apply B; reflexivity | apply G; reflexivity].
Defined.

End PreservationMore.

(* ================================================================= *)
(** ** Further properties: language detection                         *)
(* ================================================================= *)

Section LanguageDetectionMore.
Import Py LanguageDetectionMetric.
Local Open Scope Q_scope.

Variable detect_langs : string -> result lang_probs.

(** X15.  A blank target scores 0 with "Empty translation" and the
    detector is not consulted.  On a non-blank target an empty answer of
    the detector scores 0 with "Could not detect language", a
    [LangDetectException] scores the neutral 50 with its message in the
    warning, and every other exception of the detector leaves the metric
    uncaught. *)
Theorem language_detection_failures (self : t) (source_text target_text target_lang : string) :
  (blank target_text = true ->
   yields (evaluate detect_langs self source_text target_text target_lang)
     0 (Some "Empty translation"))
  /\ (blank target_text = false ->
      (detect_langs target_text = Ok [] ->
       yields (evaluate detect_langs self source_text target_text target_lang)
         0 (Some "Could not detect language"))
      /\ (forall msg, detect_langs target_text = Raise (LangDetectException msg) ->
          yields (evaluate detect_langs self source_text target_text target_lang)
            50 (Some ("Language detection error: " ++ msg)))
      /\ (forall e, detect_langs target_text = Raise e ->
          (forall msg, e <> LangDetectException msg) ->
          evaluate detect_langs self source_text target_text target_lang = Raise e)).
Proof.
  unfold yields, evaluate. split.
  - intros ->. eexists. eexists.
    split; [reflexivity | split; [reflexivity | split; [decimals; reflexivity | reflexivity]]].
  - intros ->. split; [| split].
    + intros ->. eexists. eexists.
      split; [reflexivity | split; [reflexivity | split; [decimals; reflexivity | reflexivity]]].
    + intros msg ->. eexists. eexists.
      split; [reflexivity | split; [reflexivity | split; [decimals; reflexivity | reflexivity]]].
    + intros e -> Hne. destruct e; try reflexivity. exfalso. exact (Hne msg eq_refl).
Qed.

(** X16.  On a non-blank target the outcome carries no warning exactly
    when the detector's first candidate is the target language with a
    confidence of at least the threshold; the score is then 100. *)
Theorem language_warning_free_iff (self : t) (source_text target_text target_lang : string)
        (o : MetricOutcome) :
  blank target_text = false ->
  evaluate detect_langs self source_text target_text target_lang = Ok o ->
  (warning o = None
   <-> exists confidence rest,
         detect_langs target_text = Ok ((target_lang, confidence) :: rest)
         /\ confidence_threshold self <= confidence)
  /\ (warning o = None -> score o = Some 100.0).
Proof.
  intros Hb. unfold evaluate. rewrite Hb.
  destruct (detect_langs target_text) as [[| [lang confidence] rest] | e] eqn:D.
  - intro E. injection E as <-. simpl. split; [split |]; try discriminate.
    intros [c [r [F _]]]. discriminate.
  - intro E. injection E as <-. cbn [warning score].
    destruct (String.eqb lang target_lang) eqn:L; cbn [negb].
    + apply String.eqb_eq in L. subst lang.
      destruct (Qlt_bool confidence (confidence_threshold self)) eqn:B.
      * apply Qlt_bool_true in B. split; [split |]; try discriminate.
        intros [c [r [F Hc]]]. injection F as <- <-. lra.
      * apply Qlt_bool_false in B. apply Qle_bool_iff in B as B'. rewrite B'.
        split; [split |]; try reflexivity.
        intros _. exists confidence, rest. split; [reflexivity | exact B].
    + apply String.eqb_neq in L. split; [split |]; try discriminate.
      intros [c [r [F _]]]. injection F as -> _ _. contradiction.
  - destruct e; try discriminate. intro E. injection E as <-. simpl.
    split; [split |]; try discriminate. intros [c [r [F _]]]. discriminate.
Qed.

End LanguageDetectionMore.

Lemma language_detection_failures_witness :
  yields (LanguageDetectionMetric.evaluate
            (fun _ => Py.Raise (Py.LangDetectException "No features in text."))
            LanguageDetectionMetric.default "Room 12" "12" "es")
    50 (Some "Language detection error: No features in text.")
  /\ yields (LanguageDetectionMetric.evaluate
               (fun _ => Py.Raise (Py.RuntimeError "profiles missing"))
               LanguageDetectionMetric.default "Room 12" "  " "es")
       0 (Some "Empty translation").
Proof.
  destruct (language_detection_failures
              (fun _ => Py.Raise (Py.LangDetectException "No features in text."))
              LanguageDetectionMetric.default "Room 12" "12" "es") as [_ N].
  destruct (N eq_refl) as [_ [L _]].
  destruct (language_detection_failures
              (fun _ => Py.Raise (Py.RuntimeError "profiles missing"))
              LanguageDetectionMetric.default "Room 12" "  " "es") as [B _].
  split; [apply L; reflexivity | apply B; reflexivity].
Defined.

Lemma language_warning_free_iff_witness :
  warning {| score := Some 100.0%Q; warning := None;
             details := [("detected_lang", DStr "es"); ("confidence", DFloat 0.9%Q);
                         ("matches_target", DBool true);
                         ("all_probabilities", DProbs [("es", 0.9%Q); ("pt", 0.1%Q)])] |} = None
  <-> exists confidence rest,
        constant_detector [("es", 0.9%Q); ("pt", 0.1%Q)] "Hola, mundo!"
        = Py.Ok (("es", confidence) :: rest)
        /\ (LanguageDetectionMetric.confidence_threshold LanguageDetectionMetric.default
            <= confidence)%Q.
Proof.
  apply (language_warning_free_iff (constant_detector [("es", 0.9%Q); ("pt", 0.1%Q)])
           LanguageDetectionMetric.default "Hello, world!" "Hola, mundo!" "es");
    vm_compute; reflexivity.
Defined.

(* ================================================================= *)
(** ** Further properties: semantic similarity                        *)
(* ================================================================= *)

Section SemanticMore.
Import Py SemanticSimilarityMetric.
Local Open Scope Q_scope.

Variable encode : string -> string -> string -> result (vector * vector).
Variable norm : vector -> Q.

Lemma dot_shapes (vec1 vec2 : vector) :
  List.length vec1 <> List.length vec2 -> exists msg, dot vec1 vec2 = Raise (ValueError msg).
Proof.
  revert vec2. induction vec1 as [| a v1 IH]; intros [| b v2] H; simpl in *.
  - contradiction.
  - eexists. reflexivity.
  - eexists. reflexivity.
  - destruct (IH v2) as [msg E]; [intro F; apply H; congruence |].
    rewrite E. eexists. reflexivity.
Qed.

Lemma dot_total (vec1 vec2 : vector) :
  List.length vec1 = List.length vec2 -> exists d, dot vec1 vec2 = Ok d.
Proof.
  revert vec2. induction vec1 as [| a v1 IH]; intros [| b v2] H; simpl in *; try discriminate.
  - eexists. reflexivity.
  - destruct (IH v2) as [d E]; [congruence |]. rewrite E. eexists. reflexivity.
Qed.

(** X17.  The metric never raises: an empty source or target scores 0
    with "Empty text" before the model is asked; a failure of the
    embedding backend, and two embeddings of different lengths, score 0
    with a warning that starts with "Similarity calculation error: ". *)
Theorem semantic_failures (self : t) (source_text target_text : string) :
  (truthy source_text = false \/ truthy target_text = false ->
   score (evaluate encode norm self source_text target_text) = Some 0.0
   /\ warning (evaluate encode norm self source_text target_text) = Some "Empty text")
  /\ (truthy source_text = true -> truthy target_text = true ->
      (forall e, encode (model_name self) source_text target_text = Raise e ->
       score (evaluate encode norm self source_text target_text) = Some 0.0
       /\ warning (evaluate encode norm self source_text target_text)
          = Some ("Similarity calculation error: " ++ str_of_exn e))
      /\ (forall vec1 vec2,
          encode (model_name self) source_text target_text = Ok (vec1, vec2) ->
          List.length vec1 <> List.length vec2 ->
          score (evaluate encode norm self source_text target_text) = Some 0.0
          /\ exists msg,
               warning (evaluate encode norm self source_text target_text)
               = Some ("Similarity calculation error: " ++ msg))).
Proof.
  unfold evaluate, similarity_of. split.
  - intros [-> | ->]; [| rewrite orb_true_r]; split; reflexivity.
  - intros -> ->. cbn [negb orb]. split.
    + intros e ->. cbn [bind]. split; reflexivity.
    + intros vec1 vec2 -> Hl. cbn [bind]. unfold _cosine_similarity.
      destruct (dot_shapes vec1 vec2 Hl) as [msg ->]. cbn [bind].
      split; [reflexivity |]. exists msg. reflexivity.
Qed.

(** The score on two embeddings whose norms are not 0. *)
Lemma evaluate_similarity (self : t) (source_text target_text : string)
      (vec1 vec2 : vector) (d : Q) :
  truthy source_text = true -> truthy target_text = true ->
  encode (model_name self) source_text target_text = Ok (vec1, vec2) ->
  dot vec1 vec2 = Ok d ->
  ~ norm vec1 == 0 -> ~ norm vec2 == 0 ->
  score (evaluate encode norm self source_text target_text)
  = Some (max 0.0 (d / (norm vec1 * norm vec2)) * 100.0)
  /\ warning (evaluate encode norm self source_text target_text) = None.
Proof.
  intros Hs Ht E D N1 N2. unfold evaluate, similarity_of, _cosine_similarity.
  rewrite Hs, Ht. cbn [negb orb]. rewrite E. cbn [bind]. rewrite D. cbn [bind].
  apply Qeq_bool_false in N1 as B1. apply Qeq_bool_false in N2 as B2.
  rewrite B1, B2. cbn [orb]. rewrite truediv_Ok.
  - split; reflexivity.
  - intro Z. apply Qmult_integral in Z. tauto.
Qed.

(** X19.  A zero norm of either embedding, and a dot product that is not
    positive (orthogonal or opposed embeddings), score 0 without a
    warning. *)
Theorem semantic_zero_score (self : t) (source_text target_text : string)
        (vec1 vec2 : vector) (d : Q) :
  truthy source_text = true -> truthy target_text = true ->
  encode (model_name self) source_text target_text = Ok (vec1, vec2) ->
  dot vec1 vec2 = Ok d ->
  0 <= norm vec1 -> 0 <= norm vec2 ->
  norm vec1 == 0 \/ norm vec2 == 0 \/ d <= 0 ->
  exists s,
    score (evaluate encode norm self source_text target_text) = Some s
    /\ s == 0
    /\ warning (evaluate encode norm self source_text target_text) = None.
Proof.
  intros Hs Ht E D P1 P2 H.
  destruct (Qeq_bool (norm vec1) 0 || Qeq_bool (norm vec2) 0) eqn:Z.
  - unfold evaluate, similarity_of, _cosine_similarity. rewrite Hs, Ht. cbn [negb orb].
    rewrite E. cbn [bind]. rewrite D. cbn [bind]. rewrite Z.
    eexists. split; [reflexivity |]. split; [| reflexivity].
    unfold max. simpl. reflexivity.
  - apply orb_false_elim in Z as [Z1 Z2].
    apply Qeq_bool_false in Z1. apply Qeq_bool_false in Z2.
    destruct (evaluate_similarity self source_text target_text vec1 vec2 d Hs Ht E D Z1 Z2)
      as [S W].
    eexists. split; [exact S |]. split; [| exact W].
    destruct H as [H | [H | H]]; [contradiction | contradiction |].
    assert (P : 0 < norm vec1 * norm vec2) by nra.
    assert (L : d / (norm vec1 * norm vec2) <= 0).
    { apply Qle_shift_div_r; [exact P | lra]. }
    unfold max. destruct (Qlt_bool 0.0 (d / (norm vec1 * norm vec2))) eqn:B.
    + apply Qlt_bool_true in B. lra.
    + reflexivity.
Qed.

End SemanticMore.

Lemma semantic_failures_witness :
  score (SemanticSimilarityMetric.evaluate
           (fun _ _ _ => Py.Raise (Py.RuntimeError "model not loaded")) axis_norm
           SemanticSimilarityMetric.default "Hello" "Hola") = Some 0.0%Q
  /\ warning (SemanticSimilarityMetric.evaluate
                (fun _ _ _ => Py.Raise (Py.RuntimeError "model not loaded")) axis_norm
                SemanticSimilarityMetric.default "Hello" "Hola")
     = Some "Similarity calculation error: model not loaded".
Proof.
  destruct (semantic_failures (fun _ _ _ => Py.Raise (Py.RuntimeError "model not loaded"))
              axis_norm SemanticSimilarityMetric.default "Hello" "Hola") as [_ F].
  destruct (F eq_refl eq_refl) as [R _].
  exact (R (Py.RuntimeError "model not loaded") eq_refl).
Defined.

Lemma semantic_zero_score_witness :
  exists s,
    score (SemanticSimilarityMetric.evaluate (constant_encode [0; 3] [4; 0])%Q axis_norm
             SemanticSimilarityMetric.default "Hello" "Hola") = Some s
    /\ (s == 0)%Q
    /\ warning (SemanticSimilarityMetric.evaluate (constant_encode [0; 3] [4; 0])%Q
                  axis_norm SemanticSimilarityMetric.default "Hello" "Hola") = None.
Proof.
  apply (semantic_zero_score (constant_encode [0; 3] [4; 0])%Q axis_norm
           SemanticSimilarityMetric.default "Hello" "Hola" [0; 3]%Q [4; 0]%Q 0%Q);
    try reflexivity; try discriminate.
  right. right. discriminate.
Defined.

(* ================================================================= *)
(** ** Further properties: score fusion                               *)
(* ================================================================= *)

Section FusionMore.
Import Py ScoreFusion.
Local Open Scope Q_scope.

Lemma kept_nil (self : t) (m : list (string * MetricOutcome)) :
  Forall (fun item => _get_metric_weight self (fst item) <= 0) m -> kept self m = [].
Proof.
  induction 1 as [| item m H _ IH]; [reflexivity |].
  unfold kept in *. simpl.
  apply Qlt_bool_false in H. rewrite H. exact IH.
Qed.

(** X20.  When no entry of the mapping has a positive weight, as under a
    configuration without weights, the breakdown is always the same: the
    overall score 0, no metric, no warning, and the explanation of a poor
    translation without factors. *)
Theorem fuse_nothing_weighted (self : t) (m : list (string * MetricOutcome)) :
  Forall (fun item => _get_metric_weight self (fst item) <= 0) m ->
  fuse_scores self m = empty_breakdown.
Proof.
  intro H. rewrite (fuse_by_kept self m []).
  - reflexivity.
  - rewrite (kept_nil self m H). reflexivity.
Qed.

Lemma fuse_nothing_weighted_witness :
  fuse_scores {| config := {| config.floats := []; config.bools := []; config.strs := [] |} |}
    [("length_ratio", outcome_of 100 None); ("repetition", outcome_of 90 None)]
  = empty_breakdown.
Proof.
  apply fuse_nothing_weighted.
  constructor; [vm_compute; discriminate |].
  constructor; [vm_compute; discriminate |].
  constructor.
Defined.

Lemma kept_Permutation (self : t) (m m' : list (string * MetricOutcome)) :
  Permutation m m' -> Permutation (kept self m) (kept self m').
Proof.
  unfold kept. induction 1 as [| x l l' _ IH | x y l | l l' l'' _ IH1 _ IH2]; simpl.
  - constructor.
  - destruct (Qlt_bool 0 (_get_metric_weight self (fst x))); [constructor |]; exact IH.
  - destruct (Qlt_bool 0 (_get_metric_weight self (fst x)));
      destruct (Qlt_bool 0 (_get_metric_weight self (fst y)));
      try apply Permutation_refl. apply perm_swap.
  - exact (Permutation_trans IH1 IH2).
Qed.

(** X22.  The order of the entries of the mapping does not matter to
    what the breakdown reports: a reordered mapping fuses to the same
    metrics, with the same values, weights and details, and to the same
    warnings, up to their order. *)
Theorem fuse_reordered_entries (self : t) (m m' : list (string * MetricOutcome)) :
  Permutation m m' ->
  Permutation (metrics (fuse_scores self m)) (metrics (fuse_scores self m'))
  /\ Permutation (warnings (fuse_scores self m)) (warnings (fuse_scores self m')).
Proof.
  intro H. apply (kept_Permutation self) in H.
  rewrite !fuse_metrics, !fuse_warnings. split.
  - apply Permutation_map. exact H.
  - apply Permutation_flat_map. exact H.
Qed.

Lemma fuse_reordered_entries_witness :
  Permutation
    (metrics (fuse_scores two_one
                [("length_ratio", outcome_of 80 (Some "short"));
                 ("repetition", outcome_of 50 None)]))
    (metrics (fuse_scores two_one
                [("repetition", outcome_of 50 None);
                 ("length_ratio", outcome_of 80 (Some "short"))]))
  /\ Permutation
       (warnings (fuse_scores two_one
                    [("length_ratio", outcome_of 80 (Some "short"));
                     ("repetition", outcome_of 50 None)]))
       (warnings (fuse_scores two_one
                    [("repetition", outcome_of 50 None);
                     ("length_ratio", outcome_of 80 (Some "short"))])).
Proof.
  apply (fuse_reordered_entries two_one
           [("length_ratio", outcome_of 80 (Some "short")); ("repetition", outcome_of 50 None)]
           [("repetition", outcome_of 50 None); ("length_ratio", outcome_of 80 (Some "short"))]).
  apply perm_swap.
Defined.

(** *** The explanation *)

Lemma insert_desc_Permutation (key : MetricResult -> Q) (x : MetricResult)
      (l : list MetricResult) :
  Permutation (insert_desc key x l) (x :: l).
Proof.
  induction l as [| y l IH]; simpl.
  - apply Permutation_refl.
  - destruct (Qlt_bool (key x) (key y)).
    + apply Permutation_trans with (y :: x :: l); [constructor; exact IH | apply perm_swap].
    + apply Permutation_refl.
Qed.

Lemma sorted_desc_Permutation (key : MetricResult -> Q) (l : list MetricResult) :
  Permutation (sorted_desc key l) l.
Proof.
  induction l as [| x l IH]; simpl.
  - constructor.
  - apply Permutation_trans with (x :: sorted_desc key l).
    + apply insert_desc_Permutation.
    + constructor. exact IH.
Qed.

Lemma insert_desc_sorted (key : MetricResult -> Q) (x : MetricResult)
      (l : list MetricResult) :
  StronglySorted (fun a b => key b <= key a) l ->
  StronglySorted (fun a b => key b <= key a) (insert_desc key x l).
Proof.
  induction 1 as [| y l S IH F]; simpl.
  - constructor; constructor.
  - destruct (Qlt_bool (key x) (key y)) eqn:B.
    + apply Qlt_bool_true in B. constructor; [exact IH |].
      apply Forall_forall. intros z Hz.
      apply (Permutation_in _ (insert_desc_Permutation key x l)) in Hz.
      destruct Hz as [<- | Hz]; [lra |].
      rewrite Forall_forall in F. exact (F z Hz).
    + apply Qlt_bool_false in B. constructor; [constructor; assumption |].
      constructor; [exact B |].
      apply Forall_forall. intros z Hz. rewrite Forall_forall in F.
      specialize (F z Hz). lra.
Qed.

Lemma sorted_desc_sorted (key : MetricResult -> Q) (l : list MetricResult) :
  StronglySorted (fun a b => key b <= key a) (sorted_desc key l).
Proof.
  induction l as [| x l IH]; simpl.
  - constructor.
  - apply insert_desc_sorted, IH.
Qed.

Lemma skipn_In {A : Type} (n : nat) (l : list A) (x : A) : In x (skipn n l) -> In x l.
Proof.
  revert l. induction n as [| n IH]; intros [| y l] H; simpl in *; try assumption.
  right. exact (IH l H).
Qed.

Lemma sorted_firstn_skipn {A : Type} (R : A -> A -> Prop) (l : list A) (n : nat) :
  StronglySorted R l ->
  forall a b, In a (firstn n l) -> In b (skipn n l) -> R a b.
Proof.
  intro S. revert n. induction S as [| x l S IH F]; intros n a b Ha Hb.
  - rewrite firstn_nil in Ha. contradiction.
  - destruct n as [| n]; [contradiction |]. simpl in Ha, Hb.
    destruct Ha as [<- | Ha].
    + rewrite Forall_forall in F. apply F. exact (skipn_In n l b Hb).
    + exact (IH n a b Ha Hb).
Qed.

Lemma factor_name_known (r : MetricResult) :
  In (name r) (map fst metric_config_map) -> factor_name r = display_name r.
Proof.
  unfold factor_name, display_name. simpl.
  intros [<- | [<- | [<- | [<- | [<- | []]]]]]; reflexivity.
Qed.

Lemma fuse_metrics_known (self : t) (m : list (string * MetricOutcome)) (r : MetricResult) :
  In r (metrics (fuse_scores self m)) -> In (name r) (map fst metric_config_map).
Proof.
  rewrite fuse_metrics. intro Hr. apply in_map_iff in Hr. destruct Hr as [item [<- Hk]].
  apply kept_positive in Hk. apply (positive_weight_known self). apply Hk.
Qed.

(** X24.  The explanation of a breakdown opens with a label fixed by the
    overall score (Excellent from 90, Good from 75, Fair from 60, Poor
    below), then prints the score, and lists as top factors three
    metrics (all of them when there are fewer) with the greatest
    products of score and weight, under the names Language Detection,
    Length Ratio, Repetition, Preservation and Semantic Similarity: no
    metric left out contributes more than a listed one. *)
Theorem explanation_top_factors (self : t) (m : list (string * MetricOutcome)) :
  exists (label printed : string) (top rest : list MetricResult),
    explanation (fuse_scores self m)
    = label ++ " translation quality (score: " ++ printed
        ++ "/100). Top factors: " ++ join ", " (map display_name top) ++ "."
    /\ Permutation (app top rest) (metrics (fuse_scores self m))
    /\ List.length top = Nat.min 3 (List.length (metrics (fuse_scores self m)))
    /\ (forall t r, In t top -> In r rest -> contribution r <= contribution t)
    /\ (90 <= overall_score (fuse_scores self m) -> label = "Excellent")
    /\ (75 <= overall_score (fuse_scores self m) ->
        overall_score (fuse_scores self m) < 90 -> label = "Good")
    /\ (60 <= overall_score (fuse_scores self m) ->
        overall_score (fuse_scores self m) < 75 -> label = "Fair")
    /\ (overall_score (fuse_scores self m) < 60 -> label = "Poor").
Proof.
  set (b := fuse_scores self m).
  assert (E : explanation b = _generate_explanation (metrics b) (overall_score b))
    by reflexivity.
  set (s := sorted_desc (fun r => value r * weight r) (metrics b)).
  assert (P : Permutation (app (firstn 3 s) (skipn 3 s)) (metrics b))
    by (rewrite firstn_skipn; apply sorted_desc_Permutation).
  assert (N : map factor_name (firstn 3 s) = map display_name (firstn 3 s)).
  { apply map_ext_in. intros t Ht. apply factor_name_known.
    apply (fuse_metrics_known self m). apply (Permutation_in _ P).
    apply in_or_app. left. exact Ht. }
  exists (if Qle_bool 90 (overall_score b) then "Excellent"
          else if Qle_bool 75 (overall_score b) then "Good"
          else if Qle_bool 60 (overall_score b) then "Fair"
          else "Poor"),
         (format_fixed 1 (overall_score b)), (firstn 3 s), (skipn 3 s).
  split; [rewrite <- N; exact E |]. split; [exact P |]. split; [| split].
  - rewrite length_firstn. f_equal. apply Permutation_length, sorted_desc_Permutation.
  - intros t r Ht Hr. unfold contribution.
    exact (sorted_firstn_skipn (fun a c => value c * weight c <= value a * weight a)
             s 3 (sorted_desc_sorted _ _) t r Ht Hr).
  - split; [| split; [| split]].
    + intro H. apply Qle_bool_iff in H. rewrite H. reflexivity.
    + intros H1 H2. apply Qle_bool_false in H2. apply Qle_bool_iff in H1.
      rewrite H2, H1. reflexivity.
    + intros H1 H2. apply Qle_bool_iff in H1.
      assert (H3 : overall_score b < 90) by lra.
      apply Qle_bool_false in H2. apply Qle_bool_false in H3.
      rewrite H3, H2, H1. reflexivity.
    + intro H.
      assert (H2 : overall_score b < 75) by lra.
      assert (H3 : overall_score b < 90) by lra.
      apply Qle_bool_false in H, H2, H3. rewrite H3, H2, H. reflexivity.
Qed.

End FusionMore.

(* ================================================================= *)
(** ** Further properties: the orchestrator                           *)
(* ================================================================= *)

Section EvaluatorMore.
Import Py.
Local Open Scope Q_scope.

Variable detect_langs : string -> result LanguageDetectionMetric.lang_probs.
Variable encode : string -> string -> string
                  -> result (SemanticSimilarityMetric.vector * SemanticSimilarityMetric.vector).
Variable norm : SemanticSimilarityMetric.vector -> Q.

(** The keys of the mapping the orchestrator collects. *)
Lemma run_metrics_names (self : Evaluator.t) (source_text target_text target_lang : string)
      (m : list (string * MetricOutcome)) :
  Evaluator.run_metrics detect_langs encode norm self source_text target_text target_lang
  = Ok m ->
  map fst m = enabled_metrics self.
Proof.
  unfold Evaluator.run_metrics, enabled_metrics. simpl filter.
  destruct (config.is_metric_enabled (Evaluator.config self) "heuristics" "language_detection");
    [destruct (LanguageDetectionMetric.evaluate detect_langs (Evaluator.language_detection self)
                 source_text target_text target_lang); cbn [bind]; [| discriminate] |];
    (destruct (config.is_metric_enabled (Evaluator.config self) "heuristics" "length_ratio");
     [destruct (LengthRatioMetric.evaluate (Evaluator.length_ratio self)
                  source_text target_text); cbn [bind]; [| discriminate] |]);
    (destruct (config.is_metric_enabled (Evaluator.config self) "heuristics" "repetition");
     [destruct (RepetitionMetric.evaluate (Evaluator.repetition self)
                  source_text target_text); cbn [bind]; [| discriminate] |]);
    (destruct (config.is_metric_enabled (Evaluator.config self) "heuristics" "preservation");
     [destruct (PreservationMetric.evaluate (Evaluator.preservation self)
                  source_text target_text); cbn [bind]; [| discriminate] |]);
    destruct (Evaluator.semantic_similarity self);
    intro E; injection E as <-; reflexivity.
Qed.

Lemma kept_names (self : ScoreFusion.t) (m : list (string * MetricOutcome)) :
  map name (metrics (ScoreFusion.fuse_scores self m))
  = filter (fun metric => Qlt_bool 0 (ScoreFusion._get_metric_weight self metric)) (map fst m).
Proof.
  rewrite fuse_metrics, map_map. unfold kept.
  induction m as [| item m IH]; [reflexivity |]. simpl.
  destruct (Qlt_bool 0 (ScoreFusion._get_metric_weight self (fst item))); simpl;
    [f_equal |]; exact IH.
Qed.


(** X25.  With the four heuristics disabled and no semantic metric, an
    evaluation consults no backend and cannot fail, not even on an empty
    source text: it returns the breakdown without metrics, with the
    overall score 0. *)
Theorem evaluation_all_disabled (self : Evaluator.t) (translation_id : Z)
        (provider_name model_id source_text target_text target_lang : string)
        (source_lang reference_translation : option string) :
  config.is_metric_enabled (Evaluator.config self) "heuristics" "language_detection" = false ->
  config.is_metric_enabled (Evaluator.config self) "heuristics" "length_ratio" = false ->
  config.is_metric_enabled (Evaluator.config self) "heuristics" "repetition" = false ->
  config.is_metric_enabled (Evaluator.config self) "heuristics" "preservation" = false ->
  Evaluator.semantic_similarity self = None ->
  Evaluator.evaluate_translation detect_langs encode norm self translation_id
    provider_name model_id source_text target_text target_lang
    source_lang reference_translation
  = Ok {| translation_id := translation_id;
          provider_name := provider_name;
          model_id := model_id;
          score_breakdown := empty_breakdown |}.
Proof.
  intros H1 H2 H3 H4 H5.
  unfold Evaluator.evaluate_translation, Evaluator.run_metrics.
  rewrite H1, H2, H3, H4, H5. reflexivity.
Qed.

(** X26.  The metrics of the breakdown of an evaluation are, in the
    order language detection, length ratio, repetition, preservation,
    semantic similarity, exactly those that are enabled and whose
    resolved weight is positive. *)
Theorem evaluation_metric_names (self : Evaluator.t) (translation_id : Z)
        (provider_name model_id source_text target_text target_lang : string)
        (source_lang reference_translation : option string) (r : EvaluationResult) :
  Evaluator.evaluate_translation detect_langs encode norm self translation_id
    provider_name model_id source_text target_text target_lang
    source_lang reference_translation = Ok r ->
  map name (metrics (score_breakdown r))
  = filter (fun metric =>
              Qlt_bool 0 (ScoreFusion._get_metric_weight (Evaluator.scorer self) metric))
           (enabled_metrics self).
Proof.
  unfold Evaluator.evaluate_translation.
  destruct (Evaluator.run_metrics detect_langs encode norm self
              source_text target_text target_lang) as [m |] eqn:R; cbn [bind]; [| discriminate].
  intro E. injection E as <-. cbn [score_breakdown].
  rewrite kept_names. f_equal. exact (run_metrics_names self _ _ _ m R).
Qed.


End EvaluatorMore.

Lemma evaluation_all_disabled_witness :
  Evaluator.evaluate_translation
    (fun _ => Py.Raise (Py.RuntimeError "no profiles"))
    (fun _ _ _ => Py.Raise (Py.RuntimeError "no model")) axis_norm
    (Evaluator.init {| config.floats := []; config.bools := []; config.strs := [] |})
    7%Z "openai" "gpt-4" EmptyString "Hola" "es" None None
  = Py.Ok {| translation_id := 7%Z;
             provider_name := "openai";
             model_id := "gpt-4";
             score_breakdown := empty_breakdown |}.
Proof.
  apply evaluation_all_disabled; reflexivity.
Defined.

Lemma evaluation_metric_names_witness :
  exists r,
    Evaluator.evaluate_translation (constant_detector [("es", 0.9%Q)])
      (fun _ _ _ => Py.Raise (Py.RuntimeError "no model")) axis_norm
      (Evaluator.init heuristics_config) 7%Z "openai" "gpt-4"
      "Hello, world!" "Hola, mundo!" "es" None None = Py.Ok r
    /\ map name (metrics (score_breakdown r))
       = ["language_detection"; "length_ratio"; "repetition"; "preservation"].
Proof.
  eexists. split; [vm_compute; reflexivity |].
  apply (evaluation_metric_names (constant_detector [("es", 0.9%Q)])
           (fun _ _ _ => Py.Raise (Py.RuntimeError "no model")) axis_norm
           (Evaluator.init heuristics_config) 7%Z "openai" "gpt-4"
           "Hello, world!" "Hola, mundo!" "es" None None).
  vm_compute. reflexivity.
Defined.


(* ================================================================= *)
(** ** Further properties: the routes                                 *)
(* ================================================================= *)

Section SortingFacts.
Import Py.
Local Open Scope Q_scope.

Context {A : Type}.

Lemma insert_reverse_Permutation (key : A -> Q) (x : A) (l : list A) :
  Permutation (insert_reverse key x l) (x :: l).
Proof.
  induction l as [| y l IH]; simpl.
  - apply Permutation_refl.
  - destruct (Qlt_bool (key x) (key y)).
    + apply Permutation_trans with (y :: x :: l); [constructor; exact IH | apply perm_swap].
    + apply Permutation_refl.
Qed.

Lemma sorted_reverse_Permutation (key : A -> Q) (l : list A) :
  Permutation (sorted_reverse key l) l.
Proof.
  induction l as [| x l IH]; simpl.
  - constructor.
  - apply Permutation_trans with (x :: sorted_reverse key l).
    + apply insert_reverse_Permutation.
    + constructor. exact IH.
Qed.

Lemma insert_reverse_sorted (key : A -> Q) (x : A) (l : list A) :
  StronglySorted (fun a b => key b <= key a) l ->
  StronglySorted (fun a b => key b <= key a) (insert_reverse key x l).
Proof.
  induction 1 as [| y l S IH F]; simpl.
  - constructor; constructor.
  - destruct (Qlt_bool (key x) (key y)) eqn:B.
    + apply Qlt_bool_true in B. constructor; [exact IH |].
      apply Forall_forall. intros z Hz.
      apply (Permutation_in _ (insert_reverse_Permutation key x l)) in Hz.
      destruct Hz as [<- | Hz]; [lra |].
      rewrite Forall_forall in F. exact (F z Hz).
    + apply Qlt_bool_false in B. constructor; [constructor; assumption |].
      constructor; [exact B |].
      apply Forall_forall. intros z Hz. rewrite Forall_forall in F.
      specialize (F z Hz). lra.
Qed.

Lemma sorted_reverse_sorted (key : A -> Q) (l : list A) :
  StronglySorted (fun a b => key b <= key a) (sorted_reverse key l).
Proof.
  induction l as [| x l IH]; simpl.
  - constructor.
  - apply insert_reverse_sorted, IH.
Qed.

(** Sorting commutes with a map that keeps the keys. *)
Lemma insert_reverse_map (key : A -> Q) (f : A -> A) (x : A) (l : list A) :
  key (f x) = key x -> (forall y, In y l -> key (f y) = key y) ->
  insert_reverse key (f x) (map f l) = map f (insert_reverse key x l).
Proof.
  intros Hx. induction l as [| y l IH]; intro H; simpl; [reflexivity |].
  rewrite Hx, (H y (or_introl eq_refl)).
  destruct (Qlt_bool (key x) (key y)); simpl; [| reflexivity].
  rewrite IH by (intros; apply H; right; assumption). reflexivity.
Qed.

Lemma sorted_reverse_map (key : A -> Q) (f : A -> A) (l : list A) :
  (forall y, In y l -> key (f y) = key y) ->
  sorted_reverse key (map f l) = map f (sorted_reverse key l).
Proof.
  induction l as [| x l IH]; intro H; simpl; [reflexivity |].
  rewrite IH by (intros; apply H; right; assumption).
  apply insert_reverse_map.
  - apply H. left. reflexivity.
  - intros y Hy. apply H. right.
    exact (Permutation_in _ (sorted_reverse_Permutation key l) Hy).
Qed.

Lemma enumerate_cons (x : A) (l : list A) (n : nat) :
  enumerate (x :: l) n = (n, x) :: enumerate l (S n).
Proof.
  reflexivity.
Qed.

Lemma enumerate_fst (l : list A) (n : nat) :
  map fst (enumerate l n) = seq n (List.length l).
Proof.
  revert n. induction l as [| x l IH]; intro n; [reflexivity |].
  rewrite enumerate_cons. simpl. rewrite IH. reflexivity.
Qed.

Lemma enumerate_snd (l : list A) (n : nat) : map snd (enumerate l n) = l.
Proof.
  revert n. induction l as [| x l IH]; intro n; [reflexivity |].
  rewrite enumerate_cons. simpl. rewrite IH. reflexivity.
Qed.

Lemma enumerate_map (f : A -> A) (l : list A) (n : nat) :
  enumerate (map f l) n = map (fun p => (fst p, f (snd p))) (enumerate l n).
Proof.
  revert n. induction l as [| x l IH]; intro n; [reflexivity |].
  simpl map at 1. rewrite !enumerate_cons. simpl. rewrite IH. reflexivity.
Qed.

Lemma StronglySorted_map {B : Type} (R : B -> B -> Prop) (g : A -> B) (l : list A) :
  StronglySorted (fun a b => R (g a) (g b)) l -> StronglySorted R (map g l).
Proof.
  induction 1 as [| x l S IH F]; simpl; constructor; [exact IH |].
  apply Forall_map. exact F.
Qed.

Lemma StronglySorted_of_map {B : Type} (R : B -> B -> Prop) (g : A -> B) (l : list A) :
  StronglySorted R (map g l) -> StronglySorted (fun a b => R (g a) (g b)) l.
Proof.
  induction l as [| x l IH]; simpl; intro S; [constructor |].
  inversion S as [| ? ? S' F]; subst. constructor; [exact (IH S') |].
  apply Forall_forall. intros y Hy. rewrite Forall_forall in F.
  apply F, in_map, Hy.
Qed.

End SortingFacts.

Section RoutesMore.
Import Py.
Local Open Scope Q_scope.

(** *** The summary *)

(** An entry of the rankings. *)
Lemma rankings_eq (results : list api.TranslationWithEvaluation) :
  map ranking_entry (api.rankings (translation._generate_summary results))
  = map ranked (sorted_reverse overall_of results)
  /\ map api.rank (api.rankings (translation._generate_summary results))
     = seq 1 (List.length results).
Proof.
  unfold translation._generate_summary. cbn [api.rankings].
  change (fun r => response.overall_score (response.score_breakdown (api.evaluation r)))
    with overall_of.
  rewrite !map_map. split.
  - rewrite <- (enumerate_snd (sorted_reverse overall_of results) 1) at 2.
    rewrite map_map. apply map_ext. intros [idx result]. reflexivity.
  - rewrite <- (Permutation_length (sorted_reverse_Permutation overall_of results)).
    rewrite <- (enumerate_fst (sorted_reverse overall_of results) 1).
    apply map_ext. intros [idx result]. reflexivity.
Qed.

Lemma best_eq (results : list api.TranslationWithEvaluation) :
  api.best_provider (translation._generate_summary results)
  = option_map api.provider (hd_error (api.rankings (translation._generate_summary results)))
  /\ api.best_score (translation._generate_summary results)
     = option_map api.score (hd_error (api.rankings (translation._generate_summary results))).
Proof.
  unfold translation._generate_summary. cbn [api.rankings api.best_provider api.best_score].
  destruct (map _ (enumerate _ 1)); split; reflexivity.
Qed.

(** X28.  The summary of a run ranks every translation exactly once,
    with its provider, model, overall score and latency, under the ranks
    1, 2, ... and by descending overall score; the best provider and the
    best score are those of the first rank, and no translation has a
    greater overall score than the best score. *)
Theorem summary_ranking (results : list api.TranslationWithEvaluation) :
  api.total_providers (translation._generate_summary results) = List.length results
  /\ map api.rank (api.rankings (translation._generate_summary results)) = seq 1 (List.length results)
  /\ Permutation (map ranking_entry (api.rankings (translation._generate_summary results)))
                 (map ranked results)
  /\ StronglySorted (fun a b => api.score b <= api.score a)
                    (api.rankings (translation._generate_summary results))
  /\ api.best_provider (translation._generate_summary results)
     = option_map api.provider (hd_error (api.rankings (translation._generate_summary results)))
  /\ api.best_score (translation._generate_summary results)
     = option_map api.score (hd_error (api.rankings (translation._generate_summary results)))
  /\ (forall r, In r results ->
      exists best,
        api.best_score (translation._generate_summary results) = Some best /\ overall_of r <= best).
Proof.
  destruct (rankings_eq results) as [E R]. destruct (best_eq results) as [BP BS].
  assert (P : Permutation (map ranking_entry (api.rankings (translation._generate_summary results)))
                          (map ranked results)).
  { rewrite E. apply Permutation_map, sorted_reverse_Permutation. }
  assert (S : StronglySorted (fun a b => api.score b <= api.score a)
                             (api.rankings (translation._generate_summary results))).
  { apply (StronglySorted_of_map
             (fun a b => snd (fst b) <= snd (fst a)) ranking_entry).
    rewrite E.
    apply (StronglySorted_map (fun a b => snd (fst b) <= snd (fst a)) ranked).
    exact (sorted_reverse_sorted overall_of results). }
  split; [reflexivity |]. split; [exact R |]. split; [exact P |]. split; [exact S |].
  split; [exact BP |]. split; [exact BS |].
  intros r Hr. rewrite BS.
  assert (Hin : In (ranked r) (map ranking_entry (api.rankings (translation._generate_summary results)))).
  { apply (Permutation_in _ (Permutation_sym P)). apply in_map. exact Hr. }
  apply in_map_iff in Hin. destruct Hin as [k [Ek Hk]].
  assert (Sk : api.score k = overall_of r).
  { unfold ranking_entry, ranked in Ek. injection Ek as _ _ Es _. exact Es. }
  destruct (api.rankings (translation._generate_summary results)) as [| first rest]; [contradiction |].
  exists (api.score first). split; [reflexivity |].
  rewrite <- Sk. destruct Hk as [<- | Hk]; [apply Qle_refl |].
  inversion S as [| ? ? _ F]; subst. rewrite Forall_forall in F. exact (F k Hk).
Qed.

(** The summary reads the provider, the model, the latency and the
    overall score of an entry only. *)
Lemma summary_map (f : api.TranslationWithEvaluation -> api.TranslationWithEvaluation)
      (results : list api.TranslationWithEvaluation) :
  (forall r, In r results ->
             overall_of (f r) = overall_of r /\ api.translation (f r) = api.translation r) ->
  translation._generate_summary (map f results) = translation._generate_summary results.
Proof.
  intro H.
  assert (R : api.rankings (translation._generate_summary (map f results))
              = api.rankings (translation._generate_summary results)).
  { unfold translation._generate_summary. cbn [api.rankings].
    change (fun r => response.overall_score (response.score_breakdown (api.evaluation r)))
      with overall_of.
    rewrite (sorted_reverse_map overall_of f results) by (intros y Hy; apply (H y Hy)).
    rewrite enumerate_map, map_map. apply map_ext_in. intros [idx result] Hin.
    assert (Hr : In result results).
    { apply (Permutation_in _ (sorted_reverse_Permutation overall_of results)).
      rewrite <- (enumerate_snd (sorted_reverse overall_of results) 1).
      apply in_map_iff. exists (idx, result). split; [reflexivity | exact Hin]. }
    destruct (H result Hr) as [Ho Ht]. cbn [fst snd].
    fold (overall_of (f result)). fold (overall_of result). rewrite Ho, Ht. reflexivity. }
  unfold translation._generate_summary in *. cbn [api.rankings] in R. rewrite R, length_map.
  reflexivity.
Qed.

(** *** Stored runs *)

Lemma fuse_no_overall (self : ScoreFusion.t) (m : list (string * MetricOutcome)) :
  Forall (fun metric => name metric <> "overall_score")
         (metrics (ScoreFusion.fuse_scores self m)).
Proof.
  rewrite fuse_metrics. apply Forall_forall. intros r Hr.
  apply in_map_iff in Hr. destruct Hr as [item [<- Hk]].
  apply kept_positive in Hk. destruct Hk as [_ Hk]. simpl. intro E.
  rewrite E in Hk. change "overall_score" with constants.METRIC_OVERALL in Hk.
  rewrite overall_weight in Hk. revert Hk. decimals. apply Qlt_irrefl.
Qed.

Lemma reconstruct_metric_rows (ms : list MetricResult) (st : translation.state) :
  Forall (fun metric => name metric <> "overall_score") ms ->
  fold_left translation.reconstruct_step
    (map (fun metric =>
            {| models.metric_name := name metric;
               models.metric_value := value metric;
               models.details := Some (models.metric_details (mr_details metric)) |}) ms)
    st
  = {| translation.metrics :=
         app (translation.metrics st)
             (map (fun metric => stored_metric (response_of_metric metric)) ms);
       translation.overall_score := translation.overall_score st;
       translation.explanation := translation.explanation st;
       translation.warnings := translation.warnings st |}.
Proof.
  intro H. revert st. induction H as [| metric ms Hn _ IH]; intro st.
  - simpl. rewrite app_nil_r. destruct st; reflexivity.
  - simpl fold_left. rewrite IH. unfold translation.reconstruct_step. cbn [models.metric_name].
    apply String.eqb_neq in Hn. rewrite Hn. simpl. rewrite <- app_assoc. reflexivity.
Qed.

Lemma reconstruct_rows (b : ScoreBreakdown) :
  Forall (fun metric => name metric <> "overall_score") (metrics b) ->
  fold_left translation.reconstruct_step (translation.evaluation_rows b)
    {| translation.metrics := []; translation.overall_score := 0.0;
       translation.explanation := None; translation.warnings := [] |}
  = {| translation.metrics :=
         map (fun metric => stored_metric (response_of_metric metric)) (metrics b);
       translation.overall_score := overall_score b;
       translation.explanation := Some (explanation b);
       translation.warnings := warnings b |}.
Proof.
  intro H. unfold translation.evaluation_rows. rewrite fold_left_app, (reconstruct_metric_rows _ _ H).
  reflexivity.
Qed.

Section Backends.

Variable detect_langs : string -> result LanguageDetectionMetric.lang_probs.
Variable encode : string -> string -> string
                  -> result (SemanticSimilarityMetric.vector * SemanticSimilarityMetric.vector).
Variable norm : SemanticSimilarityMetric.vector -> Q.
Variable evaluator : Evaluator.t.

Lemma store_translation_stored (request : api.TranslationRequest) (id : Z)
      (translation_result : provider.TranslationResult)
      (row : models.Translation) (entry : api.TranslationWithEvaluation) :
  translation.store_translation detect_langs encode norm evaluator request id translation_result
  = Ok (row, entry) ->
  translation.reconstruct row = as_stored entry
  /\ overall_of (as_stored entry) = overall_of entry.
Proof.
  unfold translation.store_translation.
  destruct (truthy_opt (provider.error translation_result)) eqn:F; cbn [negb].
  - intro E. injection E as <- <-. unfold translation.reconstruct, as_stored, overall_of.
    cbn [models.evaluations api.translation api.evaluation models.provider models.model
         models.output_text models.latency_ms models.usage_tokens models.error models.id].
    rewrite F. destruct translation_result; split; reflexivity.
  - unfold Evaluator.evaluate_translation.
    destruct (Evaluator.run_metrics detect_langs encode norm evaluator
                (api.text request) (provider.output_text translation_result)
                (api.target_lang request)) as [m |]; cbn [bind]; [| discriminate].
    intro E. injection E as <- <-. unfold translation.reconstruct, as_stored, overall_of.
    cbn [models.evaluations api.translation api.evaluation models.provider models.model
         models.output_text models.latency_ms models.usage_tokens models.error models.id
         score_breakdown].
    rewrite F, (reconstruct_rows _ (fuse_no_overall _ m)).
    destruct translation_result; split; [| reflexivity].
    cbn. rewrite map_map. reflexivity.
Qed.

Lemma store_translations_stored (request : api.TranslationRequest)
      (translation_results : list provider.TranslationResult) :
  forall (next_id : Z) (rows : list models.Translation)
         (entries : list api.TranslationWithEvaluation),
    translation.store_translations detect_langs encode norm evaluator request next_id translation_results
    = Ok (rows, entries) ->
    map translation.reconstruct rows = map as_stored entries
    /\ Forall (fun entry => overall_of (as_stored entry) = overall_of entry) entries.
Proof.
  induction translation_results as [| tr rest IH]; intros next_id rows entries; simpl.
  - intro E. injection E as <- <-. split; [reflexivity | constructor].
  - destruct (translation.store_translation detect_langs encode norm evaluator request next_id tr)
      as [[row entry] |] eqn:S; cbn [bind]; [| discriminate].
    destruct (translation.store_translations detect_langs encode norm evaluator request
                (next_id + 1) rest) as [[rows' entries'] |] eqn:T; cbn [bind]; [| discriminate].
    intro E. injection E as <- <-. cbn [fst snd].
    destruct (store_translation_stored request next_id tr row entry S) as [R O].
    destruct (IH (next_id + 1)%Z rows' entries' T) as [Rs Os].
    split; [simpl; rewrite R, Rs; reflexivity | constructor; assumption].
Qed.

(** X29.  Reading a run back answers what its creation answered, up to
    what the database does not keep: the metrics come back with the
    weight 0, and a failed translation comes back with no warning and no
    explanation; the scores, the metrics and their details, the warnings
    and the explanation of every evaluated translation, and the summary
    of the run, are the same. *)
Theorem stored_run_round_trip (request : api.TranslationRequest) (run_id next_id : Z)
        (translation_results : list provider.TranslationResult)
        (run : models.Run) (answer : api.TranslationResponse) :
  translation.run_translation detect_langs encode norm evaluator request run_id next_id translation_results
  = Ok (run, answer) ->
  translation.get_run run
  = {| api.run_id := api.run_id answer;
       api.source_text := api.source_text answer;
       api.response_target_lang := api.response_target_lang answer;
       api.response_source_lang := api.response_source_lang answer;
       api.results := map as_stored (api.results answer);
       api.summary := api.summary answer |}.
Proof.
  unfold translation.run_translation.
  destruct (translation.store_translations detect_langs encode norm evaluator request next_id
              translation_results) as [[rows entries] |] eqn:S; cbn [bind]; [| discriminate].
  intro E. injection E as <- <-.
  destruct (store_translations_stored request translation_results next_id rows entries S)
    as [R O].
  unfold translation.get_run. cbn. rewrite R. f_equal.
  apply summary_map. intros r Hr. rewrite Forall_forall in O.
  split; [exact (O r Hr) | reflexivity].
Qed.

End Backends.

End RoutesMore.

Lemma stored_run_round_trip_witness :
  exists run answer,
    translation.run_translation (constant_detector [("es", 0.9%Q)])
      (fun _ _ _ => Py.Raise (Py.RuntimeError "no model")) axis_norm
      (Evaluator.init heuristics_config)
      {| api.text := "Hello, world!"; api.target_lang := "es";
         api.source_lang := None; api.reference_translation := None |}
      1%Z 10%Z
      [{| provider.provider_name := "openai"; provider.model_id := "gpt-4";
          provider.output_text := "Hola, mundo!"; provider.latency_ms := 120%Q;
          provider.usage_tokens := Some 12%Z; provider.error := None |};
       {| provider.provider_name := "local"; provider.model_id := "llama";
          provider.output_text := EmptyString; provider.latency_ms := 30%Q;
          provider.usage_tokens := None; provider.error := Some "timeout" |}]
    = Py.Ok (run, answer)
    /\ translation.get_run run
       = {| api.run_id := api.run_id answer;
            api.source_text := api.source_text answer;
            api.response_target_lang := api.response_target_lang answer;
            api.response_source_lang := api.response_source_lang answer;
            api.results := map as_stored (api.results answer);
            api.summary := api.summary answer |}.
Proof.
  eexists. eexists. split; [vm_compute; reflexivity |].
  apply (stored_run_round_trip (constant_detector [("es", 0.9%Q)])
           (fun _ _ _ => Py.Raise (Py.RuntimeError "no model")) axis_norm
           (Evaluator.init heuristics_config)
           {| api.text := "Hello, world!"; api.target_lang := "es";
              api.source_lang := None; api.reference_translation := None |}
           1%Z 10%Z
           [{| provider.provider_name := "openai"; provider.model_id := "gpt-4";
               provider.output_text := "Hola, mundo!"; provider.latency_ms := 120%Q;
               provider.usage_tokens := Some 12%Z; provider.error := None |};
            {| provider.provider_name := "local"; provider.model_id := "llama";
               provider.output_text := EmptyString; provider.latency_ms := 30%Q;
               provider.usage_tokens := None; provider.error := Some "timeout" |}]).
  vm_compute. reflexivity.
Defined.
